(** * Revenue Rescue: the prompt-and-response pipeline

    A shallow embedding of the two API routes
    ([src/app/api/chat/route.ts], [src/app/api/generate-report/route.ts]),
    of the client-side sanitizer of [src/components/chat-interface.tsx]
    and of the chat page's clear handler ([src/app/chat/page.tsx]),
    followed by the properties of the specification that they decide.

    JavaScript strings are sequences of UTF-16 code units; regular
    expressions are kept as syntax trees and run by a backtracking
    matcher that follows the ECMAScript matching order, so that every
    [.replace] and [.match] of the source is a term one can read next to
    the regular-expression literal it stands for. *)

From stdpp Require Import gmap strings.
From Stdlib Require Import Ascii String DecimalString NArith ZArith Lia Bool List.
Import ListNotations.

(* ================================================================== *)
(** * JavaScript strings *)
(* ================================================================== *)

Module JsString.

Open Scope N_scope.

(** A string is the list of its UTF-16 code units. *)
Definition jsstring : Type := list N.

(** An ASCII literal of the source, as a JavaScript string. *)
Definition str (s : string) : jsstring :=
  List.map N_of_ascii (list_ascii_of_string s).

(** The same, with every apostrophe read as a double quote: used to write
    JSON texts as literals. *)
Definition qstr (s : string) : jsstring :=
  List.map (fun c => if c =? 39 then 34 else c) (str s).

Fixpoint jsstring_eqb (a b : jsstring) : bool :=
  match a, b with
  | [], [] => true
  | c :: a', d :: b' => (c =? d) && jsstring_eqb a' b'
  | _, _ => false
  end.

(** [String(n)] for a non-negative integer (decimal digits). *)
Definition num (n : N) : jsstring :=
  str (NilZero.string_of_uint (N.to_uint n)).

(** ECMAScript WhiteSpace and LineTerminator code units: what [\s]
    matches and what [String.prototype.trim] strips. *)
Definition is_space (c : N) : bool :=
  (c =? 9) || (c =? 10) || (c =? 11) || (c =? 12) || (c =? 13) || (c =? 32)
  || (c =? 160) || (c =? 5760) || ((8192 <=? c) && (c <=? 8202))
  || (c =? 8232) || (c =? 8233) || (c =? 8239) || (c =? 8287)
  || (c =? 12288) || (c =? 65279).

(** [\w] and the word characters of [\b]: [A-Za-z0-9_]. *)
Definition is_word (c : N) : bool :=
  ((48 <=? c) && (c <=? 57)) || ((65 <=? c) && (c <=? 90))
  || ((97 <=? c) && (c <=? 122)) || (c =? 95).

Fixpoint trimStart (s : jsstring) : jsstring :=
  match s with
  | c :: s' => if is_space c then trimStart s' else s
  | [] => []
  end.

Definition trimEnd (s : jsstring) : jsstring := rev (trimStart (rev s)).

(** [String.prototype.trim]. *)
Definition trim (s : jsstring) : jsstring := trimEnd (trimStart s).

Fixpoint startsWith (s p : jsstring) {struct p} : bool :=
  match p, s with
  | [], _ => true
  | c :: p', d :: s' => (c =? d) && startsWith s' p'
  | _ :: _, [] => false
  end.

(** [String.prototype.includes]. *)
Fixpoint includes (s p : jsstring) : bool :=
  startsWith s p ||
  match s with
  | [] => false
  | _ :: s' => includes s' p
  end.

(** [Array.prototype.join] on an array of strings. *)
Fixpoint join (sep : jsstring) (l : list jsstring) : jsstring :=
  match l with
  | [] => []
  | [x] => x
  | x :: l' => x ++ sep ++ join sep l'
  end.

(** Truthiness of a string, and of a value that may be [undefined]. *)
Definition truthy_string (s : jsstring) : bool :=
  match s with [] => false | _ => true end.

(** A string or [undefined] inside a template literal. *)
Definition interpolate (x : option jsstring) : jsstring :=
  match x with
  | Some s => s
  | None => str "undefined"
  end.

(** [x || d] where [x] is a string or [undefined]. *)
Definition or_else (x : option jsstring) (d : jsstring) : jsstring :=
  match x with
  | Some s => if truthy_string s then s else d
  | None => d
  end.

(** [p] occurs in [s]: what [includes] decides. *)
Definition occurs_in (p s : jsstring) : Prop :=
  exists pre post, s = pre ++ p ++ post.

(** Strings of white space only, and strings that [trim] has nothing to
    take from. *)
Definition all_space (s : jsstring) : Prop := Forall (fun c => is_space c = true) s.

Definition no_leading_space (s : jsstring) : Prop :=
  match s with
  | c :: _ => is_space c = false
  | [] => True
  end.

Definition no_trailing_space (s : jsstring) : Prop := no_leading_space (rev s).

End JsString.
Export JsString.

(* ================================================================== *)
(** * Regular expressions *)
(* ================================================================== *)

Module RegExp.

Open Scope N_scope.

(** The fragment of the pattern language that the source uses.  [Chr]
    is a literal code unit, [Cls] a character class, [Star] the greedy
    [*], [LazyStar] is [*?], [Upto n] is the greedy [{0,n}], [NotAhead]
    is [(?!...)], [WordB] is [\b] and [Group] the capturing group number
    one (no pattern of the source has more than one). *)
Inductive regex : Type :=
| Eps
| Chr (c : N)
| Cls (p : N -> bool)
| Seq (r1 r2 : regex)
| Star (r : regex)
| LazyStar (r : regex)
| Upto (n : nat) (r : regex)
| NotAhead (r : regex)
| WordB
| Group (r : regex).

(** A position in the subject: the code unit just before it (for [\b]),
    what is left to read, and the text captured by the group so far. *)
Record cursor : Type := Cursor {
  before : option N;
  rest : jsstring;
  cap1 : option jsstring
}.

(** Canonicalisation under the [i] flag without the [u] flag.  A code
    unit outside ASCII never canonicalises to an ASCII one, and every
    literal of the source's patterns is ASCII, so folding [a-z] is all
    that is observable. *)
Definition canonicalize (c : N) : N :=
  if (97 <=? c) && (c <=? 122) then c - 32 else c.

Definition chr_eqb (icase : bool) (c d : N) : bool :=
  if icase then canonicalize c =? canonicalize d else c =? d.

Definition word_before (cur : cursor) : bool :=
  match before cur with Some c => is_word c | None => false end.

Definition word_after (cur : cursor) : bool :=
  match rest cur with c :: _ => is_word c | [] => false end.

Definition advance (c : N) (s : jsstring) (cur : cursor) : cursor :=
  Cursor (Some c) s (cap1 cur).

Definition shorter (a b : cursor) : bool :=
  (length (rest a) <? length (rest b))%nat.

(** What the matcher consumed between two cursors of one subject. *)
Definition consumed (from to : cursor) : jsstring :=
  firstn (length (rest from) - length (rest to))%nat (rest from).

(** The loops of the quantifiers, over the matcher [body] of the
    quantified pattern and the continuation [k] of the quantifier.  An
    iteration that consumes nothing is rejected, as in the language's
    RepeatMatcher.  The greedy loop tries one more iteration before it
    tries to go on; the lazy loop tries to go on first.  [fuel] bounds
    the number of iterations: it is the bound of the quantifier when it
    has one, and the number of code units left otherwise (every
    iteration consumes at least one). *)
Fixpoint greedy_loop (body : cursor -> (cursor -> option cursor) -> option cursor)
    (k : cursor -> option cursor) (fuel : nat) (cur : cursor) {struct fuel}
  : option cursor :=
  match fuel with
  | O => k cur
  | S fuel' =>
      match body cur (fun cur' => if shorter cur' cur
                                  then greedy_loop body k fuel' cur' else None) with
      | Some res => Some res
      | None => k cur
      end
  end.

Fixpoint lazy_loop (body : cursor -> (cursor -> option cursor) -> option cursor)
    (k : cursor -> option cursor) (fuel : nat) (cur : cursor) {struct fuel}
  : option cursor :=
  match fuel with
  | O => k cur
  | S fuel' =>
      match k cur with
      | Some res => Some res
      | None =>
          body cur (fun cur' => if shorter cur' cur
                                then lazy_loop body k fuel' cur' else None)
      end
  end.

(** The backtracking matcher, in continuation-passing style: [exec r cur
    k] tries the ways [r] can match at [cur] in ECMAScript's priority
    order and returns the first for which the continuation [k]
    succeeds. *)
Fixpoint exec (icase : bool) (r : regex) (cur : cursor)
    (k : cursor -> option cursor) {struct r} : option cursor :=
  match r with
  | Eps => k cur
  | Chr c =>
      match rest cur with
      | d :: s => if chr_eqb icase c d then k (advance d s cur) else None
      | [] => None
      end
  | Cls p =>
      match rest cur with
      | d :: s => if p d then k (advance d s cur) else None
      | [] => None
      end
  | Seq r1 r2 => exec icase r1 cur (fun cur' => exec icase r2 cur' k)
  | Star r' => greedy_loop (exec icase r') k (length (rest cur)) cur
  | LazyStar r' => lazy_loop (exec icase r') k (length (rest cur)) cur
  | Upto n r' => greedy_loop (exec icase r') k n cur
  | NotAhead r' =>
      match exec icase r' cur Some with
      | Some _ => None
      | None => k cur
      end
  | WordB => if xorb (word_before cur) (word_after cur) then k cur else None
  | Group r' =>
      exec icase r' cur
        (fun cur' => k (Cursor (before cur') (rest cur') (Some (consumed cur cur'))))
  end.

(** One attempt at one position, with the capture cleared. *)
Definition match_here (icase : bool) (r : regex) (prev : option N) (s : jsstring)
  : option cursor :=
  exec icase r (Cursor prev s None) Some.

(** [r+] and a literal run of code units. *)
Definition Plus (r : regex) : regex := Seq r (Star r).

Fixpoint Lit (s : jsstring) : regex :=
  match s with
  | [] => Eps
  | c :: s' => Seq (Chr c) (Lit s')
  end.

(** The leftmost match: [Some (m, before, after)] when [m] is the matched
    text and the subject is [before ++ m ++ after]. *)
Fixpoint search (icase : bool) (r : regex) (prev : option N) (s : jsstring)
  : option (jsstring * cursor) :=
  match match_here icase r prev s with
  | Some cur' => Some (firstn (length s - length (rest cur'))%nat s, cur')
  | None =>
      match s with
      | [] => None
      | c :: s' => search icase r (Some c) s'
      end
  end.

(** [RegExp.prototype.test]. *)
Definition test (icase : bool) (r : regex) (s : jsstring) : bool :=
  match search icase r None s with Some _ => true | None => false end.

(** [String.prototype.match] with a pattern without the [g] flag: the
    text of the leftmost match (element 0 of the result array). *)
Definition String_match (icase : bool) (r : regex) (s : jsstring) : option jsstring :=
  match search icase r None s with Some (m, _) => Some m | None => None end.

(** The replacement strings of the source: the empty string or [$1]. *)
Inductive replacement : Type :=
| ReplEmpty
| ReplGroup1.

Definition expand (rp : replacement) (cur : cursor) : jsstring :=
  match rp with
  | ReplEmpty => []
  | ReplGroup1 => match cap1 cur with Some c => c | None => [] end
  end.

(** [String.prototype.replace] with a pattern that has the [g] flag.
    The subject is scanned from the left; text outside the matches is
    kept, every match is replaced, and the scan resumes where the match
    ended (one code unit further after an empty match).  Every step
    either ends the scan or moves on by at least one code unit, so
    [replace_all] gives the loop one unit of fuel per code unit, plus
    one. *)
Fixpoint replace_loop (fuel : nat) (icase : bool) (r : regex) (rp : replacement)
    (prev : option N) (s : jsstring) : jsstring :=
  match fuel with
  | O => s
  | S fuel' =>
      match match_here icase r prev s with
      | Some cur' =>
          if (length (rest cur') <? length s)%nat
          then expand rp cur' ++ replace_loop fuel' icase r rp (before cur') (rest cur')
          else
            match s with
            | [] => expand rp cur'
            | c :: s' => expand rp cur' ++ c :: replace_loop fuel' icase r rp (Some c) s'
            end
      | None =>
          match s with
          | [] => []
          | c :: s' => c :: replace_loop fuel' icase r rp (Some c) s'
          end
      end
  end.

Definition replace_all (icase : bool) (r : regex) (rp : replacement) (s : jsstring)
  : jsstring :=
  replace_loop (S (length s)) icase r rp None s.

(** Patterns that cannot match the empty string, by their shape. *)
Fixpoint consumes (r : regex) : bool :=
  match r with
  | Chr _ | Cls _ => true
  | Seq r1 r2 => consumes r1 || consumes r2
  | Group r' => consumes r'
  | _ => false
  end.

(** Patterns with a capturing group inside. *)
Fixpoint captures (r : regex) : bool :=
  match r with
  | Group _ => true
  | Seq r1 r2 => captures r1 || captures r2
  | Star r' | LazyStar r' | Upto _ r' => captures r'
  | _ => false
  end.

(** A pattern and a replacement such that every match is replaced by
    something strictly shorter than itself. *)
Definition shrinks (icase : bool) (r : regex) (rp : replacement) : Prop :=
  forall prev s cur',
    match_here icase r prev s = Some cur' ->
    (length (expand rp cur') + length (rest cur') < length s)%nat.

(** The cursor after reading [lit] from [lit ++ s]. *)
Definition after_literal (lit s : jsstring) (cur : cursor) : cursor :=
  Cursor (match rev lit with c :: _ => Some c | [] => before cur end) s (cap1 cur).

End RegExp.
Export RegExp.

(* ================================================================== *)
(** * The denylist sanitizers *)
(* ================================================================== *)

Module Sanitizer.

Open Scope N_scope.

Definition not_lt (c : N) : bool := negb (c =? 60).
Definition any_unit (_ : N) : bool := true.
(** [.] : any code unit but a line terminator. *)
Definition dot (c : N) : bool :=
  negb ((c =? 10) || (c =? 13) || (c =? 8232) || (c =? 8233)).

(** The pattern  <tag\b [^<]* (?: (?!<\/tag>) < [^<]* )* <\/tag>  with the
    flags gi (written here with spaces between its parts), which the
    source has for the tags script and iframe. *)
Definition re_block (tag : string) : regex :=
  let close := Lit (str "</" ++ str tag ++ str ">") in
  Seq (Lit (str "<" ++ str tag))
   (Seq WordB
     (Seq (Star (Cls not_lt))
       (Seq (Star (Seq (NotAhead close) (Seq (Chr 60) (Star (Cls not_lt)))))
          close))).

Definition re_script : regex := re_block "script".
Definition re_iframe : regex := re_block "iframe".

(** The pattern  javascript:  with the flags gi. *)
Definition re_javascript : regex := Lit (str "javascript:").

(** The pattern  on \w+ \s* =  with the flags gi. *)
Definition re_handler : regex :=
  Seq (Lit (str "on")) (Seq (Plus (Cls is_word)) (Seq (Star (Cls is_space)) (Chr 61))).

(** The markdown patterns  \*\* (.*?) \*\*  and  \* (.*?) \*  and
    #{1,6} \s , each with the flag g. *)
Definition re_bold : regex :=
  Seq (Lit (str "**")) (Seq (Group (LazyStar (Cls dot))) (Lit (str "**"))).
Definition re_italic : regex :=
  Seq (Chr 42) (Seq (Group (LazyStar (Cls dot))) (Chr 42)).
Definition re_heading : regex :=
  Seq (Chr 35) (Seq (Upto 5 (Chr 35)) (Cls is_space)).

(** The four [.replace] calls that [sanitizeOutput] and
    [sanitizeMessage] start with, innermost first in time. *)
Definition denylist_passes (text : jsstring) : jsstring :=
  replace_all true re_handler ReplEmpty
    (replace_all true re_javascript ReplEmpty
      (replace_all true re_iframe ReplEmpty
        (replace_all true re_script ReplEmpty text))).

(** The three further [.replace] calls of [sanitizeMessage]. *)
Definition markdown_passes (text : jsstring) : jsstring :=
  replace_all false re_heading ReplEmpty
    (replace_all false re_italic ReplGroup1
      (replace_all false re_bold ReplGroup1 text)).

(** [sanitizeOutput] of both API routes (the two files carry the same
    function). *)
Definition sanitizeOutput (text : jsstring) : jsstring :=
  trim (denylist_passes text).

(** [sanitizeMessage] of the chat component. *)
Definition sanitizeMessage (message : jsstring) : jsstring :=
  trim (markdown_passes (denylist_passes message)).

(** A text transformation that never lengthens its argument, and that
    keeps its length only where it changes nothing and [P] holds. *)
Definition contracts (f : jsstring -> jsstring) (P : jsstring -> Prop) : Prop :=
  forall x,
    (length (f x) <= length x)%nat
    /\ (length (f x) = length x -> f x = x /\ P x).

(** What the denylist is there to remove, as tests on a text: a script
    block, an iframe block, the scheme javascript: in any letter case,
    and an inline event-handler attribute. *)
Definition has_script_block (s : jsstring) : bool := test true re_script s.
Definition has_iframe_block (s : jsstring) : bool := test true re_iframe s.
Definition has_javascript_uri (s : jsstring) : bool := test true re_javascript s.
Definition has_event_handler (s : jsstring) : bool := test true re_handler s.

Definition denylist_free (s : jsstring) : Prop :=
  has_script_block s = false
  /\ has_iframe_block s = false
  /\ has_javascript_uri s = false
  /\ has_event_handler s = false.

(** The shape of both tag patterns. *)
Definition block_re (opening closing : jsstring) : regex :=
  Seq (Lit opening)
   (Seq WordB
     (Seq (Star (Cls not_lt))
       (Seq (Star (Seq (NotAhead (Lit closing)) (Seq (Chr 60) (Star (Cls not_lt)))))
          (Lit closing)))).

(** No code unit of [s] is [<]; the first code unit of [s] is a word
    character. *)
Definition lt_free (s : jsstring) : bool := forallb not_lt s.

Definition word_at_head (s : jsstring) : bool :=
  match s with c :: _ => is_word c | [] => false end.

(** [s] has no code unit [c]; [s] has no line terminator. *)
Definition lacks (c : N) (s : jsstring) : bool := forallb (fun d => negb (d =? c)) s.

Definition one_line (s : jsstring) : bool := forallb dot s.

(** The shape of the two emphasis patterns:  marker (.*?) marker . *)
Definition emphasis (marker : jsstring) : regex :=
  Seq (Lit marker) (Seq (Group (LazyStar (Cls dot))) (Lit marker)).

End Sanitizer.
Export Sanitizer.


(* ================================================================== *)
(** * Exceptions *)
(* ================================================================== *)

Module Exn.

(** What a [throw] or a rejected promise carries.  [ErrorObject] stands
    for the instances of [Error] (with their [message]); [NotAnError]
    for any other thrown value. *)
Inductive exn : Type :=
| ErrorObject (message : jsstring)
| NotAnError.

(** A computation that returns or throws. *)
Inductive result (A : Type) : Type :=
| Ok (a : A)
| Throw (e : exn).
Arguments Ok {A} a.
Arguments Throw {A} e.

Definition bind {A B : Type} (m : result A) (f : A -> result B) : result B :=
  match m with
  | Ok a => f a
  | Throw e => Throw e
  end.

(** [try { m } catch (e) { h e }] *)
Definition try_catch {A : Type} (m : result A) (h : exn -> A) : A :=
  match m with
  | Ok a => a
  | Throw e => h e
  end.

End Exn.
Export Exn.

Notation "'let!' x ':=' m 'in' k" := (bind m (fun x => k))
  (at level 10, x name, m at level 100, k at level 200).

(* ================================================================== *)
(** * JSON values and [JSON.parse] *)
(* ================================================================== *)

Module Json.

Open Scope N_scope.

(** The values [JSON.parse] produces.  A number is kept as the decimal
    it was written as, [(-1)^neg * mant * 10^exp10]; the engine rounds it
    to a double, which the pipeline observes through truthiness and
    through the serialisation of the report.
    An object keeps its properties in source order; a later duplicate
    key overrides an earlier one on lookup. *)
#[warnings="-register-all"]
Inductive value : Type :=
| JNull
| JBool (b : bool)
| JNumber (neg : bool) (mant : N) (exp10 : Z)
| JString (s : jsstring)
| JArray (items : list value)
| JObject (props : list (jsstring * value)).

(** A non-negative integer as a number value. *)
Definition JNat (n : N) : value := JNumber false n 0.

(** Whether the double nearest to [mant * 10^exp10] is zero: the smallest
    positive double is [2^-1074], and everything up to half of it rounds
    to zero (ties to even). *)
Definition rounds_to_zero (mant : N) (exp10 : Z) : bool :=
  (mant =? 0) ||
  ((exp10 <? 0)%Z && (Z.of_N mant * 2 ^ 1075 <=? 10 ^ (- exp10))%Z).

(** ToBoolean. *)
Definition truthy (v : value) : bool :=
  match v with
  | JNull => false
  | JBool b => b
  | JNumber _ mant exp10 => negb (rounds_to_zero mant exp10)
  | JString s => truthy_string s
  | JArray _ => true
  | JObject _ => true
  end.

Fixpoint lookup_last (key : jsstring) (props : list (jsstring * value))
  : option value :=
  match props with
  | [] => None
  | (k, v) :: props' =>
      match lookup_last key props' with
      | Some v' => Some v'
      | None => if jsstring_eqb k key then Some v else None
      end
  end.

(** [v.key] for one of the property names the routes read; [None] is
    [undefined].  Only objects carry such a property. *)
Definition get (v : value) (key : string) : option value :=
  match v with
  | JObject props => lookup_last (str key) props
  | _ => None
  end.

(** [!v.key] *)
Definition falsy_prop (v : value) (key : string) : bool :=
  match get v key with
  | Some x => negb (truthy x)
  | None => true
  end.

(** Whether the double nearest to [mant * 10^exp10] is [Infinity]: the
    largest double is [2^1024 - 2^971], and everything from half an ulp
    above it, [2^1024 - 2^970], rounds away from it (ties to even). *)
Definition rounds_to_infinity (mant : N) (exp10 : Z) : bool :=
  if (0 <=? exp10)%Z
  then (2 ^ 1024 - 2 ^ 970 <=? Z.of_N mant * 10 ^ exp10)%Z
  else ((2 ^ 1024 - 2 ^ 970) * 10 ^ (- exp10) <=? Z.of_N mant)%Z.

(** What a client reads back from [JSON.stringify] of a parsed value
    (the body that [NextResponse.json] sends): a number that is
    [Infinity] or [-Infinity] as a double is written [null], a negative
    zero is written [0], and every other number, string, boolean and
    [null] comes back as the same double, string, boolean and [null];
    arrays and objects are serialised element by element.  Properties
    stay in the association list, which [get] reads. *)
Fixpoint serialised (v : value) : value :=
  match v with
  | JNumber neg mant exp10 =>
      if rounds_to_infinity mant exp10 then JNull
      else if neg && rounds_to_zero mant exp10 then JNat 0
      else v
  | JArray items => JArray (map serialised items)
  | JObject props => JObject (map (fun '(k, x) => (k, serialised x)) props)
  | _ => v
  end.

(** A value all of whose numbers are finite doubles other than the
    negative zero: one that serialisation gives back as it is. *)
Fixpoint survives (v : value) : bool :=
  match v with
  | JNumber neg mant exp10 =>
      negb (rounds_to_infinity mant exp10) && negb (neg && rounds_to_zero mant exp10)
  | JArray items => forallb survives items
  | JObject props => forallb (fun '(_, x) => survives x) props
  | _ => true
  end.

(** Parser results: a value and the unread input, a syntax error, or an
    exhausted recursion budget (which [JSON_parse] never reaches, see
    [parse_value_fuel]). *)
Inductive presult (A : Type) : Type :=
| POk (a : A) (rest : jsstring)
| PSyntaxError
| POutOfFuel.
Arguments POk {A} a rest.
Arguments PSyntaxError {A}.
Arguments POutOfFuel {A}.

Definition is_json_ws (c : N) : bool :=
  (c =? 9) || (c =? 10) || (c =? 13) || (c =? 32).

Fixpoint skip_ws (s : jsstring) : jsstring :=
  match s with
  | c :: s' => if is_json_ws c then skip_ws s' else s
  | [] => []
  end.

Fixpoint strip_prefix (p s : jsstring) : option jsstring :=
  match p, s with
  | [], _ => Some s
  | c :: p', d :: s' => if c =? d then strip_prefix p' s' else None
  | _ :: _, [] => None
  end.

Definition is_digit (c : N) : bool := (48 <=? c) && (c <=? 57).

Definition hex_value (c : N) : option N :=
  if is_digit c then Some (c - 48)
  else if (65 <=? c) && (c <=? 70) then Some (c - 55)
  else if (97 <=? c) && (c <=? 102) then Some (c - 87)
  else None.

Definition hex4 (a b c d : N) : option N :=
  match hex_value a, hex_value b, hex_value c, hex_value d with
  | Some x, Some y, Some z, Some w => Some (((x * 16 + y) * 16 + z) * 16 + w)
  | _, _, _, _ => None
  end.

Definition simple_escape (c : N) : option N :=
  if c =? 34 then Some 34          (* quote *)
  else if c =? 92 then Some 92     (* backslash *)
  else if c =? 47 then Some 47     (* slash *)
  else if c =? 98 then Some 8      (* b *)
  else if c =? 102 then Some 12    (* f *)
  else if c =? 110 then Some 10    (* n *)
  else if c =? 114 then Some 13    (* r *)
  else if c =? 116 then Some 9     (* t *)
  else None.

(** The characters of a string literal, after its opening quote. *)
Fixpoint parse_chars (acc : jsstring) (s : jsstring) : presult jsstring :=
  match s with
  | [] => PSyntaxError
  | c :: s' =>
      if c =? 34 then POk (rev acc) s'
      else if c =? 92 then
        match s' with
        | e :: s'' =>
            if e =? 117 then
              match s'' with
              | h1 :: h2 :: h3 :: h4 :: s3 =>
                  match hex4 h1 h2 h3 h4 with
                  | Some u => parse_chars (u :: acc) s3
                  | None => PSyntaxError
                  end
              | _ => PSyntaxError
              end
            else
              match simple_escape e with
              | Some u => parse_chars (u :: acc) s''
              | None => PSyntaxError
              end
        | [] => PSyntaxError
        end
      else if c <? 32 then PSyntaxError
      else parse_chars (c :: acc) s'
  end.

(** A run of decimal digits: their value on top of [acc], how many there
    were, and the unread input. *)
Fixpoint read_digits (acc : N) (s : jsstring) : N * nat * jsstring :=
  match s with
  | c :: s' =>
      if is_digit c then
        let '(m, n, r) := read_digits (acc * 10 + (c - 48)) s' in (m, S n, r)
      else (acc, O, s)
  | [] => (acc, O, [])
  end.

Definition parse_int (s : jsstring) : presult N :=
  match s with
  | c :: s' =>
      if c =? 48 then POk 0 s'
      else if is_digit c then let '(m, _, r) := read_digits 0 s in POk m r
      else PSyntaxError
  | [] => PSyntaxError
  end.

Definition parse_frac (mant : N) (s : jsstring) : presult (N * Z) :=
  match s with
  | c :: s' =>
      if c =? 46 then
        match read_digits mant s' with
        | (_, O, _) => PSyntaxError
        | (m, n, r) => POk (m, (- Z.of_nat n)%Z) r
        end
      else POk (mant, 0%Z) s
  | [] => POk (mant, 0%Z) s
  end.

Definition parse_exp (s : jsstring) : presult Z :=
  match s with
  | c :: s' =>
      if (c =? 101) || (c =? 69) then
        let '(sign, s'') :=
          match s' with
          | d :: t => if d =? 43 then (1%Z, t) else if d =? 45 then ((-1)%Z, t) else (1%Z, s')
          | [] => (1%Z, s')
          end in
        match read_digits 0 s'' with
        | (_, O, _) => PSyntaxError
        | (m, _, r) => POk (sign * Z.of_N m)%Z r
        end
      else POk 0%Z s
  | [] => POk 0%Z s
  end.

Definition parse_number (s : jsstring) : presult value :=
  let '(neg, s1) :=
    match s with
    | c :: s' => if c =? 45 then (true, s') else (false, s)
    | [] => (false, s)
    end in
  match parse_int s1 with
  | POk i s2 =>
      match parse_frac i s2 with
      | POk (m, e1) s3 =>
          match parse_exp s3 with
          | POk e2 s4 => POk (JNumber neg m (e1 + e2)%Z) s4
          | PSyntaxError => PSyntaxError
          | POutOfFuel => POutOfFuel
          end
      | PSyntaxError => PSyntaxError
      | POutOfFuel => POutOfFuel
      end
  | PSyntaxError => PSyntaxError
  | POutOfFuel => POutOfFuel
  end.

Definition keyword (word : string) (v : value) (s : jsstring) : presult value :=
  match strip_prefix (str word) s with
  | Some r => POk v r
  | None => PSyntaxError
  end.

Definition retag {A B : Type} (f : A -> B) (r : presult A) : presult B :=
  match r with
  | POk a s => POk (f a) s
  | PSyntaxError => PSyntaxError
  | POutOfFuel => POutOfFuel
  end.

(** The recursive descent over values, array elements and object
    members.  [parse_elements] and [parse_members] are entered where an
    element or a member has to start. *)
Fixpoint parse_value (fuel : nat) (s : jsstring) {struct fuel} : presult value :=
  match fuel with
  | O => POutOfFuel
  | S fuel' =>
      match skip_ws s with
      | [] => PSyntaxError
      | c :: r =>
          if c =? 123 then
            match skip_ws r with
            | d :: r' =>
                if d =? 125 then POk (JObject []) r'
                else retag JObject (parse_members fuel' [] (d :: r'))
            | [] => PSyntaxError
            end
          else if c =? 91 then
            match skip_ws r with
            | d :: r' =>
                if d =? 93 then POk (JArray []) r'
                else retag JArray (parse_elements fuel' [] (d :: r'))
            | [] => PSyntaxError
            end
          else if c =? 34 then retag JString (parse_chars [] r)
          else if c =? 110 then keyword "null" JNull (c :: r)
          else if c =? 116 then keyword "true" (JBool true) (c :: r)
          else if c =? 102 then keyword "false" (JBool false) (c :: r)
          else parse_number (c :: r)
      end
  end

with parse_elements (fuel : nat) (acc : list value) (s : jsstring) {struct fuel}
  : presult (list value) :=
  match fuel with
  | O => POutOfFuel
  | S fuel' =>
      match parse_value fuel' s with
      | POk v r =>
          match skip_ws r with
          | c :: r' =>
              if c =? 44 then parse_elements fuel' (v :: acc) r'
              else if c =? 93 then POk (rev (v :: acc)) r'
              else PSyntaxError
          | [] => PSyntaxError
          end
      | PSyntaxError => PSyntaxError
      | POutOfFuel => POutOfFuel
      end
  end

with parse_members (fuel : nat) (acc : list (jsstring * value)) (s : jsstring)
    {struct fuel} : presult (list (jsstring * value)) :=
  match fuel with
  | O => POutOfFuel
  | S fuel' =>
      match skip_ws s with
      | q :: s1 =>
          if q =? 34 then
            match parse_chars [] s1 with
            | POk key s2 =>
                match skip_ws s2 with
                | c :: s3 =>
                    if c =? 58 then
                      match parse_value fuel' s3 with
                      | POk v r =>
                          match skip_ws r with
                          | d :: r' =>
                              if d =? 44 then parse_members fuel' ((key, v) :: acc) r'
                              else if d =? 125 then POk (rev ((key, v) :: acc)) r'
                              else PSyntaxError
                          | [] => PSyntaxError
                          end
                      | PSyntaxError => PSyntaxError
                      | POutOfFuel => POutOfFuel
                      end
                    else PSyntaxError
                | [] => PSyntaxError
                end
            | PSyntaxError => PSyntaxError
            | POutOfFuel => POutOfFuel
            end
          else PSyntaxError
      | [] => PSyntaxError
      end
  end.

Definition parse_fuel (s : jsstring) : nat := (2 * length s + 2)%nat.

Definition syntax_error : exn := ErrorObject (str "SyntaxError").

(** [JSON.parse(text)]: one value, surrounded by optional white space,
    or a [SyntaxError]. *)
Definition JSON_parse (text : jsstring) : result value :=
  match parse_value (parse_fuel text) text with
  | POk v r =>
      match skip_ws r with
      | [] => Ok v
      | _ :: _ => Throw syntax_error
      end
  | PSyntaxError => Throw syntax_error
  | POutOfFuel => Throw syntax_error
  end.

End Json.
Export Json.

(* ================================================================== *)
(** * Data shared by the routes and the page *)
(* ================================================================== *)

Module Model.

Open Scope N_scope.

(** The descriptor of an uploaded file.  A sample row is whatever JSON
    value the client sent. *)
Record CSVData : Type := {
  schema : list jsstring;
  rowCount : N;
  sample : list value;
  fileName : jsstring
}.

(** The page's message type; the routes declare only the first two
    tags but receive the page's history. *)
Inductive MessageType : Type :=
| type_user
| type_bot
| type_report.

Definition MessageType_eqb (a b : MessageType) : bool :=
  match a, b with
  | type_user, type_user | type_bot, type_bot | type_report, type_report => true
  | _, _ => false
  end.

(** A message; [timestamp] is a [Date], kept as its time value in
    milliseconds. *)
Record Message : Type := {
  type : MessageType;
  message : jsstring;
  timestamp : N;
  report : option value
}.

(** The response of the generative-text service, with every level that
    the optional chaining of the routes guards. *)
Record Part : Type := { text : option jsstring }.
Record Content : Type := { parts : option (list Part) }.
Record Candidate : Type := { content : option Content }.
Record GenerateContentResponse : Type := { candidates : option (list Candidate) }.

(** [data.candidates?.[0]?.content?.parts?.[0]?.text] *)
Definition first_candidate_text (data : GenerateContentResponse) : option jsstring :=
  match candidates data with
  | Some (c :: _) =>
      match content c with
      | Some ct =>
          match parts ct with
          | Some (p :: _) => text p
          | _ => None
          end
      | None => None
      end
  | _ => None
  end.

(** What the routes send with [fetch] and what comes back: a response
    with its status and the outcome of reading its body as JSON. *)
Record GenerateRequest : Type := {
  prompt : jsstring;
  temperature : value;
  maxOutputTokens : N
}.

Record FetchResponse : Type := {
  fetch_status : N;
  fetch_json : result GenerateContentResponse
}.

(** [response.ok] *)
Definition ok (r : FetchResponse) : bool :=
  (200 <=? fetch_status r) && (fetch_status r <=? 299).

(** What a route returns. *)
Inductive Body : Type :=
| ErrorBody (error : jsstring)
| ChatBody (response : jsstring)
| ReportBody (report : value).

Record Response : Type := {
  status : N;
  body : Body
}.

(** [NextResponse.json(body, { status })]; the status is 200 when the
    source gives none. *)
Definition NextResponse_json (b : Body) (st : N) : Response :=
  {| status := st; body := b |}.

(** A service that answers every request with status 200 and one
    candidate holding [answer]; one that answers without candidates. *)
Definition data_with (answer : jsstring) : GenerateContentResponse :=
  {| candidates :=
       Some [ {| content := Some {| parts := Some [ {| text := Some answer |} ] |} |} ] |}.

Definition response_with (data : GenerateContentResponse) : FetchResponse :=
  {| fetch_status := 200; fetch_json := Ok data |}.

Definition answering (answer : jsstring) (_ : GenerateRequest) : result FetchResponse :=
  Ok (response_with (data_with answer)).

Definition no_candidates : GenerateContentResponse := {| candidates := None |}.

Definition answering_nothing (_ : GenerateRequest) : result FetchResponse :=
  Ok (response_with no_candidates).

(** A service that answers every request with the status [st] and a
    body that is not JSON; a [fetch] that rejects with [e]. *)
Definition failing_with (st : N) (_ : GenerateRequest) : result FetchResponse :=
  Ok {| fetch_status := st; fetch_json := Throw NotAnError |}.

Definition rejecting (e : exn) (_ : GenerateRequest) : result FetchResponse :=
  Throw e.

Definition nl : jsstring := [10].

Fixpoint map_index {A B : Type} (f : A -> nat -> B) (index : nat) (l : list A) : list B :=
  match l with
  | [] => []
  | x :: l' => f x index :: map_index f (S index) l'
  end.

Definition num_nat (n : nat) : jsstring := num (N.of_nat n).

(** [array.slice(-n)]: the last [n] elements, all of them when there
    are fewer. *)
Definition slice_last {A : Type} (n : nat) (l : list A) : list A :=
  skipn (length l - n) l.

End Model.
Export Model.

(* ================================================================== *)
(** * POST /chat *)
(* ================================================================== *)

Module ChatRoute.

Open Scope N_scope.

Record ChatRequest : Type := {
  message : option jsstring;
  csvData : option CSVData;
  chatHistory : list Message
}.

Section Route.

(** [JSON.stringify] on a sample row, and the service behind [fetch]. *)
Variable JSON_stringify : value -> jsstring.
Variable fetch : GenerateRequest -> result FetchResponse.

Definition systemInstruction : jsstring :=
  join nl
    [ str "You are a professional business data analyst and AI assistant. Your role is to:";
      [];
      str "1. Analyze CSV business data (sales, customers, revenue, expenses, churn, etc.)";
      str "2. Provide clear, actionable insights in simple language";
      str "3. Suggest specific business strategies and recommendations";
      str "4. Identify trends, patterns, and opportunities in the data";
      str "5. Offer quantitative analysis with numbers and percentages when possible";
      [];
      str "Always be professional, accurate, and focus on business value. If asked about generating reports, mention that comprehensive business reports can be generated separately.";
      [];
      str "Key areas to focus on:";
      str "- Revenue and profit analysis";
      str "- Customer behavior and churn patterns";
      str "- Sales performance and trends";
      str "- Cost optimization opportunities";
      str "- Growth forecasting and predictions";
      str "- Risk assessment and mitigation" ].

Definition render_row (row : value) (index : nat) : jsstring :=
  str "Record " ++ num_nat (index + 1) ++ str ": " ++ JSON_stringify row.

(** The context block (lines 57 to 72 of the route). *)
Definition csvContext (csvData : option CSVData) : jsstring :=
  match csvData with
  | Some csvData =>
      nl ++ str "BUSINESS DATASET CONTEXT:" ++ nl
      ++ str "- File: " ++ fileName csvData ++ nl
      ++ str "- Total Records: " ++ num (rowCount csvData) ++ nl
      ++ str "- Data Fields (" ++ num_nat (length (schema csvData)) ++ str "): "
      ++ join (str ", ") (schema csvData) ++ nl
      ++ nl
      ++ str "Sample Business Data (" ++ num_nat (length (sample csvData))
      ++ str " rows analyzed):" ++ nl
      ++ join nl (map_index render_row 0 (sample csvData)) ++ nl
      ++ nl
      ++ str "ANALYSIS SCOPE: This analysis covers " ++ num_nat (length (sample csvData))
      ++ str " sample records from a total dataset of " ++ num (rowCount csvData)
      ++ str " records. Insights are extrapolated to represent the full dataset where applicable."
  | None =>
      str "No business data uploaded yet. Please upload a CSV file containing your business data (sales, customers, revenue, etc.) to begin analysis."
  end.

Definition eligible (msg : Message) : bool :=
  MessageType_eqb (type msg) type_user || MessageType_eqb (type msg) type_bot.

(** [chatHistory.slice(-10).filter(...)] *)
Definition recentHistory (chatHistory : list Message) : list Message :=
  filter eligible (slice_last 10 chatHistory).

Definition render_message (msg : Message) : jsstring :=
  (if MessageType_eqb (type msg) type_user then str "User" else str "Assistant")
  ++ str ": " ++ Model.message msg.

Definition historyContext (chatHistory : list Message) : jsstring :=
  let recent := recentHistory chatHistory in
  if (0 <? length recent)%nat
  then nl ++ str "Recent conversation:" ++ nl
       ++ join nl (map render_message recent) ++ nl
  else [].

Definition fullPrompt (message : option jsstring) (csvData : option CSVData)
    (chatHistory : list Message) : jsstring :=
  systemInstruction ++ nl
  ++ nl
  ++ csvContext csvData ++ nl
  ++ historyContext chatHistory ++ nl
  ++ nl
  ++ str "Current user question: " ++ interpolate message ++ nl
  ++ nl
  ++ str "Please provide a helpful, clear response based on the available data. If the question requires analysis of specific data that isn't in the sample, mention that the analysis is limited to the sample data shown.".

(** [!message?.trim()] *)
Definition message_missing (message : option jsstring) : bool :=
  match message with
  | Some m => negb (truthy_string (trim m))
  | None => true
  end.

(** A message that is missing or holds nothing but white space. *)
Definition blank (message : option jsstring) : Prop :=
  match message with
  | Some m => all_space m
  | None => True
  end.

Definition no_response : jsstring := str "Sorry, I couldn't generate a response.".

(** What is posted to the service: the prompt and the generation
    configuration (temperature 0.7). *)
Definition request (req : ChatRequest) : GenerateRequest :=
  {| prompt := fullPrompt (message req) (csvData req) (chatHistory req);
     temperature := JNumber false 7 (-1);
     maxOutputTokens := 1000 |}.

(** The body of the [try] block. *)
Definition handle (req : ChatRequest) : result Response :=
  if message_missing (message req)
  then Ok (NextResponse_json (ErrorBody (str "Message is required")) 400)
  else
    let! response := fetch (request req) in
    if negb (ok response) then
      if fetch_status response =? 429 then
        Ok (NextResponse_json
              (ErrorBody (str "AI service quota exceeded. Please try again later.")) 429)
      else if (fetch_status response =? 401) || (fetch_status response =? 403) then
        Ok (NextResponse_json
              (ErrorBody (str "AI service configuration error. Please check API key.")) 500)
      else
        Ok (NextResponse_json
              (ErrorBody (str "Failed to get response from AI service.")) 500)
    else
      let! data := fetch_json response in
      let text := or_else (first_candidate_text data) no_response in
      let text := sanitizeOutput text in
      Ok (NextResponse_json (ChatBody text) 200).

(** The [catch] block. *)
Definition on_error (error : exn) : Response :=
  match error with
  | ErrorObject msg =>
      if includes msg (str "fetch")
      then NextResponse_json
             (ErrorBody (str "Network error. Please check your connection and try again.")) 500
      else NextResponse_json
             (ErrorBody (str "Failed to process your request. Please try again.")) 500
  | NotAnError =>
      NextResponse_json
        (ErrorBody (str "Failed to process your request. Please try again.")) 500
  end.

Definition POST (req : ChatRequest) : Response :=
  try_catch (handle req) on_error.

End Route.

End ChatRoute.

(* ================================================================== *)
(** * POST /chat, the earlier version of the route *)
(* ================================================================== *)

(** The route as the second unnamed source part has it.  The request
    type, the guard on the message, the selection and rendering of the
    history, the generation configuration and the [catch] block read
    the same as in the current route and are shared with it; the prompt
    texts differ, and the text of the answer is returned as it came. *)
Module EarlierChatRoute.

Open Scope N_scope.

Section Route.

Variable JSON_stringify : value -> jsstring.
Variable fetch : GenerateRequest -> result FetchResponse.

Definition systemInstruction : jsstring :=
  str "You are a helpful data analyst chatbot. Your job is to analyze CSV data provided by the user and answer questions in simple, clear, and actionable insights. Always use the dataset schema, row count, and sample rows given. If data is missing, explain that clearly. Suggest possible visualizations where relevant.".

Definition render_row (row : value) (index : nat) : jsstring :=
  str "Row " ++ num_nat (index + 1) ++ str ": " ++ JSON_stringify row.

Definition csvContext (csvData : option CSVData) : jsstring :=
  match csvData with
  | Some csvData =>
      nl ++ str "Dataset Information:" ++ nl
      ++ str "- File: " ++ fileName csvData ++ nl
      ++ str "- Total Rows: " ++ num (rowCount csvData) ++ nl
      ++ str "- Columns (" ++ num_nat (length (schema csvData)) ++ str "): "
      ++ join (str ", ") (schema csvData) ++ nl
      ++ nl
      ++ str "Sample Data (first " ++ num_nat (length (sample csvData))
      ++ str " rows):" ++ nl
      ++ join nl (map_index render_row 0 (sample csvData)) ++ nl
      ++ nl
      ++ str "Note: This analysis is based on a sample of "
      ++ num_nat (length (sample csvData))
      ++ str " rows from the full dataset of " ++ num (rowCount csvData)
      ++ str " rows due to processing limitations." ++ nl
  | None =>
      str "No CSV data has been uploaded yet. Please ask the user to upload a CSV file first."
  end.

Definition fullPrompt (message : option jsstring) (csvData : option CSVData)
    (chatHistory : list Message) : jsstring :=
  systemInstruction ++ nl
  ++ nl
  ++ csvContext csvData ++ nl
  ++ ChatRoute.historyContext chatHistory ++ nl
  ++ nl
  ++ str "Current user question: " ++ interpolate message ++ nl
  ++ nl
  ++ str "Please provide a helpful, clear response based on the available data. If the question requires analysis of specific data that isn't in the sample, mention that the analysis is limited to the sample data shown.".

Definition request (req : ChatRoute.ChatRequest) : GenerateRequest :=
  {| prompt := fullPrompt (ChatRoute.message req) (ChatRoute.csvData req)
                 (ChatRoute.chatHistory req);
     temperature := JNumber false 7 (-1);
     maxOutputTokens := 1000 |}.

(** The body of the [try] block. *)
Definition handle (req : ChatRoute.ChatRequest) : result Response :=
  if ChatRoute.message_missing (ChatRoute.message req)
  then Ok (NextResponse_json (ErrorBody (str "Message is required")) 400)
  else
    let! response := fetch (request req) in
    if negb (ok response) then
      if fetch_status response =? 429 then
        Ok (NextResponse_json
              (ErrorBody (str "AI service quota exceeded. Please try again later.")) 429)
      else if (fetch_status response =? 401) || (fetch_status response =? 403) then
        Ok (NextResponse_json
              (ErrorBody (str "AI service configuration error. Please check API key.")) 500)
      else
        Ok (NextResponse_json
              (ErrorBody (str "Failed to get response from AI service.")) 500)
    else
      let! data := fetch_json response in
      let text := or_else (first_candidate_text data) ChatRoute.no_response in
      Ok (NextResponse_json (ChatBody text) 200).

Definition POST (req : ChatRoute.ChatRequest) : Response :=
  try_catch (handle req) ChatRoute.on_error.

End Route.

(** What the current route does to the body of an answer of the
    earlier one. *)
Definition sanitized (b : Body) : Body :=
  match b with
  | ChatBody text => ChatBody (sanitizeOutput text)
  | other => other
  end.

End EarlierChatRoute.

(* ================================================================== *)
(** * POST /generate-report *)
(* ================================================================== *)

Module ReportRoute.

Open Scope N_scope.

(** An object literal with ASCII keys. *)
Definition obj (props : list (string * value)) : value :=
  JObject (map (fun kv => (str (fst kv), snd kv)) props).

Definition strings (l : list string) : value :=
  JArray (map (fun s => JString (str s)) l).

Definition text_of (s : string) : value := JString (str s).

(** The six top-level sections of a BusinessReport. *)
Definition sections : list string :=
  [ "dataset_summary"; "churn_analysis"; "financial_projections";
    "demand_forecasting"; "scenario_analysis"; "recommendations" ]%string.

(** The fixed sections of the fallback report. *)
Definition fallback_churn_analysis : value :=
  obj [ ("churn_rate", text_of "15%");
        ("churn_loss", text_of "$50,000");
        ("key_segments", strings ["High-value customers"; "Long-term subscribers"]) ]%string.

Definition fallback_financial_projections : value :=
  obj [ ("current_revenue", text_of "$500,000");
        ("projected_revenue",
           obj [ ("3_months", text_of "$525,000");
                 ("6_months", text_of "$550,000");
                 ("12_months", text_of "$600,000") ]);
        ("remaining_profit", text_of "$200,000") ]%string.

Definition fallback_demand_forecasting : value :=
  obj [ ("trend", text_of "increasing");
        ("seasonal_spikes", strings ["Q4"; "Q1"]) ]%string.

Definition fallback_scenario_analysis : value :=
  obj [ ("best_case", text_of "$750,000");
        ("worst_case", text_of "$400,000");
        ("most_likely", text_of "$600,000") ]%string.

Definition fallback_recommendations : value :=
  strings [ "Implement customer retention programs to reduce churn";
            "Focus on high-value customer segments for growth";
            "Optimize pricing strategy for seasonal demand" ]%string.

(** [fallbackReport] (lines 130 to 149 of the route). *)
Definition fallbackReport (csvData : CSVData) : value :=
  obj [ ("dataset_summary",
           obj [ ("rows", JNat (rowCount csvData));
                 ("columns", JNat (N.of_nat (length (schema csvData)))) ]);
        ("churn_analysis", fallback_churn_analysis);
        ("financial_projections", fallback_financial_projections);
        ("demand_forecasting", fallback_demand_forecasting);
        ("scenario_analysis", fallback_scenario_analysis);
        ("recommendations", fallback_recommendations) ]%string.

(** The pattern  \{ [\s\S]* \}  (no flags) that extracts the JSON text. *)
Definition re_json : regex := Seq (Chr 123) (Seq (Star (Cls any_unit)) (Chr 125)).

(** A JSON text between markdown code fences. *)
Definition fenced (sep1 sep2 json : jsstring) : jsstring :=
  str "```json" ++ sep1 ++ json ++ sep2 ++ str "```".

Definition brace_free (s : jsstring) : bool :=
  forallb (fun c => negb (c =? 123) && negb (c =? 125)) s.

(** A section is present when the report is an object with a property
    of that name. *)
Definition has_section (report : value) (key : string) : Prop :=
  exists x, get report key = Some x.


(** A text with an opening brace and, further on, a closing brace. *)
Definition has_braces (s : jsstring) : Prop :=
  exists pre mid post, s = pre ++ 123 :: mid ++ 125 :: post.

(** The continuation of the greedy star of [re_json]: the closing
    brace, then the end of the match. *)
Definition closing_brace (cur : cursor) : option cursor :=
  exec false (Chr 125) cur Some.

(** The code unit [c] does not occur in [s]. *)
Definition no_unit (c : N) (s : jsstring) : Prop := Forall (fun d => d <> c) s.

(** The validation of lines 115 to 122. *)
Definition missing_section (report : value) : bool :=
  falsy_prop report "dataset_summary"
  || falsy_prop report "churn_analysis"
  || falsy_prop report "financial_projections"
  || falsy_prop report "demand_forecasting"
  || falsy_prop report "scenario_analysis"
  || falsy_prop report "recommendations".

(** The answer of line 108. *)
Definition invalid_format : Response :=
  NextResponse_json (ErrorBody (str "Invalid response format from AI service")) 500.

(** The answer of lines 96 and 155. *)
Definition generation_failed : Response :=
  NextResponse_json (ErrorBody (str "Failed to generate business report")) 500.

(** The body of the inner [try] block.  [NextResponse.json({ report })]
    sends the report as JSON text, so the body carries the parsed value
    as serialised. *)
Definition parse_report (json : jsstring) : result Response :=
  let! report := JSON_parse json in
  if missing_section report
  then Throw (ErrorObject (str "Missing required report sections"))
  else Ok (NextResponse_json (ReportBody (serialised report)) 200).

Section Route.

Variable JSON_stringify : value -> jsstring.
Variable fetch : GenerateRequest -> result FetchResponse.

Definition systemInstruction : jsstring :=
  join nl
    [ str "You are an expert data analyst. Analyze the uploaded business dataset and return insights in the following strict JSON format:";
      str "{";
      qstr "  'dataset_summary': { 'rows': number, 'columns': number },";
      qstr "  'churn_analysis': { 'churn_rate': '%', 'churn_loss': 'currency', 'key_segments': ['segment1','segment2'] },";
      qstr "  'financial_projections': { 'current_revenue': 'currency', 'projected_revenue': {'3_months':'currency','6_months':'currency','12_months':'currency'}, 'remaining_profit':'currency' },";
      qstr "  'demand_forecasting': { 'trend': 'increasing/decreasing/stable', 'seasonal_spikes': ['Q1','Q4'] },";
      qstr "  'scenario_analysis': { 'best_case':'currency', 'worst_case':'currency', 'most_likely':'currency' },";
      qstr "  'recommendations': ['action1','action2','action3']";
      str "}";
      str "Do not include any extra text. Return only JSON." ].

Definition render_row (row : value) (index : nat) : jsstring :=
  str "Record " ++ num_nat (index + 1) ++ str ": " ++ JSON_stringify row.

Definition csvContext (csvData : CSVData) : jsstring :=
  nl ++ str "BUSINESS DATASET CONTEXT:" ++ nl
  ++ str "- File: " ++ fileName csvData ++ nl
  ++ str "- Total Records: " ++ num (rowCount csvData) ++ nl
  ++ str "- Data Fields (" ++ num_nat (length (schema csvData)) ++ str "): "
  ++ join (str ", ") (schema csvData) ++ nl
  ++ nl
  ++ str "Sample Business Data (" ++ num_nat (length (sample csvData))
  ++ str " rows analyzed):" ++ nl
  ++ join nl (map_index render_row 0 (sample csvData)) ++ nl
  ++ nl
  ++ str "ANALYSIS SCOPE: This analysis covers " ++ num_nat (length (sample csvData))
  ++ str " sample records from a total dataset of " ++ num (rowCount csvData)
  ++ str " records. Provide specific estimates and insights based on the data patterns observed.".

Definition fullPrompt (csvData : CSVData) : jsstring :=
  systemInstruction ++ nl
  ++ nl
  ++ csvContext csvData ++ nl
  ++ nl
  ++ str "Analyze this business data and provide comprehensive insights in the exact JSON format specified above. Include specific numbers, percentages, and actionable recommendations.".

(** The text in which the JSON object is looked for (lines 100 to 102). *)
Definition rawText (data : GenerateContentResponse) : jsstring :=
  sanitizeOutput (or_else (first_candidate_text data) []).

(** What is posted to the service (temperature 0.3). *)
Definition request (csvData : CSVData) : GenerateRequest :=
  {| prompt := fullPrompt csvData;
     temperature := JNumber false 3 (-1);
     maxOutputTokens := 2000 |}.

(** The inner [try] with its [catch]: the parsed report when it passes
    the validation, the fallback report otherwise.  The fallback report
    holds string literals and the two counts of the descriptor, which
    stand for the numbers the request carried, and is sent as it is. *)
Definition report_or_fallback (csvData : CSVData) (jsonMatch : jsstring) : Response :=
  try_catch (parse_report jsonMatch)
    (fun _ => NextResponse_json (ReportBody (fallbackReport csvData)) 200).

(** The body of the outer [try] block. *)
Definition handle (csvData : option CSVData) : result Response :=
  match csvData with
  | None =>
      Ok (NextResponse_json
            (ErrorBody (str "CSV data is required for report generation")) 400)
  | Some csvData =>
      let! response := fetch (request csvData) in
      if negb (ok response) then
        Ok (NextResponse_json (ErrorBody (str "Failed to generate business report")) 500)
      else
        let! data := fetch_json response in
        match String_match false re_json (rawText data) with
        | None => Ok invalid_format
        | Some jsonMatch => Ok (report_or_fallback csvData jsonMatch)
        end
  end.

Definition POST (csvData : option CSVData) : Response :=
  try_catch (handle csvData)
    (fun _ => NextResponse_json (ErrorBody (str "Failed to generate business report")) 500).

End Route.

End ReportRoute.

(* ================================================================== *)
(** * The chat page *)
(* ================================================================== *)

Module ChatPage.

Open Scope N_scope.

(** The state the handlers of the page act on: the two [useState] cells
    and the browser's [localStorage]. *)
Record PageState : Type := {
  csvData : option CSVData;
  chatHistory : list Message;
  localStorage : gmap string jsstring
}.

(** The greeting; its first two code units are the surrogate pair of the
    waving-hand sign U+1F44B. *)
Definition greeting : jsstring :=
  [55357; 56395]
  ++ str " Hi! I'm your Data Assistant. Upload a CSV file and ask me questions like 'Which product had the highest sales last month?' or 'Compare expenses across regions.' I'll analyze and give you real-time insights.".

(** [handleClearChat]; [now] is what [new Date()] reads. *)
Definition handleClearChat (now : N) (st : PageState) : PageState :=
  let initialMessage :=
    {| type := type_bot; message := greeting; timestamp := now; report := None |} in
  {| csvData := csvData st;
     chatHistory := [initialMessage];
     localStorage := delete "chat-csv-history"%string (localStorage st) |}.

(** A page on which nothing has been stored yet. *)
Definition empty_page : PageState :=
  {| csvData := None; chatHistory := []; localStorage := ∅ |}.

(** The text of the message that [handleFileUpload] appends; the file
    name stands between double quotes (code unit 34). *)
Definition upload_message (data : CSVData) : jsstring :=
  str "Great! I've analyzed your CSV file " ++ [34] ++ fileName data ++ [34]
  ++ str ". It has " ++ num (rowCount data) ++ str " rows and "
  ++ num_nat (length (schema data)) ++ str " columns: "
  ++ join (str ", ") (schema data)
  ++ str ". What would you like to know about your data?".

(** [handleFileUpload]: [setCsvData(data)], then the functional update
    of the history.  The handler writes the two state cells and nothing
    else: it is given the history [prev] and leaves the dataset and the
    history that the page renders next. *)
Definition handleFileUpload (now : N) (data : CSVData) (prev : list Message)
  : option CSVData * list Message :=
  (Some data,
   prev ++ [ {| type := type_bot; message := upload_message data;
                timestamp := now; report := None |} ]).

Section Effects.

(** [JSON.stringify] on the history and on the descriptor of the
    dataset. *)
Variable stringify_history : list Message -> jsstring.
Variable stringify_data : CSVData -> jsstring.

(** The two hooks that save the state (lines 105 to 113 of the page,
    157 to 165 of the page with the dashboard).  React runs a hook
    after a render in which its dependency is another object than in
    the render before; the store is taken to accept the item. *)
Definition save_history (h : list Message) (store : gmap string jsstring)
  : gmap string jsstring :=
  <["chat-csv-history"%string := stringify_history h]> store.

Definition save_data (c : option CSVData) (store : gmap string jsstring)
  : gmap string jsstring :=
  match c with
  | Some d => <["chat-csv-data"%string := stringify_data d]> store
  | None => store
  end.

(** The page once an upload has been handled and rendered.  The
    history is a new array, so its hook runs; the hook of the dataset
    runs when [data] is another object than the one the page held,
    which [is_new] tells. *)
Definition upload (now : N) (is_new : bool) (data : CSVData) (st : PageState)
  : PageState :=
  let '(c, h) := handleFileUpload now data (chatHistory st) in
  {| csvData := c;
     chatHistory := h;
     localStorage :=
       let saved := save_history h (localStorage st) in
       if is_new then save_data c saved else saved |}.

End Effects.

(** The two counters the dashboard page derives from the history. *)
Definition reportsGenerated (h : list Message) : nat :=
  length (filter (fun msg => MessageType_eqb (type msg) type_report) h).

Definition messagesCount (h : list Message) : nat :=
  length (filter (fun msg => MessageType_eqb (type msg) type_user) h).

End ChatPage.

(* ================================================================== *)
(** * The dashboard page and its report button *)
(* ================================================================== *)

Module Dashboard.

Open Scope N_scope.

(** The two tabs of the page. *)
Inductive Tab : Type :=
| tab_dashboard
| tab_chat.

(** The state of the page with the dashboard: the state of the chat
    page, the active tab and the in-flight flag of the report. *)
Record DashboardState : Type := {
  page : ChatPage.PageState;
  activeTab : Tab;
  isGeneratingReport : bool
}.

(** [response.ok] on an answer of one of the routes. *)
Definition response_ok (r : Response) : bool :=
  (200 <=? status r) && (status r <=? 299).

(** [data.report], [data.response] and [data.error] on the body of an
    answer; [None] is [undefined]. *)
Definition report_field (b : Body) : option value :=
  match b with ReportBody r => Some r | _ => None end.

Definition response_field (b : Body) : option jsstring :=
  match b with ChatBody t => Some t | _ => None end.

Definition error_field (b : Body) : option jsstring :=
  match b with ErrorBody e => Some e | _ => None end.

(** The functional update [setChatHistory((prev) => [...prev, msg])]. *)
Definition append_message (msg : Message) (st : ChatPage.PageState) : ChatPage.PageState :=
  {| ChatPage.csvData := ChatPage.csvData st;
     ChatPage.chatHistory := ChatPage.chatHistory st ++ [msg];
     ChatPage.localStorage := ChatPage.localStorage st |}.

(** The two texts; the first code units are the bar-chart sign U+1F4CA
    (a surrogate pair) and the cross mark U+274C. *)
Definition report_generated : jsstring :=
  [55357; 56522] ++ str " Comprehensive Business Report Generated".

Definition report_failed : jsstring :=
  [10060] ++ str " Sorry, I couldn't generate the report. Please try again.".

(** An upload on this page: its [handleFileUpload] is the one of the
    chat page followed by [setActiveTab("chat")], and the page has the
    same two hooks. *)
Definition upload (stringify_history : list Message -> jsstring)
    (stringify_data : CSVData -> jsstring)
    (now : N) (is_new : bool) (data : CSVData) (st : DashboardState)
  : DashboardState :=
  {| page := ChatPage.upload stringify_history stringify_data now is_new data (page st);
     activeTab := tab_chat;
     isGeneratingReport := isGeneratingReport st |}.

Section Handlers.

(** [fetch("/api/generate-report", ...)]: the answer of the route, or a
    rejected promise. *)
Variable api : option CSVData -> result Response.

(** The body of the [try] block up to the state updates: the report
    field of an answer with a success status. *)
Definition request_report (csv : CSVData) : result (option value) :=
  let! response := api (Some csv) in
  if negb (response_ok response)
  then Throw (ErrorObject (str "Failed to generate report"))
  else Ok (report_field (body response)).

(** The state while the request is in flight. *)
Definition start_report (st : DashboardState) : DashboardState :=
  {| page := page st; activeTab := activeTab st; isGeneratingReport := true |}.

(** [handleGenerateReport]; [now] is what [new Date()] reads when the
    message is built. *)
Definition handleGenerateReport (now : N) (st : DashboardState) : DashboardState :=
  match ChatPage.csvData (page st) with
  | None => st
  | Some csv =>
      let st1 := start_report st in
      match request_report csv with
      | Ok report =>
          {| page :=
               append_message
                 {| type := type_report; message := report_generated;
                    timestamp := now; report := report |} (page st1);
             activeTab := tab_chat;
             isGeneratingReport := false |}
      | Throw _ =>
          {| page :=
               append_message
                 {| type := type_bot; message := report_failed;
                    timestamp := now; report := None |} (page st1);
             activeTab := activeTab st1;
             isGeneratingReport := false |}
      end
  end.

End Handlers.

End Dashboard.

(* ================================================================== *)
(** * The chat component *)
(* ================================================================== *)

Module ChatInterface.

Import Dashboard.
Open Scope N_scope.

(** The history (a prop of the component, updated through
    [setChatHistory]) and the four [useState] cells. *)
Record UiState : Type := {
  chatHistory : list Message;
  inputMessage : jsstring;
  isLoading : bool;
  isGeneratingReport : bool;
  error : option jsstring
}.

Definition apology : jsstring :=
  str "Sorry, I encountered an error while processing your request. Please try again.".

Definition report_title : jsstring :=
  str "Comprehensive Business Analysis Report Generated".

Definition report_explanation : jsstring :=
  str "I've generated a comprehensive business analysis report based on your data. The report includes churn analysis, financial projections, demand forecasting, scenario analysis, and strategic recommendations. You can download it as a PDF using the button in the report.".

Definition report_apology : jsstring :=
  str "Sorry, I couldn't generate the business report. Please try again or check if your data contains the necessary business metrics.".

(** [error instanceof Error ? error.message : fallback] *)
Definition error_message (e : exn) (fallback : jsstring) : jsstring :=
  match e with
  | ErrorObject msg => msg
  | NotAnError => fallback
  end.

Section Handlers.

(** The two endpoints, as the component reaches them with [fetch]: the
    answer of the route or a rejected promise.  [type_error] is what the
    engine throws when [sanitizeMessage] is given [undefined]. *)
Variable chat_api : ChatRoute.ChatRequest -> result Response.
Variable report_api : option CSVData -> result Response.
Variable type_error : exn.

Variable csvData : option CSVData.

(** [!inputMessage.trim() || isLoading] *)
Definition send_refused (st : UiState) : bool :=
  negb (truthy_string (trim (inputMessage st))) || isLoading st.

(** The request of [handleSendMessage]: the trimmed input and the
    history of the render in which the handler was created, that is
    the history before the user message is appended. *)
Definition send_request (st : UiState) : ChatRoute.ChatRequest :=
  {| ChatRoute.message := Some (trim (inputMessage st));
     ChatRoute.csvData := csvData;
     ChatRoute.chatHistory := chatHistory st |}.

(** The state updates before the [try] block. *)
Definition start_send (now : N) (st : UiState) : UiState :=
  {| chatHistory :=
       chatHistory st
       ++ [ {| type := type_user; message := trim (inputMessage st);
               timestamp := now; report := None |} ];
     inputMessage := [];
     isLoading := true;
     isGeneratingReport := isGeneratingReport st;
     error := None |}.

(** The body of the [try] block, up to the sanitized text. *)
Definition chat_reply (st : UiState) : result jsstring :=
  let! response := chat_api (send_request st) in
  if negb (response_ok response) then
    Throw (ErrorObject
             (or_else (error_field (body response))
                (str "HTTP " ++ num (status response) ++ str ": Failed to get response")))
  else
    match response_field (body response) with
    | Some text => Ok (sanitizeMessage text)
    | None => Throw type_error
    end.

(** [handleSendMessage]; [sent] and [answered] are what [new Date()]
    reads for the message of the user and for the one of the bot. *)
Definition handleSendMessage (sent answered : N) (st : UiState) : UiState :=
  if send_refused st then st
  else
    let st1 := start_send sent st in
    match chat_reply st with
    | Ok sanitizedResponse =>
        {| chatHistory :=
             chatHistory st1
             ++ [ {| type := type_bot; message := sanitizedResponse;
                     timestamp := answered; report := None |} ];
           inputMessage := inputMessage st1;
           isLoading := false;
           isGeneratingReport := isGeneratingReport st1;
           error := error st1 |}
    | Throw e =>
        {| chatHistory :=
             chatHistory st1
             ++ [ {| type := type_bot; message := apology;
                     timestamp := answered; report := None |} ];
           inputMessage := inputMessage st1;
           isLoading := false;
           isGeneratingReport := isGeneratingReport st1;
           error := Some (error_message e (str "Unknown error occurred")) |}
    end.

(** The body of the [try] block of [handleGenerateReport]. *)
Definition report_reply (csv : CSVData) : result (option value) :=
  let! response := report_api (Some csv) in
  if negb (response_ok response) then
    Throw (ErrorObject
             (or_else (error_field (body response))
                (str "Failed to generate business report")))
  else Ok (report_field (body response)).

(** [handleGenerateReport] of the component: on success the report
    message and a bot message that explains it, on failure one bot
    message. *)
Definition handleGenerateReport (t1 t2 : N) (st : UiState) : UiState :=
  match csvData with
  | None => st
  | Some csv =>
      if isGeneratingReport st then st
      else
        match report_reply csv with
        | Ok report =>
            {| chatHistory :=
                 chatHistory st
                 ++ [ {| type := type_report; message := report_title;
                         timestamp := t1; report := report |} ]
                 ++ [ {| type := type_bot; message := report_explanation;
                         timestamp := t2; report := None |} ];
               inputMessage := inputMessage st;
               isLoading := isLoading st;
               isGeneratingReport := false;
               error := None |}
        | Throw e =>
            {| chatHistory :=
                 chatHistory st
                 ++ [ {| type := type_bot; message := report_apology;
                         timestamp := t1; report := None |} ];
               inputMessage := inputMessage st;
               isLoading := isLoading st;
               isGeneratingReport := false;
               error := Some (error_message e (str "Failed to generate report")) |}
        end
  end.

(** [handleKeyPress]: [Enter] without [Shift] sends. *)
Definition handleKeyPress (key_is_enter shiftKey : bool) (sent answered : N)
    (st : UiState) : UiState :=
  if key_is_enter && negb shiftKey then handleSendMessage sent answered st else st.

End Handlers.

End ChatInterface.

(* ================================================================== *)
(** * Concrete inputs *)
(* ================================================================== *)

Module Examples.

Open Scope N_scope.

(** The dataset of the first end-to-end scenario of the specification:
    three columns, a thousand rows, a sample of five. *)
Definition example_dataset : CSVData :=
  {| schema := [str "date"; str "revenue"; str "customer_id"];
     rowCount := 1000;
     sample := [JNull; JNull; JNull; JNull; JNull];
     fileName := str "sales.csv" |}.

(** A stand-in for [JSON.stringify] on rows. *)
Definition stringify_row (_ : value) : jsstring := str "{}".

Definition user_says (n : N) : Message :=
  {| type := type_user; message := str "question " ++ num n; timestamp := n; report := None |}.

Definition report_entry : Message :=
  {| type := type_report; message := str "report"; timestamp := 100; report := Some JNull |}.


Definition greeting_request : ChatRoute.ChatRequest :=
  {| ChatRoute.message := Some (str "hi");
     ChatRoute.csvData := None;
     ChatRoute.chatHistory := [] |}.

Definition blank_request : ChatRoute.ChatRequest :=
  {| ChatRoute.message := Some (str "  ");
     ChatRoute.csvData := None;
     ChatRoute.chatHistory := [] |}.

(** A complete report, one of whose recommendations reads
    [Raise conversion = revenue]. *)
Definition complete_report_text : jsstring :=
  qstr "{'dataset_summary': {'rows': 1000, 'columns': 3}, 'churn_analysis': {'churn_rate': '5%', 'churn_loss': '$1,000', 'key_segments': ['New customers']}, 'financial_projections': {'current_revenue': '$10,000', 'projected_revenue': {'3_months': '$11,000', '6_months': '$12,000', '12_months': '$14,000'}, 'remaining_profit': '$2,000'}, 'demand_forecasting': {'trend': 'stable', 'seasonal_spikes': ['Q4']}, 'scenario_analysis': {'best_case': '$15,000', 'worst_case': '$9,000', 'most_likely': '$12,000'}, 'recommendations': ['Raise conversion = revenue']}".

(** The same report with a recommendation the denylist does not touch. *)
Definition plain_report_text : jsstring :=
  qstr "{'dataset_summary': {'rows': 1000, 'columns': 3}, 'churn_analysis': {'churn_rate': '5%', 'churn_loss': '$1,000', 'key_segments': ['New customers']}, 'financial_projections': {'current_revenue': '$10,000', 'projected_revenue': {'3_months': '$11,000', '6_months': '$12,000', '12_months': '$14,000'}, 'remaining_profit': '$2,000'}, 'demand_forecasting': {'trend': 'stable', 'seasonal_spikes': ['Q4']}, 'scenario_analysis': {'best_case': '$15,000', 'worst_case': '$9,000', 'most_likely': '$12,000'}, 'recommendations': ['Retain customers']}".

(** A report whose recommendations are [null]. *)
Definition null_recommendations_text : jsstring :=
  qstr "{'dataset_summary': {'rows': 1000, 'columns': 3}, 'churn_analysis': {'churn_rate': '5%'}, 'financial_projections': {'current_revenue': '$10,000'}, 'demand_forecasting': {'trend': 'stable'}, 'scenario_analysis': {'best_case': '$15,000'}, 'recommendations': null}".

(** The plain report between two sentences. *)
Definition report_in_prose : jsstring :=
  str "Here is the report: " ++ plain_report_text ++ str " Let me know what else you need.".

(** A report in which one section is a number too large for a
    double. *)
Definition overflowing_report_text : jsstring :=
  qstr "{'dataset_summary': 1e400, 'churn_analysis': {'churn_rate': '5%'}, 'financial_projections': {'current_revenue': '$10,000'}, 'demand_forecasting': {'trend': 'stable'}, 'scenario_analysis': {'best_case': '$15,000'}, 'recommendations': ['Retain customers']}".

(** Stand-ins for [JSON.stringify] on a history and on a dataset in
    the examples; the theorems hold for every such function. *)
Definition stringify_messages (h : list Message) : jsstring :=
  str "[" ++ join (str ",") (map (fun msg => [34] ++ message msg ++ [34]) h) ++ str "]".

Definition stringify_dataset (data : CSVData) : jsstring :=
  [34] ++ fileName data ++ [34].

(** The dashboard page with the example dataset and one question
    asked. *)
Definition dashboard_with_data : Dashboard.DashboardState :=
  {| Dashboard.page :=
       {| ChatPage.csvData := Some example_dataset;
          ChatPage.chatHistory := [user_says 1];
          ChatPage.localStorage := ∅ |};
     Dashboard.activeTab := Dashboard.tab_dashboard;
     Dashboard.isGeneratingReport := false |}.

(** The chat component with a question typed in, and with nothing but
    white space typed in. *)
Definition ui_with_question : ChatInterface.UiState :=
  {| ChatInterface.chatHistory := [user_says 1];
     ChatInterface.inputMessage := str "  What is the churn rate? ";
     ChatInterface.isLoading := false;
     ChatInterface.isGeneratingReport := false;
     ChatInterface.error := None |}.

Definition ui_with_blank_input : ChatInterface.UiState :=
  {| ChatInterface.chatHistory := [user_says 1];
     ChatInterface.inputMessage := str "   ";
     ChatInterface.isLoading := false;
     ChatInterface.isGeneratingReport := false;
     ChatInterface.error := None |}.

(** A chat endpoint that cannot be reached. *)
Definition unreachable_chat (_ : ChatRoute.ChatRequest) : result Response :=
  Throw (ErrorObject (str "Failed to fetch")).

Definition unreachable_report (_ : option CSVData) : result Response :=
  Throw (ErrorObject (str "Failed to fetch")).

End Examples.
Export Examples.

(* ================================================================== *)
(** * Facts about strings *)
(* ================================================================== *)

Section StringFacts.

Open Scope N_scope.

Lemma startsWith_app (p s : jsstring) : startsWith (p ++ s) p = true.
Proof.
  induction p as [|c p IH]; simpl.
  - reflexivity.
  - rewrite N.eqb_refl. exact IH.
Qed.

Lemma startsWith_inv (p s : jsstring) :
  startsWith s p = true -> exists post, s = p ++ post.
Proof.
  revert s. induction p as [|c p IH]; intros s H.
  - exists s. reflexivity.
  - destruct s as [|d s]; simpl in H; [discriminate|].
    apply andb_true_iff in H. destruct H as [Hc Hp].
    apply N.eqb_eq in Hc. subst d.
    destruct (IH _ Hp) as [post ->]. exists post. reflexivity.
Qed.

Lemma includes_startsWith (s p : jsstring) :
  startsWith s p = true -> includes s p = true.
Proof.
  intros H. destruct s; simpl; rewrite H; reflexivity.
Qed.

Lemma includes_cons (c : N) (s p : jsstring) :
  includes s p = true -> includes (c :: s) p = true.
Proof.
  intros H. simpl. rewrite H. apply orb_true_r.
Qed.

Lemma includes_occurs (s p : jsstring) :
  includes s p = true <-> occurs_in p s.
Proof.
  split.
  - induction s as [|c s IH]; simpl; intros H.
    + rewrite orb_false_r in H. apply startsWith_inv in H.
      destruct H as [post ->]. exists [], post. reflexivity.
    + apply orb_true_iff in H. destruct H as [H|H].
      * apply startsWith_inv in H. destruct H as [post ->].
        exists [], post. reflexivity.
      * destruct (IH H) as (pre & post & ->).
        exists (c :: pre), post. reflexivity.
  - intros (pre & post & ->).
    induction pre as [|c pre IH].
    + apply includes_startsWith. exact (startsWith_app p post).
    + simpl app. apply includes_cons. exact IH.
Qed.

Lemma occurs_in_refl (p : jsstring) : occurs_in p p.
Proof. exists [], []. rewrite app_nil_r. reflexivity. Qed.

Lemma occurs_in_trans (p m s : jsstring) :
  occurs_in p m -> occurs_in m s -> occurs_in p s.
Proof.
  intros (a & b & ->) (c & d & ->).
  exists (c ++ a), (b ++ d). rewrite <- !app_assoc. reflexivity.
Qed.

Lemma occurs_in_app_l (p a b : jsstring) : occurs_in p a -> occurs_in p (a ++ b).
Proof.
  intros (x & y & ->). exists x, (y ++ b). rewrite <- !app_assoc. reflexivity.
Qed.

Lemma occurs_in_app_r (p a b : jsstring) : occurs_in p b -> occurs_in p (a ++ b).
Proof.
  intros (x & y & ->). exists (a ++ x), y. rewrite <- !app_assoc. reflexivity.
Qed.

Lemma occurs_in_join (sep x : jsstring) (l : list jsstring) :
  In x l -> occurs_in x (join sep l).
Proof.
  induction l as [|y l IH]; intros Hin; [destruct Hin|].
  destruct l as [|z l].
  - destruct Hin as [->|[]]. apply occurs_in_refl.
  - change (join sep (y :: z :: l)) with (y ++ sep ++ join sep (z :: l)).
    destruct Hin as [->|Hin].
    + apply occurs_in_app_l, occurs_in_refl.
    + apply occurs_in_app_r, occurs_in_app_r, IH, Hin.
Qed.

Lemma trimStart_nil_iff (s : jsstring) : trimStart s = [] <-> all_space s.
Proof.
  induction s as [|c s IH]; simpl.
  - split; [constructor | reflexivity].
  - destruct (is_space c) eqn:E.
    + rewrite IH. split; intros H.
      * constructor; assumption.
      * inversion H; assumption.
    + split; intros H; [discriminate|].
      inversion H; congruence.
Qed.

Lemma trimStart_no_leading (s : jsstring) : no_leading_space (trimStart s).
Proof.
  induction s as [|c s IH]; simpl; [exact I|].
  destruct (is_space c) eqn:E; [exact IH | exact E].
Qed.

Lemma trimStart_length (s : jsstring) : (length (trimStart s) <= length s)%nat.
Proof.
  induction s as [|c s IH]; simpl; [lia|].
  destruct (is_space c); simpl; lia.
Qed.

Lemma trimStart_snoc (s : jsstring) (c : N) :
  is_space c = false -> trimStart (s ++ [c]) = trimStart s ++ [c].
Proof.
  intros Hc. induction s as [|d s IH]; simpl.
  - rewrite Hc. reflexivity.
  - destruct (is_space d); [exact IH | reflexivity].
Qed.

Lemma trimEnd_no_trailing (s : jsstring) : no_trailing_space (trimEnd s).
Proof.
  unfold no_trailing_space, trimEnd. rewrite rev_involutive.
  apply trimStart_no_leading.
Qed.

Lemma trimEnd_keeps_leading (s : jsstring) :
  no_leading_space s -> no_leading_space (trimEnd s).
Proof.
  destruct s as [|c s]; intros H; [exact I|].
  unfold trimEnd. simpl rev. simpl in H.
  rewrite trimStart_snoc by exact H.
  rewrite rev_app_distr. simpl. exact H.
Qed.

Lemma trimEnd_length (s : jsstring) : (length (trimEnd s) <= length s)%nat.
Proof.
  unfold trimEnd. rewrite length_rev.
  pose proof (trimStart_length (rev s)) as H. rewrite length_rev in H. exact H.
Qed.

Lemma trim_no_leading (s : jsstring) : no_leading_space (trim s).
Proof. apply trimEnd_keeps_leading, trimStart_no_leading. Qed.

Lemma trim_no_trailing (s : jsstring) : no_trailing_space (trim s).
Proof. apply trimEnd_no_trailing. Qed.

Lemma trim_length (s : jsstring) : (length (trim s) <= length s)%nat.
Proof.
  unfold trim. pose proof (trimEnd_length (trimStart s)).
  pose proof (trimStart_length s). lia.
Qed.

Lemma trimEnd_nil_iff (s : jsstring) : trimEnd s = [] <-> all_space s.
Proof.
  unfold trimEnd. split; intros H.
  - apply (f_equal (@rev N)) in H. rewrite rev_involutive in H. simpl in H.
    apply trimStart_nil_iff in H. unfold all_space in *.
    rewrite <- (rev_involutive s). apply Forall_rev. exact H.
  - assert (Hr : trimStart (rev s) = []).
    { apply trimStart_nil_iff. apply Forall_rev. exact H. }
    rewrite Hr. reflexivity.
Qed.

Lemma trimStart_suffix (s : jsstring) : exists pre, s = pre ++ trimStart s /\ all_space pre.
Proof.
  induction s as [|c s IH]; simpl.
  - exists []. split; [reflexivity | constructor].
  - destruct (is_space c) eqn:E.
    + destruct IH as (pre & Hs & Hp). exists (c :: pre). split.
      * simpl. f_equal. exact Hs.
      * constructor; assumption.
    + exists []. split; [reflexivity | constructor].
Qed.

(** [trim] returns the empty string exactly on the strings made of
    white space only. *)
Lemma trim_nil_iff (s : jsstring) : trim s = [] <-> all_space s.
Proof.
  unfold trim. rewrite trimEnd_nil_iff. split; intros H.
  - destruct (trimStart_suffix s) as (pre & Hs & Hp).
    rewrite Hs. apply Forall_app. split; assumption.
  - destruct (trimStart_suffix s) as (pre & Hs & Hp).
    rewrite Hs in H. apply Forall_app in H. apply H.
Qed.

End StringFacts.

(* ================================================================== *)
(** * Facts about the matcher *)
(* ================================================================== *)

Section MatcherFacts.

Variable icase : bool.

(** Whatever way [exec] succeeds, it does so by calling its continuation
    at a cursor that is not further left than where it started, and
    strictly further right when the pattern has to consume. *)
Lemma exec_sound (r : regex) :
  forall cur k res,
    exec icase r cur k = Some res ->
    exists cur',
      k cur' = Some res
      /\ (length (rest cur') <= length (rest cur))%nat
      /\ (consumes r = true -> (length (rest cur') < length (rest cur))%nat)
      /\ (captures r = false -> cap1 cur' = cap1 cur).
Proof.
  induction r as [ | c | p | r1 IH1 r2 IH2 | r IH | r IH | n r IH | r IH | | r IH];
    intros cur k res H; simpl in H.
  - exists cur. repeat split; [exact H | lia | discriminate].
  - destruct (rest cur) as [|d s] eqn:E; [discriminate|].
    destruct (chr_eqb icase c d); [|discriminate].
    exists (advance d s cur). simpl. repeat split; [exact H | lia | lia].
  - destruct (rest cur) as [|d s] eqn:E; [discriminate|].
    destruct (p d); [|discriminate].
    exists (advance d s cur). simpl. repeat split; [exact H | lia | lia].
  - apply IH1 in H. destruct H as (c1 & H & L1 & S1 & C1).
    apply IH2 in H. destruct H as (c2 & H & L2 & S2 & C2).
    exists c2. simpl. repeat split; [exact H | lia | |].
    + intros Hc. apply orb_true_iff in Hc. destruct Hc as [Hc|Hc];
        [specialize (S1 Hc) | specialize (S2 Hc)]; lia.
    + intros Hc. apply orb_false_iff in Hc. destruct Hc as [Ha Hb].
      rewrite (C2 Hb). exact (C1 Ha).
  - revert H. generalize (length (rest cur)) at 1. intros fuel. revert cur.
    induction fuel as [|fuel IHf]; intros cur H.
    + exists cur. repeat split; [exact H | lia | discriminate].
    + simpl in H. destruct (exec icase r cur _) as [res'|] eqn:E.
      * inversion H; subst res'. apply IH in E. destruct E as (c1 & E & L1 & _ & C1).
        destruct (shorter c1 cur); [|discriminate].
        apply IHf in E. destruct E as (c2 & E & L2 & _ & C2).
        exists c2. repeat split; [exact E | lia | discriminate |].
        simpl. intros Hc. rewrite (C2 Hc). exact (C1 Hc).
      * exists cur. repeat split; [exact H | lia | discriminate].
  - revert H. generalize (length (rest cur)) at 1. intros fuel. revert cur.
    induction fuel as [|fuel IHf]; intros cur H.
    + exists cur. repeat split; [exact H | lia | discriminate].
    + simpl in H. destruct (k cur) as [res'|] eqn:E.
      * inversion H; subst res'.
        exists cur. repeat split; [exact E | lia | discriminate].
      * apply IH in H. destruct H as (c1 & H & L1 & _ & C1).
        destruct (shorter c1 cur); [|discriminate].
        apply IHf in H. destruct H as (c2 & H & L2 & _ & C2).
        exists c2. repeat split; [exact H | lia | discriminate |].
        simpl. intros Hc. rewrite (C2 Hc). exact (C1 Hc).
  - revert cur H. induction n as [|n IHn]; intros cur H.
    + exists cur. repeat split; [exact H | lia | discriminate].
    + simpl in H. destruct (exec icase r cur _) as [res'|] eqn:E.
      * inversion H; subst res'. apply IH in E. destruct E as (c1 & E & L1 & _ & C1).
        destruct (shorter c1 cur); [|discriminate].
        apply IHn in E. destruct E as (c2 & E & L2 & _ & C2).
        exists c2. repeat split; [exact E | lia | discriminate |].
        simpl. intros Hc. rewrite (C2 Hc). exact (C1 Hc).
      * exists cur. repeat split; [exact H | lia | discriminate].
  - destruct (exec icase r cur Some); [discriminate|].
    exists cur. repeat split; [exact H | lia | discriminate].
  - destruct (xorb _ _); [|discriminate].
    exists cur. repeat split; [exact H | lia | discriminate].
  - apply IH in H. destruct H as (c1 & H & L1 & S1 & _).
    exists (Cursor (before c1) (rest c1) (Some (consumed cur c1))).
    simpl. repeat split; [exact H | lia | exact S1 | discriminate].
Qed.

(** A consuming pattern replaced by the empty string. *)
Lemma consumes_shrinks (r : regex) :
  consumes r = true -> shrinks icase r ReplEmpty.
Proof.
  intros Hc prev s cur' H. unfold match_here in H.
  apply exec_sound in H. destruct H as (c & H & _ & S & _).
  inversion H; subst c. specialize (S Hc). simpl in *. lia.
Qed.


(** The scan of [replace]: with replacements that shrink, the result is
    never longer than the subject, and it is as long only when the scan
    found no match at all, in which case nothing changed. *)
Lemma replace_loop_length (r : regex) (rp : replacement) :
  shrinks icase r rp ->
  forall fuel prev s,
    (length s < fuel)%nat ->
    (length (replace_loop fuel icase r rp prev s) <= length s)%nat
    /\ (length (replace_loop fuel icase r rp prev s) = length s ->
        replace_loop fuel icase r rp prev s = s
        /\ search icase r prev s = None).
Proof.
  intros Hs. induction fuel as [|fuel IH]; intros prev s Hf; [lia|].
  simpl. destruct (match_here icase r prev s) as [cur'|] eqn:E.
  - pose proof (Hs _ _ _ E) as Hlt.
    assert (Hb : (length (rest cur') <? length s)%nat = true)
      by (apply Nat.ltb_lt; lia).
    rewrite Hb.
    destruct (IH (before cur') (rest cur')) as [Hle _]; [lia|].
    rewrite length_app. split; [lia|]. intros Heq. lia.
  - destruct s as [|c s].
    + split; [simpl; lia|]. intros _. split; [reflexivity|].
      simpl. rewrite E. reflexivity.
    + simpl in Hf. destruct (IH (Some c) s) as [Hle Heq]; [lia|].
      simpl. split; [lia|]. intros Hl.
      destruct Heq as [Hsame Hnone]; [lia|].
      split; [f_equal; exact Hsame|].
      rewrite E. exact Hnone.
Qed.

Lemma replace_all_length (r : regex) (rp : replacement) (s : jsstring) :
  shrinks icase r rp ->
  (length (replace_all icase r rp s) <= length s)%nat.
Proof.
  intros Hs. unfold replace_all.
  apply (replace_loop_length r rp Hs (S (length s)) None s). lia.
Qed.

(** A pass that returns a text of the same length found nothing to
    replace in it, and returned it unchanged. *)
Lemma replace_all_same_length (r : regex) (rp : replacement) (s : jsstring) :
  shrinks icase r rp ->
  length (replace_all icase r rp s) = length s ->
  replace_all icase r rp s = s /\ test icase r s = false.
Proof.
  intros Hs Hl. unfold replace_all in *.
  destruct (replace_loop_length r rp Hs (S (length s)) None s) as [_ H]; [lia|].
  destruct (H Hl) as [Hsame Hnone]. split; [exact Hsame|].
  unfold test. rewrite Hnone. reflexivity.
Qed.

End MatcherFacts.

(* ================================================================== *)
(** * The sanitizers *)
(* ================================================================== *)

Section SanitizerFacts.

Lemma shrinks_script : shrinks true re_script ReplEmpty.
Proof. apply consumes_shrinks. reflexivity. Qed.

Lemma shrinks_iframe : shrinks true re_iframe ReplEmpty.
Proof. apply consumes_shrinks. reflexivity. Qed.

Lemma shrinks_javascript : shrinks true re_javascript ReplEmpty.
Proof. apply consumes_shrinks. reflexivity. Qed.

Lemma shrinks_handler : shrinks true re_handler ReplEmpty.
Proof. apply consumes_shrinks. reflexivity. Qed.




Lemma contracts_replace (icase : bool) (r : regex) (rp : replacement) :
  shrinks icase r rp ->
  contracts (replace_all icase r rp) (fun x => test icase r x = false).
Proof.
  intros Hs x. split.
  - apply replace_all_length, Hs.
  - apply replace_all_same_length, Hs.
Qed.

Lemma contracts_compose (f g : jsstring -> jsstring) (P Q : jsstring -> Prop) :
  contracts f P -> contracts g Q ->
  contracts (fun x => g (f x)) (fun x => P x /\ Q x).
Proof.
  intros Hf Hg x. destruct (Hf x) as [Lf Ef]. destruct (Hg (f x)) as [Lg Eg].
  split; [lia|]. intros Hl.
  destruct Ef as [Fx HP]; [lia|]. rewrite Fx in *.
  destruct Eg as [Gx HQ]; [lia|]. auto.
Qed.

Lemma contracts_fixed_point (f : jsstring -> jsstring) (P : jsstring -> Prop) (s : jsstring) :
  contracts f P -> trim (f s) = s -> P s.
Proof.
  intros Hf H. destruct (Hf s) as [Lf Ef].
  pose proof (trim_length (f s)) as Lt. rewrite H in Lt.
  apply Ef. lia.
Qed.


Lemma contracts_denylist :
  contracts denylist_passes
    (fun x => ((test true re_script x = false /\ test true re_iframe x = false)
               /\ test true re_javascript x = false)
              /\ test true re_handler x = false).
Proof.
  unfold denylist_passes.
  apply (contracts_compose
           (fun x => replace_all true re_javascript ReplEmpty
                       (replace_all true re_iframe ReplEmpty
                          (replace_all true re_script ReplEmpty x)))
           (replace_all true re_handler ReplEmpty)).
  - apply (contracts_compose
             (fun x => replace_all true re_iframe ReplEmpty
                         (replace_all true re_script ReplEmpty x))
             (replace_all true re_javascript ReplEmpty)).
    + apply (contracts_compose
               (replace_all true re_script ReplEmpty)
               (replace_all true re_iframe ReplEmpty)).
      * apply contracts_replace, shrinks_script.
      * apply contracts_replace, shrinks_iframe.
    + apply contracts_replace, shrinks_javascript.
  - apply contracts_replace, shrinks_handler.
Qed.


Lemma sanitizeOutput_eq (s : jsstring) :
  sanitizeOutput s = trim (denylist_passes s).
Proof. reflexivity. Qed.

Lemma sanitizeMessage_eq (s : jsstring) :
  sanitizeMessage s = trim (markdown_passes (denylist_passes s)).
Proof. reflexivity. Qed.


(** A text that [sanitizeOutput] returns unchanged holds none of the
    four patterns. *)
Lemma sanitizeOutput_fixed_point (s : jsstring) :
  sanitizeOutput s = s -> denylist_free s.
Proof.
  rewrite sanitizeOutput_eq. intros H.
  pose proof (contracts_fixed_point denylist_passes _ s contracts_denylist H) as G.
  cbv beta in G. destruct G as [[[G1 G2] G3] G4].
  split; [exact G1|]. split; [exact G2|]. split; [exact G3 | exact G4].
Qed.




End SanitizerFacts.

(* ================================================================== *)
(** * The extraction of the JSON text *)
(* ================================================================== *)

Section ExtractionFacts.

Import ReportRoute.
Open Scope N_scope.

Lemma exec_Chr (icase : bool) (c d : N) (prev : option N) (s : jsstring)
    (cap : option jsstring) (k : cursor -> option cursor) :
  exec icase (Chr c) (Cursor prev (d :: s) cap) k
  = if chr_eqb icase c d then k (Cursor (Some d) s cap) else None.
Proof. reflexivity. Qed.

Lemma closing_brace_cons (d : N) (prev : option N) (s : jsstring) (cap : option jsstring) :
  closing_brace (Cursor prev (d :: s) cap)
  = if 125 =? d then Some (Cursor (Some d) s cap) else None.
Proof. reflexivity. Qed.

Lemma closing_brace_nil (prev : option N) (cap : option jsstring) :
  closing_brace (Cursor prev [] cap) = None.
Proof. reflexivity. Qed.

Lemma exec_Cls (icase : bool) (p : N -> bool) (d : N) (prev : option N) (s : jsstring)
    (cap : option jsstring) (k : cursor -> option cursor) :
  exec icase (Cls p) (Cursor prev (d :: s) cap) k
  = if p d then k (Cursor (Some d) s cap) else None.
Proof. reflexivity. Qed.

Lemma greedy_loop_S (body : cursor -> (cursor -> option cursor) -> option cursor)
    (k : cursor -> option cursor) (fuel : nat) (cur : cursor) :
  greedy_loop body k (S fuel) cur
  = match body cur (fun cur' => if shorter cur' cur
                                then greedy_loop body k fuel cur' else None) with
    | Some res => Some res
    | None => k cur
    end.
Proof. reflexivity. Qed.

Lemma shorter_tail (d : N) (prev prev' : option N) (s : jsstring) (cap cap' : option jsstring) :
  shorter (Cursor prev' s cap') (Cursor prev (d :: s) cap) = true.
Proof. unfold shorter. cbn [rest length]. apply Nat.ltb_lt. lia. Qed.

Lemma any_star_step (k : cursor -> option cursor) (fuel : nat) (d : N)
    (prev : option N) (s : jsstring) (cap : option jsstring) :
  greedy_loop (exec false (Cls any_unit)) k (S fuel) (Cursor prev (d :: s) cap)
  = match greedy_loop (exec false (Cls any_unit)) k fuel (Cursor (Some d) s cap) with
    | Some res => Some res
    | None => k (Cursor prev (d :: s) cap)
    end.
Proof.
  rewrite greedy_loop_S, exec_Cls. cbn [any_unit].
  rewrite shorter_tail. reflexivity.
Qed.

Lemma any_star_nil (k : cursor -> option cursor) (fuel : nat)
    (prev : option N) (cap : option jsstring) :
  greedy_loop (exec false (Cls any_unit)) k fuel (Cursor prev [] cap)
  = k (Cursor prev [] cap).
Proof. destruct fuel; reflexivity. Qed.

Lemma any_star_no_brace (post : jsstring) :
  no_unit 125 post ->
  forall fuel prev cap,
    greedy_loop (exec false (Cls any_unit)) closing_brace fuel (Cursor prev post cap) = None.
Proof.
  intros Hpost fuel. revert post Hpost.
  induction fuel as [|fuel IH]; intros post Hpost prev cap.
  - cbn [greedy_loop]. destruct post as [|d post]; [apply closing_brace_nil|].
    inversion Hpost as [|? ? Hd _]; subst.
    rewrite closing_brace_cons.
    destruct (N.eqb_spec 125 d); [congruence | reflexivity].
  - destruct post as [|d post].
    + rewrite any_star_nil. apply closing_brace_nil.
    + inversion Hpost as [|? ? Hd Hrest]; subst.
      rewrite any_star_step, (IH post Hrest), closing_brace_cons.
      destruct (N.eqb_spec 125 d); [congruence | reflexivity].
Qed.

(** The greedy star runs to the last closing brace. *)
Lemma any_star_last_brace (mid post : jsstring) :
  no_unit 125 post ->
  forall fuel prev cap,
    (length (mid ++ 125%N :: post) <= fuel)%nat ->
    greedy_loop (exec false (Cls any_unit)) closing_brace fuel
      (Cursor prev (mid ++ 125 :: post) cap)
    = Some (Cursor (Some 125) post cap).
Proof.
  intros Hpost. induction mid as [|c mid IH]; intros fuel prev cap Hf.
  - destruct fuel as [|fuel]; [simpl in Hf; lia|].
    cbn [app]. rewrite any_star_step, (any_star_no_brace post Hpost).
    apply closing_brace_cons.
  - destruct fuel as [|fuel]; [simpl in Hf; lia|].
    cbn [app]. rewrite any_star_step.
    rewrite IH by (simpl in Hf; lia). reflexivity.
Qed.

Lemma match_here_json (mid post : jsstring) (prev : option N) :
  no_unit 125 post ->
  match_here false re_json prev (123 :: mid ++ 125 :: post)
  = Some (Cursor (Some 125) post None).
Proof.
  intros Hpost.
  change (match_here false re_json prev (123 :: mid ++ 125 :: post))
    with (greedy_loop (exec false (Cls any_unit)) closing_brace
            (length (mid ++ 125 :: post)) (Cursor (Some 123) (mid ++ 125 :: post) None)).
  apply (any_star_last_brace mid post Hpost). lia.
Qed.

Lemma match_here_json_fails (c : N) (s : jsstring) (prev : option N) :
  c <> 123 -> match_here false re_json prev (c :: s) = None.
Proof.
  intros Hc.
  change (match_here false re_json prev (c :: s))
    with (if 123 =? c
          then exec false (Seq (Star (Cls any_unit)) (Chr 125))
                 (Cursor (Some c) s None) Some
          else None).
  destruct (N.eqb_spec 123 c); [congruence | reflexivity].
Qed.

Lemma search_unfold (icase : bool) (r : regex) (prev : option N) (s : jsstring) :
  search icase r prev s
  = match match_here icase r prev s with
    | Some cur' => Some (firstn (length s - length (rest cur'))%nat s, cur')
    | None =>
        match s with
        | [] => None
        | c :: s' => search icase r (Some c) s'
        end
    end.
Proof. destruct s; reflexivity. Qed.

Lemma firstn_all_but (a b : jsstring) :
  firstn (length (a ++ b) - length b) (a ++ b) = a.
Proof.
  rewrite length_app. replace (length a + length b - length b)%nat with (length a) by lia.
  rewrite firstn_app, firstn_all, Nat.sub_diag. simpl. apply app_nil_r.
Qed.

Lemma search_json (pre mid post : jsstring) :
  no_unit 123 pre -> no_unit 125 post ->
  forall prev,
    search false re_json prev (pre ++ 123 :: mid ++ 125 :: post)
    = Some (123 :: mid ++ [125], Cursor (Some 125) post None).
Proof.
  intros Hpre Hpost. induction pre as [|c pre IH]; intros prev.
  - cbn [app]. rewrite search_unfold, (match_here_json mid post prev Hpost).
    cbn [rest]. f_equal. f_equal.
    replace (123 :: mid ++ 125 :: post) with ((123 :: mid ++ [125]) ++ post)
      by (simpl; rewrite <- app_assoc; reflexivity).
    apply firstn_all_but.
  - inversion Hpre as [|? ? Hc Hrest]; subst.
    cbn [app]. rewrite search_unfold, (match_here_json_fails c _ prev Hc).
    apply IH. exact Hrest.
Qed.

(** [.match] with [re_json] returns the text from the first opening
    brace to the last closing brace. *)
Lemma String_match_json (pre mid post : jsstring) :
  no_unit 123 pre -> no_unit 125 post ->
  String_match false re_json (pre ++ 123 :: mid ++ 125 :: post)
  = Some (123 :: mid ++ [125]).
Proof.
  intros Hpre Hpost. unfold String_match.
  rewrite (search_json pre mid post Hpre Hpost None). reflexivity.
Qed.

(** Without an opening brace there is no match. *)
Lemma String_match_json_none (s : jsstring) :
  no_unit 123 s -> String_match false re_json s = None.
Proof.
  intros Hs. unfold String_match.
  assert (H : forall prev, search false re_json prev s = None).
  { induction s as [|c s IH]; intros prev.
    - reflexivity.
    - inversion Hs as [|? ? Hc Hrest]; subst.
      rewrite search_unfold, (match_here_json_fails c s prev Hc).
      apply IH. exact Hrest. }
  rewrite H. reflexivity.
Qed.

End ExtractionFacts.

(* ================================================================== *)
(** * The JSON parser *)
(* ================================================================== *)

Section ParserFacts.

Open Scope N_scope.

Lemma skip_ws_length (s : jsstring) : (length (skip_ws s) <= length s)%nat.
Proof.
  induction s as [|c s IH]; simpl; [lia|].
  destruct (is_json_ws c); simpl; lia.
Qed.

Lemma strip_prefix_length (p s r : jsstring) :
  strip_prefix p s = Some r -> (length r + length p = length s)%nat.
Proof.
  revert s. induction p as [|c p IH]; intros s H.
  - inversion H. simpl. lia.
  - destruct s as [|d s]; [discriminate|]. simpl in H.
    destruct (c =? d); [|discriminate]. apply IH in H. simpl. lia.
Qed.

Lemma read_digits_length (acc : N) (s : jsstring) :
  forall m n r, read_digits acc s = (m, n, r) -> (length r + n = length s)%nat.
Proof.
  revert acc. induction s as [|c s IH]; intros acc m n r H; simpl in H.
  - inversion H. reflexivity.
  - destruct (is_digit c).
    + destruct (read_digits (acc * 10 + (c - 48)) s) as [[m' n'] r'] eqn:E.
      inversion H; subst. apply IH in E. simpl. lia.
    + inversion H; subst. simpl. lia.
Qed.

Lemma parse_chars_result (s : jsstring) :
  forall acc,
    parse_chars acc s <> POutOfFuel
    /\ forall v r, parse_chars acc s = POk v r -> (length r < length s)%nat.
Proof.
  remember (length s) as n eqn:Hn. revert s Hn.
  induction n as [n IH] using lt_wf_ind. intros s Hn acc.
  destruct s as [|c s]; [split; [discriminate | discriminate]|].
  simpl in Hn. cbn [parse_chars].
  destruct (c =? 34).
  { split; [discriminate|]. intros v r H. inversion H; subst. lia. }
  destruct (c =? 92).
  - destruct s as [|e s]; [split; discriminate|].
    destruct (e =? 117).
    + destruct s as [|h1 [|h2 [|h3 [|h4 s]]]]; try (split; discriminate).
      destruct (hex4 h1 h2 h3 h4); [|split; discriminate].
      assert (Hlt : (length s < n)%nat) by (simpl in Hn; lia).
      destruct (IH _ Hlt s eq_refl (n0 :: acc)) as [A B].
      split; [exact A|]. intros v r H. apply B in H. lia.
    + destruct (simple_escape e); [|split; discriminate].
      assert (Hlt : (length s < n)%nat) by (simpl in Hn; lia).
      destruct (IH _ Hlt s eq_refl (n0 :: acc)) as [A B].
      split; [exact A|]. intros v r H. apply B in H. lia.
  - destruct (c <? 32); [split; discriminate|].
    assert (Hlt : (length s < n)%nat) by (simpl in Hn; lia).
    destruct (IH _ Hlt s eq_refl (c :: acc)) as [A B].
    split; [exact A|]. intros v r H. apply B in H. lia.
Qed.

Lemma parse_int_result (s : jsstring) :
  parse_int s <> POutOfFuel
  /\ forall v r, parse_int s = POk v r -> (length r < length s)%nat.
Proof.
  unfold parse_int. destruct s as [|c s]; [split; discriminate|].
  destruct (c =? 48).
  { split; [discriminate|]. intros v r H. inversion H; subst. simpl. lia. }
  destruct (is_digit c) eqn:Hd; [|split; discriminate].
  destruct (read_digits 0 (c :: s)) as [[m n] r'] eqn:E.
  split; [discriminate|]. intros v r H. inversion H; subst.
  pose proof (read_digits_length _ _ _ _ _ E) as L.
  simpl in E. rewrite Hd in E.
  destruct (read_digits (0 * 10 + (c - 48)) s) as [[m' n'] r''].
  inversion E; subst. lia.
Qed.

Lemma parse_frac_result (mant : N) (s : jsstring) :
  parse_frac mant s <> POutOfFuel
  /\ forall v r, parse_frac mant s = POk v r -> (length r <= length s)%nat.
Proof.
  unfold parse_frac. destruct s as [|c s].
  { split; [discriminate|]. intros v r H. inversion H; subst. lia. }
  destruct (c =? 46).
  - destruct (read_digits mant s) as [[m n] r'] eqn:E.
    pose proof (read_digits_length _ _ _ _ _ E) as L.
    destruct n; [split; discriminate|].
    split; [discriminate|]. intros v r H. inversion H; subst. simpl. lia.
  - split; [discriminate|]. intros v r H. inversion H; subst. lia.
Qed.

Lemma parse_exp_result (s : jsstring) :
  parse_exp s <> POutOfFuel
  /\ forall v r, parse_exp s = POk v r -> (length r <= length s)%nat.
Proof.
  unfold parse_exp. destruct s as [|c s].
  { split; [discriminate|]. intros v r H. inversion H; subst. lia. }
  destruct ((c =? 101) || (c =? 69)).
  - assert (Hs : exists sign s'',
               (match s with
                | d :: t => if d =? 43 then (1%Z, t)
                            else if d =? 45 then ((-1)%Z, t) else (1%Z, s)
                | [] => (1%Z, s)
                end) = (sign, s'') /\ (length s'' <= length s)%nat).
    { destruct s as [|d t]; [eexists _, _; split; [reflexivity | lia]|].
      destruct (d =? 43); [eexists _, _; split; [reflexivity | simpl; lia]|].
      destruct (d =? 45); eexists _, _; (split; [reflexivity | simpl; lia]). }
    destruct Hs as (sign & s'' & -> & Ls).
    destruct (read_digits 0 s'') as [[m n] r'] eqn:E.
    pose proof (read_digits_length _ _ _ _ _ E) as L.
    destruct n; [split; discriminate|].
    split; [discriminate|]. intros v r H. inversion H; subst. simpl. lia.
  - split; [discriminate|]. intros v r H. inversion H; subst. lia.
Qed.

Lemma parse_number_result (s : jsstring) :
  parse_number s <> POutOfFuel
  /\ forall v r, parse_number s = POk v r -> (length r < length s)%nat.
Proof.
  unfold parse_number.
  assert (Hs : exists neg s1,
             (match s with
              | c :: s' => if c =? 45 then (true, s') else (false, s)
              | [] => (false, s)
              end) = (neg, s1) /\ (length s1 <= length s)%nat).
  { destruct s as [|c s']; [eexists _, _; split; [reflexivity | lia]|].
    destruct (c =? 45); eexists _, _; (split; [reflexivity | simpl; lia]). }
  destruct Hs as (neg & s1 & -> & L1).
  destruct (parse_int_result s1) as [A1 B1].
  destruct (parse_int s1) as [i s2| |]; [|split; discriminate|congruence].
  specialize (B1 _ _ eq_refl).
  destruct (parse_frac_result i s2) as [A2 B2].
  destruct (parse_frac i s2) as [[m e1] s3| |]; [|split; discriminate|congruence].
  specialize (B2 _ _ eq_refl).
  destruct (parse_exp_result s3) as [A3 B3].
  destruct (parse_exp s3) as [e2 s4| |]; [|split; discriminate|congruence].
  specialize (B3 _ _ eq_refl).
  split; [discriminate|]. intros v r H. inversion H; subst. lia.
Qed.

Lemma keyword_result (word : string) (v0 : value) (s : jsstring) :
  (0 < length (str word))%nat ->
  keyword word v0 s <> POutOfFuel
  /\ forall v r, keyword word v0 s = POk v r -> (length r < length s)%nat.
Proof.
  intros Hw. unfold keyword. destruct (strip_prefix (str word) s) as [r'|] eqn:E.
  - apply strip_prefix_length in E.
    split; [discriminate|]. intros v r H. inversion H; subst. lia.
  - split; discriminate.
Qed.

Lemma retag_result {A B : Type} (f : A -> B) (p : presult A) (n : nat) :
  p <> POutOfFuel ->
  (forall v r, p = POk v r -> (length r < n)%nat) ->
  retag f p <> POutOfFuel
  /\ forall v r, retag f p = POk v r -> (length r < n)%nat.
Proof.
  intros Hp Hl. destruct p as [a r'| |]; simpl.
  - split; [discriminate|]. intros v r H. inversion H; subst. eapply Hl. reflexivity.
  - split; discriminate.
  - congruence.
Qed.

(** What a result of the parser leaves unread is shorter than what it
    was given, whatever the budget. *)
Lemma parser_consumes (fuel : nat) :
  (forall s v r, parse_value fuel s = POk v r -> (length r < length s)%nat)
  /\ (forall acc s v r, parse_elements fuel acc s = POk v r -> (length r < length s)%nat)
  /\ (forall acc s v r, parse_members fuel acc s = POk v r -> (length r < length s)%nat).
Proof.
  induction fuel as [|fuel (IHv & IHe & IHm)].
  { repeat split; intros; discriminate. }
  split; [|split].
  - intros s v r. cbn [parse_value].
    pose proof (skip_ws_length s) as Ls.
    destruct (skip_ws s) as [|c t]; [discriminate|]. simpl in Ls.
    destruct (c =? 123).
    { pose proof (skip_ws_length t) as Lt.
      destruct (skip_ws t) as [|d t']; [discriminate|]. simpl in Lt.
      destruct (d =? 125).
      - intros H. inversion H; subst. lia.
      - destruct (parse_members fuel [] (d :: t')) as [a r'| |] eqn:E; simpl;
          intros H; inversion H; subst.
        apply IHm in E. simpl in E. lia. }
    destruct (c =? 91).
    { pose proof (skip_ws_length t) as Lt.
      destruct (skip_ws t) as [|d t']; [discriminate|]. simpl in Lt.
      destruct (d =? 93).
      - intros H. inversion H; subst. lia.
      - destruct (parse_elements fuel [] (d :: t')) as [a r'| |] eqn:E; simpl;
          intros H; inversion H; subst.
        apply IHe in E. simpl in E. lia. }
    destruct (c =? 34).
    { destruct (parse_chars_result t []) as [_ B].
      destruct (parse_chars [] t) as [a r'| |]; simpl; intros H; inversion H; subst.
      specialize (B _ _ eq_refl). lia. }
    destruct (c =? 110).
    { intros H. apply (keyword_result "null" JNull (c :: t)) in H; [simpl in H; lia|].
      simpl. lia. }
    destruct (c =? 116).
    { intros H. apply (keyword_result "true" (JBool true) (c :: t)) in H; [simpl in H; lia|].
      simpl. lia. }
    destruct (c =? 102).
    { intros H. apply (keyword_result "false" (JBool false) (c :: t)) in H;
        [simpl in H; lia|]. simpl. lia. }
    intros H. apply (parse_number_result (c :: t)) in H. simpl in H. lia.
  - intros acc s v r. cbn [parse_elements].
    destruct (parse_value fuel s) as [v' r'| |] eqn:E; try discriminate.
    apply IHv in E.
    pose proof (skip_ws_length r') as Lr.
    destruct (skip_ws r') as [|c t]; [discriminate|]. simpl in Lr.
    destruct (c =? 44).
    { intros H. apply IHe in H. lia. }
    destruct (c =? 93); [|discriminate].
    intros H. inversion H; subst. lia.
  - intros acc s v r. cbn [parse_members].
    pose proof (skip_ws_length s) as Ls.
    destruct (skip_ws s) as [|q s1]; [discriminate|]. simpl in Ls.
    destruct (q =? 34); [|discriminate].
    destruct (parse_chars_result s1 []) as [_ B].
    destruct (parse_chars [] s1) as [key s2| |]; try discriminate.
    specialize (B _ _ eq_refl).
    pose proof (skip_ws_length s2) as L2.
    destruct (skip_ws s2) as [|c s3]; [discriminate|]. simpl in L2.
    destruct (c =? 58); [|discriminate].
    destruct (parse_value fuel s3) as [v' r'| |] eqn:E; try discriminate.
    apply IHv in E.
    pose proof (skip_ws_length r') as Lr.
    destruct (skip_ws r') as [|d t]; [discriminate|]. simpl in Lr.
    destruct (d =? 44).
    { intros H. apply IHm in H. lia. }
    destruct (d =? 125); [|discriminate].
    intros H. inversion H; subst. lia.
Qed.

(** With two units of budget per code unit the parser never runs out. *)
Lemma parser_fuel (fuel : nat) :
  (forall s, (2 * length s + 1 <= fuel)%nat -> parse_value fuel s <> POutOfFuel)
  /\ (forall acc s, (2 * length s + 2 <= fuel)%nat ->
        parse_elements fuel acc s <> POutOfFuel)
  /\ (forall acc s, (2 * length s + 2 <= fuel)%nat ->
        parse_members fuel acc s <> POutOfFuel).
Proof.
  induction fuel as [|fuel (IHv & IHe & IHm)].
  { repeat split; intros; lia. }
  destruct (parser_consumes fuel) as (Cv & Ce & Cm).
  split; [|split].
  - intros s Hf. cbn [parse_value].
    pose proof (skip_ws_length s) as Ls.
    destruct (skip_ws s) as [|c t]; [discriminate|]. simpl in Ls.
    destruct (c =? 123).
    { pose proof (skip_ws_length t) as Lt.
      destruct (skip_ws t) as [|d t']; [discriminate|]. simpl in Lt.
      destruct (d =? 125); [discriminate|].
      assert (Hm : parse_members fuel [] (d :: t') <> POutOfFuel)
        by (apply IHm; simpl; lia).
      destruct (parse_members fuel [] (d :: t')); simpl; congruence. }
    destruct (c =? 91).
    { pose proof (skip_ws_length t) as Lt.
      destruct (skip_ws t) as [|d t']; [discriminate|]. simpl in Lt.
      destruct (d =? 93); [discriminate|].
      assert (Hm : parse_elements fuel [] (d :: t') <> POutOfFuel)
        by (apply IHe; simpl; lia).
      destruct (parse_elements fuel [] (d :: t')); simpl; congruence. }
    destruct (c =? 34).
    { destruct (parse_chars_result t []) as [A _].
      destruct (parse_chars [] t); simpl; congruence. }
    destruct (c =? 110).
    { apply keyword_result. simpl. lia. }
    destruct (c =? 116).
    { apply keyword_result. simpl. lia. }
    destruct (c =? 102).
    { apply keyword_result. simpl. lia. }
    apply parse_number_result.
  - intros acc s Hf. cbn [parse_elements].
    assert (Hv : parse_value fuel s <> POutOfFuel) by (apply IHv; lia).
    destruct (parse_value fuel s) as [v' r'| |] eqn:E; [|discriminate|congruence].
    apply Cv in E.
    pose proof (skip_ws_length r') as Lr.
    destruct (skip_ws r') as [|c t]; [discriminate|]. simpl in Lr.
    destruct (c =? 44); [apply IHe; lia|].
    destruct (c =? 93); discriminate.
  - intros acc s Hf. cbn [parse_members].
    pose proof (skip_ws_length s) as Ls.
    destruct (skip_ws s) as [|q s1]; [discriminate|]. simpl in Ls.
    destruct (q =? 34); [|discriminate].
    destruct (parse_chars_result s1 []) as [A B].
    destruct (parse_chars [] s1) as [key s2| |]; [|discriminate|congruence].
    specialize (B _ _ eq_refl).
    pose proof (skip_ws_length s2) as L2.
    destruct (skip_ws s2) as [|c s3]; [discriminate|]. simpl in L2.
    destruct (c =? 58); [|discriminate].
    assert (Hv : parse_value fuel s3 <> POutOfFuel) by (apply IHv; lia).
    destruct (parse_value fuel s3) as [v' r'| |] eqn:E; [|discriminate|congruence].
    apply Cv in E.
    pose proof (skip_ws_length r') as Lr.
    destruct (skip_ws r') as [|d t]; [discriminate|]. simpl in Lr.
    destruct (d =? 44); [apply IHm; lia|].
    destruct (d =? 125); discriminate.
Qed.

(** The budget [JSON_parse] gives the parser is never exhausted: a
    [SyntaxError] is always a verdict on the text. *)
Lemma parse_value_fuel (text : jsstring) :
  parse_value (parse_fuel text) text <> POutOfFuel.
Proof.
  apply (proj1 (parser_fuel (parse_fuel text))). unfold parse_fuel. lia.
Qed.

End ParserFacts.


(* ================================================================== *)
(** * POST /chat: validation, sentinel, context *)
(* ================================================================== *)

Section ChatFacts.

Import ChatRoute.
Open Scope N_scope.

Variable JSON_stringify : value -> jsstring.
Variable fetch : GenerateRequest -> result FetchResponse.

Lemma message_missing_iff (m : option jsstring) :
  message_missing m = true <-> blank m.
Proof.
  destruct m as [m|]; simpl; [|tauto].
  rewrite <- trim_nil_iff.
  destruct (trim m); simpl; split; intros H; congruence.
Qed.

Lemma POST_blank (req : ChatRequest) :
  message_missing (message req) = true ->
  POST JSON_stringify fetch req
  = NextResponse_json (ErrorBody (str "Message is required")) 400.
Proof.
  intros H. unfold POST, handle. rewrite H. reflexivity.
Qed.

Lemma POST_not_blank (req : ChatRequest) :
  message_missing (message req) = false ->
  status (POST JSON_stringify fetch req) <> 400.
Proof.
  intros H. unfold POST, handle. rewrite H.
  destruct (fetch _) as [response|e]; cbn [bind try_catch].
  - destruct (ok response); cbn [negb].
    + destruct (fetch_json response) as [data|e]; cbn [bind try_catch].
      * cbn [status NextResponse_json]. discriminate.
      * destruct e as [msg|]; cbn [on_error]; [destruct (includes msg _)|];
          cbn [status NextResponse_json]; discriminate.
    + destruct (fetch_status response =? 429); [|destruct (_ || _)];
        cbn [try_catch status NextResponse_json]; discriminate.
  - destruct e as [msg|]; cbn [on_error]; [destruct (includes msg _)|];
      cbn [status NextResponse_json]; discriminate.
Qed.

(** The sanitizer leaves the sentinel as it is. *)
Lemma sanitizeOutput_no_response : sanitizeOutput no_response = no_response.
Proof. vm_compute. reflexivity. Qed.

Lemma POST_success (req : ChatRequest) (response : FetchResponse)
    (data : GenerateContentResponse) :
  message_missing (message req) = false ->
  fetch (request JSON_stringify req) = Ok response ->
  ok response = true ->
  fetch_json response = Ok data ->
  POST JSON_stringify fetch req
  = NextResponse_json
      (ChatBody (sanitizeOutput (or_else (first_candidate_text data) no_response))) 200.
Proof.
  intros Hm Hf Hok Hj. unfold POST, handle.
  rewrite Hm, Hf. cbn [bind]. rewrite Hok. cbn [negb]. rewrite Hj. reflexivity.
Qed.

End ChatFacts.

(** C7.  POST /chat answers with status 400 exactly when the message of
    the request is blank, that is missing, empty or made of white space
    only; the body then carries the error field.  A message with a
    character that is not white space never takes the 400 branch. *)
Theorem chat_400_iff_blank
    (JSON_stringify : value -> jsstring)
    (fetch : GenerateRequest -> result FetchResponse)
    (req : ChatRoute.ChatRequest) :
  (status (ChatRoute.POST JSON_stringify fetch req) = 400%N
   <-> ChatRoute.blank (ChatRoute.message req))
  /\ (ChatRoute.blank (ChatRoute.message req) ->
      body (ChatRoute.POST JSON_stringify fetch req)
      = ErrorBody (str "Message is required")).
Proof.
  destruct (ChatRoute.message_missing (ChatRoute.message req)) eqn:E.
  - pose proof (proj1 (message_missing_iff _) E) as Hb.
    rewrite (POST_blank JSON_stringify fetch req E).
    split; [split; [intros _; exact Hb | reflexivity] | reflexivity].
  - assert (Hn : ~ ChatRoute.blank (ChatRoute.message req)).
    { intros Hb. apply message_missing_iff in Hb. congruence. }
    pose proof (POST_not_blank JSON_stringify fetch req E) as Hs.
    split; [split|]; intros H; contradiction.
Qed.

Lemma chat_400_iff_blank_witness :
  status (ChatRoute.POST stringify_row answering_nothing blank_request) = 400%N.
Proof.
  apply (proj1 (chat_400_iff_blank _ _ _)).
  repeat constructor.
Defined.

(** C8, amended.  When the call to the service succeeds and its response
    carries no text for the first candidate (or an empty one), the chat
    route answers 200 with the sentinel text
    [Sorry, I couldn't generate a response.] *)
Theorem chat_sentinel_when_no_text
    (JSON_stringify : value -> jsstring)
    (fetch : GenerateRequest -> result FetchResponse)
    (req : ChatRoute.ChatRequest) (response : FetchResponse)
    (data : GenerateContentResponse) :
  ChatRoute.message_missing (ChatRoute.message req) = false ->
  fetch (ChatRoute.request JSON_stringify req) = Ok response ->
  ok response = true ->
  fetch_json response = Ok data ->
  first_candidate_text data = None \/ first_candidate_text data = Some [] ->
  ChatRoute.POST JSON_stringify fetch req
  = NextResponse_json (ChatBody (str "Sorry, I couldn't generate a response.")) 200.
Proof.
  intros Hm Hf Hok Hj Ht.
  rewrite (POST_success JSON_stringify fetch req response data Hm Hf Hok Hj).
  assert (E : or_else (first_candidate_text data) ChatRoute.no_response
              = ChatRoute.no_response)
    by (destruct Ht as [-> | ->]; reflexivity).
  rewrite E, sanitizeOutput_no_response. reflexivity.
Qed.

Lemma chat_sentinel_when_no_text_witness :
  ChatRoute.POST stringify_row answering_nothing greeting_request
  = NextResponse_json (ChatBody (str "Sorry, I couldn't generate a response.")) 200.
Proof.
  apply (chat_sentinel_when_no_text stringify_row answering_nothing greeting_request
           (response_with no_candidates) no_candidates);
    try reflexivity.
  left. reflexivity.
Defined.

(** C8 as stated fails: the text returned in that case is not the
    literal [could not generate a response], and does not contain it. *)
Lemma chat_sentinel_differs_from_claimed_literal :
  let resp := ChatRoute.POST stringify_row answering_nothing greeting_request in
  exists text,
    body resp = ChatBody text
    /\ text <> str "could not generate a response"
    /\ includes text (str "could not generate a response") = false.
Proof.
  exists (str "Sorry, I couldn't generate a response.").
  split; [vm_compute; reflexivity|].
  split; [discriminate | vm_compute; reflexivity].
Qed.

(* ================================================================== *)
(** * The context block *)
(* ================================================================== *)

Section ContextFacts.

Import ChatRoute.

Variable JSON_stringify : value -> jsstring.

Lemma occurs_in_at (p pre post s : jsstring) :
  s = pre ++ p ++ post -> includes s p = true.
Proof.
  intros ->. apply includes_occurs. exists pre, post. reflexivity.
Qed.

Lemma context_has_file (c : CSVData) :
  includes (csvContext JSON_stringify (Some c)) (str "- File: " ++ fileName c) = true.
Proof.
  unfold csvContext.
  eapply (occurs_in_at _ (nl ++ str "BUSINESS DATASET CONTEXT:" ++ nl)).
  rewrite <- !app_assoc. reflexivity.
Qed.

Lemma context_has_total (c : CSVData) :
  includes (csvContext JSON_stringify (Some c))
    (str "- Total Records: " ++ num (rowCount c)) = true.
Proof.
  unfold csvContext.
  eapply (occurs_in_at _ (nl ++ str "BUSINESS DATASET CONTEXT:" ++ nl
                          ++ str "- File: " ++ fileName c ++ nl)).
  rewrite <- !app_assoc. reflexivity.
Qed.

Lemma context_has_fields (c : CSVData) :
  includes (csvContext JSON_stringify (Some c))
    (str "- Data Fields (" ++ num_nat (length (schema c)) ++ str "): "
     ++ join (str ", ") (schema c)) = true.
Proof.
  unfold csvContext.
  eapply (occurs_in_at _ (nl ++ str "BUSINESS DATASET CONTEXT:" ++ nl
                          ++ str "- File: " ++ fileName c ++ nl
                          ++ str "- Total Records: " ++ num (rowCount c) ++ nl)).
  rewrite <- !app_assoc. reflexivity.
Qed.

Lemma context_has_scope (c : CSVData) :
  includes (csvContext JSON_stringify (Some c))
    (str "ANALYSIS SCOPE: This analysis covers " ++ num_nat (length (sample c))
     ++ str " sample records from a total dataset of " ++ num (rowCount c)
     ++ str " records.") = true.
Proof.
  unfold csvContext.
  eapply (occurs_in_at _
            (nl ++ str "BUSINESS DATASET CONTEXT:" ++ nl
             ++ str "- File: " ++ fileName c ++ nl
             ++ str "- Total Records: " ++ num (rowCount c) ++ nl
             ++ str "- Data Fields (" ++ num_nat (length (schema c)) ++ str "): "
             ++ join (str ", ") (schema c) ++ nl
             ++ nl
             ++ str "Sample Business Data (" ++ num_nat (length (sample c))
             ++ str " rows analyzed):" ++ nl
             ++ join nl (map_index (render_row JSON_stringify) 0 (sample c)) ++ nl
             ++ nl)
            (str " Insights are extrapolated to represent the full dataset where applicable.")).
  rewrite <- !app_assoc. reflexivity.
Qed.

Lemma context_has_columns (c : CSVData) :
  Forall (fun col => includes (csvContext JSON_stringify (Some c)) col = true) (schema c).
Proof.
  apply Forall_forall. intros col Hin.
  apply includes_occurs.
  apply (occurs_in_trans _ (str "- Data Fields (" ++ num_nat (length (schema c)) ++ str "): "
                            ++ join (str ", ") (schema c))).
  - apply occurs_in_app_r, occurs_in_app_r, occurs_in_app_r, occurs_in_join, Hin.
  - apply includes_occurs, context_has_fields.
Qed.

Lemma prompt_has_context (m : option jsstring) (c : option CSVData) (h : list Message) :
  includes (fullPrompt JSON_stringify m c h) (csvContext JSON_stringify c) = true.
Proof.
  unfold fullPrompt.
  eapply (occurs_in_at _ (systemInstruction ++ nl ++ nl)).
  rewrite <- !app_assoc. reflexivity.
Qed.

End ContextFacts.

(** C6.  For a dataset whose row count exceeds the size of its sample,
    the context block, which is part of the prompt, states that the
    analysis covers the sample records out of the total, and it holds
    the file name, the total row count, the number of columns and the
    name of every column. *)
Theorem context_block_discloses_sampling
    (JSON_stringify : value -> jsstring) (c : CSVData)
    (m : option jsstring) (h : list Message) :
  (N.of_nat (length (sample c)) < rowCount c)%N ->
  let ctx := ChatRoute.csvContext JSON_stringify (Some c) in
  includes (ChatRoute.fullPrompt JSON_stringify m (Some c) h) ctx = true
  /\ includes ctx
       (str "ANALYSIS SCOPE: This analysis covers " ++ num_nat (length (sample c))
        ++ str " sample records from a total dataset of " ++ num (rowCount c)
        ++ str " records.") = true
  /\ includes ctx (str "- File: " ++ fileName c) = true
  /\ includes ctx (str "- Total Records: " ++ num (rowCount c)) = true
  /\ includes ctx
       (str "- Data Fields (" ++ num_nat (length (schema c)) ++ str "): "
        ++ join (str ", ") (schema c)) = true
  /\ Forall (fun col => includes ctx col = true) (schema c).
Proof.
  intros _ ctx. subst ctx.
  split; [apply prompt_has_context|].
  split; [apply context_has_scope|].
  split; [apply context_has_file|].
  split; [apply context_has_total|].
  split; [apply context_has_fields | apply context_has_columns].
Qed.

Lemma context_block_discloses_sampling_witness :
  includes (ChatRoute.csvContext stringify_row (Some example_dataset))
    (str "- Total Records: 1000") = true.
Proof.
  apply (context_block_discloses_sampling stringify_row example_dataset None []).
  vm_compute. reflexivity.
Defined.

(* ================================================================== *)
(** * The history window *)
(* ================================================================== *)

Section HistoryFacts.

Import ChatRoute.

Lemma filter_partition_length {A : Type} (f : A -> bool) (l : list A) :
  (length (filter f l) + length (filter (fun x => negb (f x)) l) = length l)%nat.
Proof.
  induction l as [|x l IH]; simpl; [reflexivity|].
  destruct (f x); simpl; lia.
Qed.



Lemma slice_last_split {A : Type} (n : nat) (l : list A) :
  l = firstn (length l - n) l ++ slice_last n l.
Proof. unfold slice_last. symmetry. apply firstn_skipn. Qed.

Lemma filter_length_le {A : Type} (f : A -> bool) (l : list A) :
  (length (filter f l) <= length l)%nat.
Proof.
  pose proof (filter_partition_length f l). lia.
Qed.


Variable JSON_stringify : value -> jsstring.


End HistoryFacts.




(* ================================================================== *)
(** * Clearing the chat *)
(* ================================================================== *)

(** C9, amended.  Whatever the state before, clearing the chat leaves a
    conversation of length one whose only entry is the bot greeting,
    stamped with the time of the clear.  Clearing again gives the state
    that a single clear at that later time gives: the same type and
    text, and a conversation equal to the previous one when the clock
    reads the same. *)
Theorem clear_chat_resets_conversation (t1 t2 : N) (st : ChatPage.PageState) :
  let once := ChatPage.handleClearChat t1 st in
  let twice := ChatPage.handleClearChat t2 once in
  ChatPage.chatHistory once
  = [ {| type := type_bot; message := ChatPage.greeting;
         timestamp := t1; report := None |} ]
  /\ length (ChatPage.chatHistory once) = 1%nat
  /\ twice = ChatPage.handleClearChat t2 st
  /\ map (fun msg => (type msg, message msg)) (ChatPage.chatHistory twice)
     = map (fun msg => (type msg, message msg)) (ChatPage.chatHistory once)
  /\ ChatPage.handleClearChat t1 once = once.
Proof.
  intros once twice. subst once twice. unfold ChatPage.handleClearChat.
  cbn [ChatPage.chatHistory ChatPage.csvData ChatPage.localStorage].
  rewrite delete_delete_eq.
  repeat split; reflexivity.
Qed.

(** C9 as stated fails: a second clear at a later time leaves a
    conversation that differs from the first in its timestamp. *)
Lemma clear_chat_twice_differs :
  ChatPage.chatHistory
    (ChatPage.handleClearChat 1 (ChatPage.handleClearChat 0 ChatPage.empty_page))
  <> ChatPage.chatHistory (ChatPage.handleClearChat 0 ChatPage.empty_page).
Proof.
  cbn [ChatPage.handleClearChat ChatPage.chatHistory]. intros E.
  inversion E.
Qed.

(* ================================================================== *)
(** * Texts with and without braces *)
(* ================================================================== *)

Section BraceFacts.

Import ReportRoute.
Open Scope N_scope.

Lemma split_last_unit (c : N) (s : jsstring) :
  In c s -> exists pre post, s = pre ++ c :: post /\ no_unit c post.
Proof.
  induction s as [|x s IH]; intros Hin; [destruct Hin|].
  destruct (in_dec N.eq_dec c s) as [Hs|Hs].
  - destruct (IH Hs) as (pre & post & -> & Hpost).
    exists (x :: pre), post. split; [reflexivity | exact Hpost].
  - destruct Hin as [->|Hin]; [|contradiction].
    exists [], s. split; [reflexivity|].
    apply Forall_forall. intros d Hd ->. contradiction.
Qed.

Lemma first_opening_brace (a rest : jsstring) :
  In 125 rest ->
  exists pre r, a ++ 123 :: rest = pre ++ 123 :: r /\ no_unit 123 pre /\ In 125 r.
Proof.
  intros Hin. induction a as [|c a IH].
  - exists [], rest. repeat split; [constructor | exact Hin].
  - destruct (N.eq_dec c 123) as [->|Hc].
    + exists [], (a ++ 123 :: rest). repeat split; [constructor|].
      apply in_or_app. right. right. exact Hin.
    + destruct IH as (pre & r & E & Hpre & Hr).
      exists (c :: pre), r. simpl. rewrite E.
      repeat split; [constructor; assumption | exact Hr].
Qed.

(** A text with braces has a first opening and a last closing brace. *)
Lemma has_braces_outermost (s : jsstring) :
  has_braces s ->
  exists pre mid post,
    s = pre ++ 123 :: mid ++ 125 :: post /\ no_unit 123 pre /\ no_unit 125 post.
Proof.
  intros (a & m & b & ->).
  destruct (first_opening_brace a (m ++ 125 :: b)) as (pre & r & E & Hpre & Hr).
  { apply in_or_app. right. left. reflexivity. }
  destruct (split_last_unit 125 r Hr) as (mid & post & -> & Hpost).
  exists pre, mid, post. auto.
Qed.

Lemma String_match_braces (s : jsstring) :
  has_braces s -> exists json, String_match false re_json s = Some json.
Proof.
  intros H. destruct (has_braces_outermost s H) as (pre & mid & post & -> & Hpre & Hpost).
  eexists. apply String_match_json; assumption.
Qed.

Lemma search_no_braces (s : jsstring) :
  ~ has_braces s -> forall prev, search false re_json prev s = None.
Proof.
  induction s as [|c s IH]; intros Hn prev; [reflexivity|].
  assert (Hs : ~ has_braces s).
  { intros (a & m & b & ->). apply Hn. exists (c :: a), m, b. reflexivity. }
  rewrite search_unfold.
  destruct (N.eq_dec c 123) as [->|Hc].
  - assert (Hno : no_unit 125 s).
    { apply Forall_forall. intros d Hd ->.
      destruct (split_last_unit 125 s Hd) as (mid & post & -> & _).
      apply Hn. exists [], mid, post. reflexivity. }
    change (match_here false re_json prev (123 :: s))
      with (greedy_loop (exec false (Cls any_unit)) closing_brace
              (length s) (Cursor (Some 123) s None)).
    rewrite (any_star_no_brace s Hno). apply IH, Hs.
  - rewrite (match_here_json_fails c s prev Hc). apply IH, Hs.
Qed.

(** [.match] with [re_json] finds nothing exactly in the texts without
    braces. *)
Lemma String_match_none_iff (s : jsstring) :
  String_match false re_json s = None <-> ~ has_braces s.
Proof.
  split.
  - intros Hnone Hb. destruct (String_match_braces s Hb) as [json E]. congruence.
  - intros Hn. unfold String_match. rewrite (search_no_braces s Hn None). reflexivity.
Qed.

End BraceFacts.

(* ================================================================== *)
(** * POST /generate-report *)
(* ================================================================== *)

Section ReportFacts.

Import ReportRoute.
Open Scope N_scope.

Variable JSON_stringify : value -> jsstring.
Variable fetch : GenerateRequest -> result FetchResponse.

(** The route once the service has answered with a success status and a
    JSON body. *)
Lemma POST_answered (csv : CSVData) (response : FetchResponse)
    (data : GenerateContentResponse) :
  fetch (request JSON_stringify csv) = Ok response ->
  ok response = true ->
  fetch_json response = Ok data ->
  POST JSON_stringify fetch (Some csv)
  = match String_match false re_json (rawText data) with
    | None => invalid_format
    | Some jsonMatch => report_or_fallback csv jsonMatch
    end.
Proof.
  intros Hf Hok Hj. unfold POST, handle.
  rewrite Hf. cbn [bind]. rewrite Hok. cbn [negb]. rewrite Hj. cbn [bind].
  destruct (String_match false re_json (rawText data)); reflexivity.
Qed.

(** Serialisation keeps the properties of an object, each with its
    value serialised. *)
Lemma lookup_last_serialised (key : jsstring) (props : list (jsstring * value)) :
  lookup_last key (map (fun '(k, x) => (k, serialised x)) props)
  = option_map serialised (lookup_last key props).
Proof.
  induction props as [|[k x] props IH]; [reflexivity|].
  cbn [map lookup_last]. rewrite IH.
  destruct (lookup_last key props); cbn [option_map]; [reflexivity|].
  destruct (jsstring_eqb k key); reflexivity.
Qed.

Lemma get_serialised (v : value) (key : string) :
  get (serialised v) key = option_map serialised (get v key).
Proof.
  destruct v as [| b | neg mant e | t | items | props]; try reflexivity.
  - cbn [serialised]. destruct (rounds_to_infinity mant e); [reflexivity|].
    destruct (neg && rounds_to_zero mant e); reflexivity.
  - cbn [serialised get]. apply lookup_last_serialised.
Qed.

Lemma has_section_serialised (report : value) (key : string) :
  has_section report key -> has_section (serialised report) key.
Proof.
  intros [x Hx]. exists (serialised x). rewrite get_serialised, Hx. reflexivity.
Qed.

Lemma sections_serialised (report : value) :
  Forall (has_section report) sections -> Forall (has_section (serialised report)) sections.
Proof.
  intros H. eapply Forall_impl; [|exact H]. intros key. apply has_section_serialised.
Qed.

(** A value whose numbers are finite and not the negative zero is its
    own serialisation. *)
Lemma serialised_survives : forall v : value, survives v = true -> serialised v = v.
Proof.
  fix IH 1. intros [| b | neg mant e | t | items | props]; try reflexivity.
  - cbn [survives serialised]. intros H. apply andb_true_iff in H. destruct H as [H1 H2].
    apply negb_true_iff in H1, H2. rewrite H1, H2. reflexivity.
  - cbn [survives serialised]. intros H. f_equal.
    induction items as [|x items IHitems]; [reflexivity|].
    cbn [forallb] in H. apply andb_true_iff in H. destruct H as [Hx Hitems].
    cbn [map]. rewrite (IH x Hx), (IHitems Hitems). reflexivity.
  - cbn [survives serialised]. intros H. f_equal.
    induction props as [|[k x] props IHprops]; [reflexivity|].
    cbn [forallb] in H. apply andb_true_iff in H. destruct H as [Hx Hprops].
    cbn [map]. rewrite (IH x Hx), (IHprops Hprops). reflexivity.
Qed.


Lemma parse_report_cases (json : jsstring) :
  (exists report,
      JSON_parse json = Ok report /\ missing_section report = false
      /\ parse_report json
         = Ok (NextResponse_json (ReportBody (serialised report)) 200))
  \/ (exists e,
         parse_report json = Throw e
         /\ forall report, JSON_parse json = Ok report -> missing_section report = true).
Proof.
  unfold parse_report. destruct (JSON_parse json) as [report|e]; cbn [bind].
  - destruct (missing_section report) eqn:E.
    + right. eexists. split; [reflexivity|]. intros r Hr. congruence.
    + left. exists report. auto.
  - right. exists e. split; [reflexivity|]. intros r Hr. discriminate.
Qed.

Lemma falsy_prop_false (report : value) (key : string) :
  falsy_prop report key = false ->
  exists x, get report key = Some x /\ truthy x = true.
Proof.
  unfold falsy_prop. destruct (get report key) as [x|]; [|discriminate].
  intros H. exists x. split; [reflexivity|]. destruct (truthy x); [reflexivity | discriminate].
Qed.

(** A report that passes the validation has the six sections. *)
Lemma validated_sections (report : value) :
  missing_section report = false -> Forall (has_section report) sections.
Proof.
  unfold missing_section. intros H.
  repeat (apply orb_false_iff in H; destruct H as [H ?]).
  unfold sections.
  repeat (constructor;
          [match goal with
           | F : falsy_prop report ?k = false |- has_section report ?k =>
               destruct (falsy_prop_false report k F) as (x & Hx & _); exists x; exact Hx
           end|]).
  constructor.
Qed.




Lemma fallback_passes (csv : CSVData) : missing_section (fallbackReport csv) = false.
Proof. reflexivity. Qed.

Lemma fallback_sections (csv : CSVData) : Forall (has_section (fallbackReport csv)) sections.
Proof. apply validated_sections, fallback_passes. Qed.


(** Every way the route has to answer with a report. *)
Lemma POST_report_body (csvData : option CSVData) (rep : value) :
  body (POST JSON_stringify fetch csvData) = ReportBody rep ->
  exists csv,
    csvData = Some csv
    /\ POST JSON_stringify fetch csvData = NextResponse_json (ReportBody rep) 200
    /\ (rep = fallbackReport csv
        \/ exists response data json parsed,
             fetch (request JSON_stringify csv) = Ok response
             /\ fetch_json response = Ok data
             /\ String_match false re_json (rawText data) = Some json
             /\ JSON_parse json = Ok parsed
             /\ missing_section parsed = false
             /\ rep = serialised parsed).
Proof.
  destruct csvData as [csv|]; [|discriminate].
  intros H. exists csv. split; [reflexivity|]. revert H.
  unfold POST, handle.
  destruct (fetch (request JSON_stringify csv)) as [response|e] eqn:Hf;
    cbn [bind try_catch]; [|discriminate].
  destruct (ok response) eqn:Hok; cbn [negb try_catch]; [|discriminate].
  destruct (fetch_json response) as [data|e] eqn:Hj; cbn [bind try_catch]; [|discriminate].
  destruct (String_match false re_json (rawText data)) as [json|] eqn:Hm;
    cbn [try_catch]; [|discriminate].
  unfold report_or_fallback.
  destruct (parse_report_cases json) as [(report & Hp & Hv & E) | (e & E & _)];
    rewrite E; cbn [try_catch body NextResponse_json]; intros H; inversion H; subst.
  - split; [reflexivity|]. right. exists response, data, json, report.
    repeat split; assumption || reflexivity.
  - split; [reflexivity|]. left. reflexivity.
Qed.

End ReportFacts.

(** C1, amended.  For a request with csvData whose call to the service
    succeeded: when the sanitized text of the model holds a
    brace-delimited substring that does not parse as JSON, or that
    parses to a value lacking one of the six sections, the route answers
    200 with the fallback report, which has all six sections; when the
    sanitized text holds no opening brace followed by a closing brace,
    the route answers 500 with the error
    [Invalid response format from AI service]. *)
Theorem report_on_malformed_text
    (JSON_stringify : value -> jsstring)
    (fetch : GenerateRequest -> result FetchResponse)
    (csv : CSVData) (response : FetchResponse) (data : GenerateContentResponse) :
  fetch (ReportRoute.request JSON_stringify csv) = Ok response ->
  ok response = true ->
  fetch_json response = Ok data ->
  (~ ReportRoute.has_braces (ReportRoute.rawText data) ->
   ReportRoute.POST JSON_stringify fetch (Some csv) = ReportRoute.invalid_format)
  /\ (ReportRoute.has_braces (ReportRoute.rawText data) ->
      exists json,
        String_match false ReportRoute.re_json (ReportRoute.rawText data) = Some json
        /\ ((forall report,
               JSON_parse json = Ok report -> ReportRoute.missing_section report = true) ->
            ReportRoute.POST JSON_stringify fetch (Some csv)
            = NextResponse_json (ReportBody (ReportRoute.fallbackReport csv)) 200
            /\ Forall (ReportRoute.has_section (ReportRoute.fallbackReport csv))
                 ReportRoute.sections)).
Proof.
  intros Hf Hok Hj.
  rewrite (POST_answered JSON_stringify fetch csv response data Hf Hok Hj).
  split.
  - intros Hn. apply String_match_none_iff in Hn. rewrite Hn. reflexivity.
  - intros Hb. destruct (String_match_braces _ Hb) as [json Hm].
    exists json. split; [exact Hm|]. intros Hbad. rewrite Hm.
    split; [|apply fallback_sections].
    unfold ReportRoute.report_or_fallback.
    destruct (parse_report_cases json) as [(report & Hp & Hv & _) | (e & E & _)].
    + rewrite (Hbad report Hp) in Hv. discriminate.
    + rewrite E. reflexivity.
Qed.

Lemma report_on_malformed_text_witness :
  ReportRoute.POST stringify_row (answering (str "no report")) (Some example_dataset)
  = ReportRoute.invalid_format.
Proof.
  refine (proj1 (report_on_malformed_text stringify_row (answering (str "no report"))
                   example_dataset (response_with (data_with (str "no report")))
                   (data_with (str "no report")) _ _ _) _).
  - reflexivity.
  - reflexivity.
  - reflexivity.
  - apply String_match_none_iff. vm_compute. reflexivity.
Defined.

(** C1 as stated fails: a text without any brace gets status 500. *)
Lemma report_without_braces_is_500 :
  ~ ReportRoute.has_braces (str "I am unable to produce a report for this data.")
  /\ status (ReportRoute.POST stringify_row
               (answering (str "I am unable to produce a report for this data."))
               (Some example_dataset)) = 500%N.
Proof.
  split; [|vm_compute; reflexivity].
  apply String_match_none_iff. vm_compute. reflexivity.
Qed.



(** A section that is a number too large for a double passes the
    validation and is sent as [null]; its key stays. *)
Lemma overflowing_section_is_sent_as_null :
  exists parsed rep,
    JSON_parse overflowing_report_text = Ok parsed
    /\ get parsed "dataset_summary" = Some (JNumber false 1 400)
    /\ ReportRoute.missing_section parsed = false
    /\ ReportRoute.POST stringify_row (answering overflowing_report_text)
         (Some example_dataset)
       = NextResponse_json (ReportBody rep) 200
    /\ get rep "dataset_summary" = Some JNull.
Proof.
  do 2 eexists. repeat split; vm_compute; reflexivity.
Qed.

(** C10.  When POST /generate-report takes the fallback path, the
    fallback report it returns has a dataset summary made of the row
    count and of the number of columns of the request's dataset, and
    its five other sections are constants. *)
Theorem fallback_mirrors_dataset
    (JSON_stringify : value -> jsstring)
    (fetch : GenerateRequest -> result FetchResponse)
    (csv : CSVData) (response : FetchResponse) (data : GenerateContentResponse)
    (json : jsstring) (e : exn) :
  fetch (ReportRoute.request JSON_stringify csv) = Ok response ->
  ok response = true ->
  fetch_json response = Ok data ->
  String_match false ReportRoute.re_json (ReportRoute.rawText data) = Some json ->
  ReportRoute.parse_report json = Throw e ->
  ReportRoute.POST JSON_stringify fetch (Some csv)
  = NextResponse_json (ReportBody (ReportRoute.fallbackReport csv)) 200
  /\ get (ReportRoute.fallbackReport csv) "dataset_summary"
     = Some (ReportRoute.obj
               [ ("rows", JNat (rowCount csv));
                 ("columns", JNat (N.of_nat (length (schema csv)))) ]%string)
  /\ get (ReportRoute.fallbackReport csv) "churn_analysis"
     = Some ReportRoute.fallback_churn_analysis
  /\ get (ReportRoute.fallbackReport csv) "financial_projections"
     = Some ReportRoute.fallback_financial_projections
  /\ get (ReportRoute.fallbackReport csv) "demand_forecasting"
     = Some ReportRoute.fallback_demand_forecasting
  /\ get (ReportRoute.fallbackReport csv) "scenario_analysis"
     = Some ReportRoute.fallback_scenario_analysis
  /\ get (ReportRoute.fallbackReport csv) "recommendations"
     = Some ReportRoute.fallback_recommendations.
Proof.
  intros Hf Hok Hj Hm He.
  rewrite (POST_answered JSON_stringify fetch csv response data Hf Hok Hj), Hm.
  unfold ReportRoute.report_or_fallback. rewrite He.
  repeat split.
Qed.

Lemma fallback_mirrors_dataset_witness :
  ReportRoute.POST stringify_row (answering (str "{oops}")) (Some example_dataset)
  = NextResponse_json (ReportBody (ReportRoute.fallbackReport example_dataset)) 200.
Proof.
  refine (proj1 (fallback_mirrors_dataset stringify_row (answering (str "{oops}"))
                   example_dataset (response_with (data_with (str "{oops}")))
                   (data_with (str "{oops}")) (str "{oops}") syntax_error
                   _ _ _ _ _));
    vm_compute; reflexivity.
Defined.

Section FencedFacts.

Import ReportRoute.
Open Scope N_scope.

Lemma space_is_no_brace (sep : jsstring) (c : N) :
  (c = 123 \/ c = 125) -> all_space sep -> no_unit c sep.
Proof.
  intros Hc Hs. unfold no_unit. apply Forall_forall. intros d Hd ->.
  unfold all_space in Hs. rewrite Forall_forall in Hs. specialize (Hs c Hd).
  destruct Hc as [-> | ->]; vm_compute in Hs; discriminate.
Qed.

Lemma fenced_shape (sep1 sep2 mid : jsstring) :
  fenced sep1 sep2 (123 :: mid ++ [125])
  = (str "```json" ++ sep1) ++ 123 :: mid ++ 125 :: (sep2 ++ str "```").
Proof.
  unfold fenced. rewrite <- !app_assoc. f_equal. f_equal.
  cbn [app]. rewrite <- app_assoc. reflexivity.
Qed.

(** What [.match] extracts from a fenced object. *)
Lemma String_match_fenced (sep1 sep2 mid : jsstring) :
  all_space sep1 -> all_space sep2 ->
  String_match false re_json (fenced sep1 sep2 (123 :: mid ++ [125]))
  = Some (123 :: mid ++ [125]).
Proof.
  intros H1 H2. rewrite fenced_shape. apply String_match_json.
  - apply Forall_app. split.
    + repeat constructor; discriminate.
    + apply space_is_no_brace; [left; reflexivity | exact H1].
  - apply Forall_app. split.
    + apply space_is_no_brace; [right; reflexivity | exact H2].
    + repeat constructor; discriminate.
Qed.

End FencedFacts.

(** C5, amended.  When the text of the model is a complete report
    object between markdown code fences, and the denylist sanitizer
    leaves that text unchanged, POST /generate-report answers 200 with
    the value the object parses to as [NextResponse.json] serialises
    it, not the fallback: exactly the parsed value when each of its
    numbers is a finite double other than the negative zero. *)
Theorem fenced_report_is_returned
    (JSON_stringify : value -> jsstring)
    (fetch : GenerateRequest -> result FetchResponse)
    (csv : CSVData) (response : FetchResponse) (data : GenerateContentResponse)
    (sep1 sep2 mid : jsstring) (parsed : value) :
  let json := (123%N :: mid ++ [125%N]) in
  let answer := ReportRoute.fenced sep1 sep2 json in
  all_space sep1 -> all_space sep2 ->
  fetch (ReportRoute.request JSON_stringify csv) = Ok response ->
  ok response = true ->
  fetch_json response = Ok data ->
  first_candidate_text data = Some answer ->
  sanitizeOutput answer = answer ->
  JSON_parse json = Ok parsed ->
  ReportRoute.missing_section parsed = false ->
  ReportRoute.POST JSON_stringify fetch (Some csv)
  = NextResponse_json (ReportBody (serialised parsed)) 200
  /\ (survives parsed = true ->
      ReportRoute.POST JSON_stringify fetch (Some csv)
      = NextResponse_json (ReportBody parsed) 200).
Proof.
  intros json answer H1 H2 Hf Hok Hj Ht Hs Hp Hv.
  assert (E : ReportRoute.POST JSON_stringify fetch (Some csv)
              = NextResponse_json (ReportBody (serialised parsed)) 200).
  { rewrite (POST_answered JSON_stringify fetch csv response data Hf Hok Hj).
    unfold ReportRoute.rawText. rewrite Ht.
    replace (or_else (Some answer) []) with answer by reflexivity.
    rewrite Hs. subst answer json.
    rewrite (String_match_fenced sep1 sep2 mid H1 H2).
    unfold ReportRoute.report_or_fallback, ReportRoute.parse_report.
    rewrite Hp. cbn [bind]. rewrite Hv. reflexivity. }
  split; [exact E|].
  intros Hsv. rewrite E, (serialised_survives parsed Hsv). reflexivity.
Qed.

Lemma fenced_report_is_returned_witness :
  exists parsed,
    JSON_parse plain_report_text = Ok parsed
    /\ ReportRoute.POST stringify_row
         (answering (ReportRoute.fenced nl nl plain_report_text)) (Some example_dataset)
       = NextResponse_json (ReportBody parsed) 200.
Proof.
  destruct (JSON_parse plain_report_text) as [parsed|e] eqn:Hp;
    [|vm_compute in Hp; discriminate].
  exists parsed. split; [reflexivity|].
  refine (proj2 (fenced_report_is_returned stringify_row
            (answering (ReportRoute.fenced nl nl plain_report_text)) example_dataset
            (response_with (data_with (ReportRoute.fenced nl nl plain_report_text)))
            (data_with (ReportRoute.fenced nl nl plain_report_text))
            nl nl (removelast (tl plain_report_text)) parsed _ _ _ _ _ _ _ _ _) _).
  - repeat constructor.
  - repeat constructor.
  - reflexivity.
  - reflexivity.
  - reflexivity.
  - vm_compute. reflexivity.
  - vm_compute. reflexivity.
  - rewrite <- Hp. vm_compute. reflexivity.
  - vm_compute in Hp. inversion Hp. vm_compute. reflexivity.
  - vm_compute in Hp. inversion Hp. vm_compute. reflexivity.
Defined.

(** C5 as stated fails: a complete report between code fences, one of
    whose recommendations reads [Raise conversion = revenue], is not
    returned as it parses; the denylist takes [onversion =] out of the
    text before it is parsed. *)
Lemma fenced_report_is_altered :
  exists parsed,
    JSON_parse complete_report_text = Ok parsed
    /\ ReportRoute.missing_section parsed = false
    /\ get parsed "recommendations"
       = Some (JArray [JString (str "Raise conversion = revenue")])
    /\ exists returned,
         ReportRoute.POST stringify_row
           (answering (ReportRoute.fenced nl nl complete_report_text))
           (Some example_dataset)
         = NextResponse_json (ReportBody returned) 200
         /\ get returned "recommendations"
            = Some (JArray [JString (str "Raise c revenue")])
         /\ returned <> parsed.
Proof.
  eexists. split; [vm_compute; reflexivity|].
  split; [vm_compute; reflexivity|].
  split; [vm_compute; reflexivity|].
  eexists. split; [vm_compute; reflexivity|].
  split; [vm_compute; reflexivity|].
  intros E. apply (f_equal (fun v => get v "recommendations")) in E.
  vm_compute in E. discriminate.
Qed.

(* ================================================================== *)
(** * What the sanitizers guarantee *)
(* ================================================================== *)




(* ================================================================== *)
(** * Further properties of POST /chat *)
(* ================================================================== *)

Section ChatAnswers.

Import ChatRoute.
Open Scope N_scope.

Variable JSON_stringify : value -> jsstring.
Variable fetch : GenerateRequest -> result FetchResponse.

Lemma on_error_answer (e : exn) :
  exists msg,
    on_error e = NextResponse_json (ErrorBody msg) 500 /\ msg <> [].
Proof.
  destruct e as [m|]; cbn [on_error]; [destruct (includes m _)|];
    eexists; (split; [reflexivity | discriminate]).
Qed.

Lemma POST_upstream_not_ok (req : ChatRequest) (response : FetchResponse) :
  message_missing (message req) = false ->
  fetch (request JSON_stringify req) = Ok response ->
  ok response = false ->
  POST JSON_stringify fetch req
  = if fetch_status response =? 429 then
      NextResponse_json
        (ErrorBody (str "AI service quota exceeded. Please try again later.")) 429
    else if (fetch_status response =? 401) || (fetch_status response =? 403) then
      NextResponse_json
        (ErrorBody (str "AI service configuration error. Please check API key.")) 500
    else
      NextResponse_json (ErrorBody (str "Failed to get response from AI service.")) 500.
Proof.
  intros Hm Hf Hok. unfold POST, handle.
  rewrite Hm, Hf. cbn [bind]. rewrite Hok. cbn [negb].
  destruct (fetch_status response =? 429); [reflexivity|].
  destruct (_ || _); reflexivity.
Qed.

Lemma POST_thrown (req : ChatRequest) (e : exn) :
  message_missing (message req) = false ->
  fetch (request JSON_stringify req) = Throw e
  \/ (exists response,
        fetch (request JSON_stringify req) = Ok response
        /\ ok response = true /\ fetch_json response = Throw e) ->
  POST JSON_stringify fetch req = on_error e.
Proof.
  intros Hm [Hf | (response & Hf & Hok & Hj)]; unfold POST, handle; rewrite Hm, Hf.
  - reflexivity.
  - cbn [bind]. rewrite Hok. cbn [negb]. rewrite Hj. reflexivity.
Qed.

End ChatAnswers.

(** X1.  Every answer of POST /chat is either a 200 whose body carries
    a response text without leading or trailing white space, or an
    error body with a non-empty message and one of the statuses 400,
    429 and 500. *)
Theorem chat_answer_shape
    (JSON_stringify : value -> jsstring)
    (fetch : GenerateRequest -> result FetchResponse)
    (req : ChatRoute.ChatRequest) :
  let resp := ChatRoute.POST JSON_stringify fetch req in
  (exists text,
      resp = NextResponse_json (ChatBody text) 200
      /\ no_leading_space text /\ no_trailing_space text)
  \/ (exists msg,
         body resp = ErrorBody msg /\ msg <> []
         /\ (status resp = 400 \/ status resp = 429 \/ status resp = 500)%N).
Proof.
  intros resp. subst resp.
  destruct (ChatRoute.message_missing (ChatRoute.message req)) eqn:Hm.
  { right. rewrite (POST_blank JSON_stringify fetch req Hm).
    eexists. split; [reflexivity|]. split; [discriminate | left; reflexivity]. }
  destruct (fetch (ChatRoute.request JSON_stringify req)) as [response|e] eqn:Hf.
  - destruct (ok response) eqn:Hok.
    + destruct (fetch_json response) as [data|e] eqn:Hj.
      * left. rewrite (POST_success JSON_stringify fetch req response data Hm Hf Hok Hj).
        eexists. split; [reflexivity|]. rewrite sanitizeOutput_eq.
        split; [apply trim_no_leading | apply trim_no_trailing].
      * right. rewrite (POST_thrown JSON_stringify fetch req e Hm)
          by (right; exists response; auto).
        destruct (on_error_answer e) as (msg & -> & Hne).
        exists msg. split; [reflexivity|]. split; [exact Hne | right; right; reflexivity].
    + right. rewrite (POST_upstream_not_ok JSON_stringify fetch req response Hm Hf Hok).
      destruct (fetch_status response =? 429)%N;
        [|destruct ((fetch_status response =? 401) || (fetch_status response =? 403))%N];
        (eexists; split; [reflexivity|]; split; [discriminate|]);
        [right; left | right; right | right; right]; reflexivity.
  - right. rewrite (POST_thrown JSON_stringify fetch req e Hm) by (left; exact Hf).
    destruct (on_error_answer e) as (msg & -> & Hne).
    exists msg. split; [reflexivity|]. split; [exact Hne | right; right; reflexivity].
Qed.

(** X2.  When the service answers a request with a valid message with a
    status outside 200 to 299, POST /chat relays 429 as a 429 with the
    quota message, turns 401 and 403 into a 500 that points at the API
    key, and answers 500 with a generic message for every other
    status. *)
Theorem chat_upstream_status_mapping
    (JSON_stringify : value -> jsstring)
    (fetch : GenerateRequest -> result FetchResponse)
    (req : ChatRoute.ChatRequest) (response : FetchResponse) :
  ChatRoute.message_missing (ChatRoute.message req) = false ->
  fetch (ChatRoute.request JSON_stringify req) = Ok response ->
  ok response = false ->
  let resp := ChatRoute.POST JSON_stringify fetch req in
  (fetch_status response = 429%N ->
   resp = NextResponse_json
            (ErrorBody (str "AI service quota exceeded. Please try again later.")) 429
   /\ includes (str "AI service quota exceeded. Please try again later.") (str "quota") = true)
  /\ (fetch_status response = 401%N \/ fetch_status response = 403%N ->
      resp = NextResponse_json
               (ErrorBody (str "AI service configuration error. Please check API key.")) 500)
  /\ (fetch_status response <> 429%N -> fetch_status response <> 401%N ->
      fetch_status response <> 403%N ->
      resp = NextResponse_json
               (ErrorBody (str "Failed to get response from AI service.")) 500).
Proof.
  intros Hm Hf Hok resp. subst resp.
  rewrite (POST_upstream_not_ok JSON_stringify fetch req response Hm Hf Hok).
  split; [|split].
  - intros ->. split; [reflexivity | vm_compute; reflexivity].
  - intros [-> | ->]; reflexivity.
  - intros H1 H2 H3.
    apply N.eqb_neq in H1, H2, H3. rewrite H1, H2, H3. reflexivity.
Qed.

(** X3.  When [fetch] rejects, or when the body of a successful answer
    cannot be read as JSON, POST /chat answers 500; the message is the
    network message exactly when what was thrown is an [Error] whose
    message contains [fetch]. *)
Theorem chat_thrown_error
    (JSON_stringify : value -> jsstring)
    (fetch : GenerateRequest -> result FetchResponse)
    (req : ChatRoute.ChatRequest) (e : exn) :
  ChatRoute.message_missing (ChatRoute.message req) = false ->
  fetch (ChatRoute.request JSON_stringify req) = Throw e
  \/ (exists response,
        fetch (ChatRoute.request JSON_stringify req) = Ok response
        /\ ok response = true /\ fetch_json response = Throw e) ->
  let resp := ChatRoute.POST JSON_stringify fetch req in
  status resp = 500%N
  /\ (body resp
      = ErrorBody (str "Network error. Please check your connection and try again.")
      <-> exists msg, e = ErrorObject msg /\ includes msg (str "fetch") = true)
  /\ (body resp
      = ErrorBody (str "Failed to process your request. Please try again.")
      <-> ~ exists msg, e = ErrorObject msg /\ includes msg (str "fetch") = true).
Proof.
  intros Hm He resp. subst resp.
  rewrite (POST_thrown JSON_stringify fetch req e Hm He).
  destruct e as [m|]; cbn [ChatRoute.on_error].
  - destruct (includes m (str "fetch")) eqn:E; cbn [status body NextResponse_json].
    + split; [reflexivity|]. split; split.
      * intros _. exists m. auto.
      * reflexivity.
      * discriminate.
      * intros H. exfalso. apply H. exists m. auto.
    + split; [reflexivity|]. split; split.
      * discriminate.
      * intros (m' & Hm' & Hi). inversion Hm'; subst. congruence.
      * intros _ (m' & Hm' & Hi). inversion Hm'; subst. congruence.
      * reflexivity.
  - cbn [status body NextResponse_json]. split; [reflexivity|]. split; split.
    + discriminate.
    + intros (m' & Hm' & _). discriminate.
    + intros _ (m' & Hm' & _). discriminate.
    + reflexivity.
Qed.

Lemma chat_upstream_status_mapping_witness :
  ChatRoute.POST stringify_row (failing_with 429) greeting_request
  = NextResponse_json
      (ErrorBody (str "AI service quota exceeded. Please try again later.")) 429.
Proof.
  refine (proj1 (proj1 (chat_upstream_status_mapping stringify_row (failing_with 429)
                          greeting_request
                          {| fetch_status := 429; fetch_json := Throw NotAnError |}
                          _ _ _) _));
    reflexivity.
Defined.

Lemma chat_thrown_error_witness :
  status (ChatRoute.POST stringify_row
            (rejecting (ErrorObject (str "fetch failed"))) greeting_request) = 500%N.
Proof.
  refine (proj1 (chat_thrown_error stringify_row
                   (rejecting (ErrorObject (str "fetch failed"))) greeting_request
                   (ErrorObject (str "fetch failed")) _ _)).
  - reflexivity.
  - left. reflexivity.
Defined.

(* ================================================================== *)
(** * Further properties of the prompt *)
(* ================================================================== *)

Section PromptFacts.

Import ChatRoute.

Variable JSON_stringify : value -> jsstring.

Lemma slice_last_short {A : Type} (n : nat) (l : list A) :
  (length l <= n)%nat -> slice_last n l = l.
Proof.
  intros H. unfold slice_last.
  replace (length l - n)%nat with 0%nat by lia. reflexivity.
Qed.

Lemma slice_last_bound {A : Type} (n : nat) (l : list A) :
  (length (slice_last n l) <= n)%nat.
Proof. unfold slice_last. rewrite length_skipn. lia. Qed.

Lemma map_index_nth {A B : Type} (f : A -> nat -> B) (l : list A) :
  forall start k x,
    nth_error l k = Some x ->
    nth_error (map_index f start l) k = Some (f x (start + k)%nat).
Proof.
  induction l as [|y l IH]; intros start k x H; [destruct k; discriminate|].
  destruct k as [|k]; simpl in *.
  - inversion H; subst. rewrite Nat.add_0_r. reflexivity.
  - rewrite (IH (S start) k x H). f_equal. f_equal. lia.
Qed.

Lemma context_has_rows (c : CSVData) :
  includes (csvContext JSON_stringify (Some c))
    (join nl (map_index (render_row JSON_stringify) 0 (sample c))) = true.
Proof.
  unfold csvContext.
  eapply (occurs_in_at _
            (nl ++ str "BUSINESS DATASET CONTEXT:" ++ nl
             ++ str "- File: " ++ fileName c ++ nl
             ++ str "- Total Records: " ++ num (rowCount c) ++ nl
             ++ str "- Data Fields (" ++ num_nat (length (schema c)) ++ str "): "
             ++ join (str ", ") (schema c) ++ nl
             ++ nl
             ++ str "Sample Business Data (" ++ num_nat (length (sample c))
             ++ str " rows analyzed):" ++ nl)).
  rewrite <- !app_assoc. reflexivity.
Qed.

Lemma prompt_has_question (m : option jsstring) (c : option CSVData) (h : list Message) :
  includes (fullPrompt JSON_stringify m c h)
    (str "Current user question: " ++ interpolate m) = true.
Proof.
  unfold fullPrompt.
  eapply (occurs_in_at _
            (systemInstruction ++ nl ++ nl ++ csvContext JSON_stringify c ++ nl
             ++ historyContext h ++ nl ++ nl)).
  rewrite <- !app_assoc. reflexivity.
Qed.

Lemma prompt_starts_with_instruction (m : option jsstring) (c : option CSVData)
    (h : list Message) :
  startsWith (fullPrompt JSON_stringify m c h) systemInstruction = true.
Proof. unfold fullPrompt. apply startsWith_app. Qed.

End PromptFacts.

(** X4.  Whatever the history, the chat route keeps at most ten of its
    entries for the prompt, all of them user or bot entries, and they
    are the last of the eligible entries, in their order; a history of
    at most ten entries contributes all its eligible entries. *)
Theorem chat_history_selection (h : list Message) :
  (length (ChatRoute.recentHistory h) <= 10)%nat
  /\ Forall (fun msg => type msg = type_user \/ type msg = type_bot)
       (ChatRoute.recentHistory h)
  /\ (exists older,
         filter ChatRoute.eligible h = older ++ ChatRoute.recentHistory h)
  /\ ((length h <= 10)%nat ->
      ChatRoute.recentHistory h = filter ChatRoute.eligible h).
Proof.
  unfold ChatRoute.recentHistory. split; [|split; [|split]].
  - pose proof (filter_length_le ChatRoute.eligible (slice_last 10 h)).
    pose proof (slice_last_bound 10 h). lia.
  - apply Forall_forall. intros msg Hin. apply filter_In in Hin.
    destruct Hin as [_ He]. unfold ChatRoute.eligible in He.
    destruct (type msg); simpl in He; auto; discriminate.
  - exists (filter ChatRoute.eligible (firstn (length h - 10) h)).
    rewrite <- filter_app. f_equal. apply slice_last_split.
  - intros Hl. rewrite slice_last_short by exact Hl. reflexivity.
Qed.

Lemma chat_history_selection_witness :
  ChatRoute.recentHistory [user_says 1; report_entry; user_says 2]
  = filter ChatRoute.eligible [user_says 1; report_entry; user_says 2].
Proof.
  apply (chat_history_selection [user_says 1; report_entry; user_says 2]).
  simpl. lia.
Defined.

(** X5.  The prompt of the chat route begins with the system
    instruction and holds the question of the user verbatim after
    [Current user question: ]; without a dataset it holds the sentence
    that no business data has been uploaded. *)
Theorem chat_prompt_parts
    (JSON_stringify : value -> jsstring)
    (m : jsstring) (c : option CSVData) (h : list Message) :
  startsWith (ChatRoute.fullPrompt JSON_stringify (Some m) c h)
    ChatRoute.systemInstruction = true
  /\ includes (ChatRoute.fullPrompt JSON_stringify (Some m) c h)
       (str "Current user question: " ++ m) = true
  /\ includes (ChatRoute.fullPrompt JSON_stringify (Some m) None h)
       (str "No business data uploaded yet.") = true.
Proof.
  split; [apply prompt_starts_with_instruction|].
  split; [apply (prompt_has_question JSON_stringify (Some m))|].
  apply includes_occurs.
  apply (occurs_in_trans _ (ChatRoute.csvContext JSON_stringify None)).
  - apply includes_occurs. vm_compute. reflexivity.
  - apply includes_occurs, prompt_has_context.
Qed.

(** X6.  The context block lists every row of the sample under its
    one-based index: the row at position [k] appears as
    [Record k+1: ] followed by its JSON text. *)
Theorem context_lists_sample_rows
    (JSON_stringify : value -> jsstring) (c : CSVData) (k : nat) (row : value) :
  nth_error (sample c) k = Some row ->
  includes (ChatRoute.csvContext JSON_stringify (Some c))
    (str "Record " ++ num_nat (k + 1) ++ str ": " ++ JSON_stringify row) = true.
Proof.
  intros Hk. apply includes_occurs.
  apply (occurs_in_trans _
           (join nl (map_index (ChatRoute.render_row JSON_stringify) 0 (sample c)))).
  - apply occurs_in_join.
    pose proof (map_index_nth (ChatRoute.render_row JSON_stringify) (sample c) 0 k row Hk)
      as Hn.
    apply nth_error_In in Hn. exact Hn.
  - apply includes_occurs, context_has_rows.
Qed.

Lemma context_lists_sample_rows_witness :
  includes (ChatRoute.csvContext stringify_row (Some example_dataset))
    (str "Record 5: {}") = true.
Proof.
  apply (context_lists_sample_rows stringify_row example_dataset 4 JNull).
  reflexivity.
Defined.

(* ================================================================== *)
(** * Further properties of POST /generate-report *)
(* ================================================================== *)

Section ReportAnswers.

Import ReportRoute.
Open Scope N_scope.

Variable JSON_stringify : value -> jsstring.
Variable fetch : GenerateRequest -> result FetchResponse.

Lemma POST_service_failure (csv : CSVData) :
  (exists e, fetch (request JSON_stringify csv) = Throw e)
  \/ (exists response,
         fetch (request JSON_stringify csv) = Ok response
         /\ (ok response = false \/ exists e, fetch_json response = Throw e)) ->
  POST JSON_stringify fetch (Some csv) = generation_failed.
Proof.
  intros [(e & Hf) | (response & Hf & H)]; unfold POST, handle; rewrite Hf.
  - reflexivity.
  - cbn [bind]. destruct H as [Hok | (e & Hj)].
    + rewrite Hok. reflexivity.
    + destruct (ok response); cbn [negb]; [rewrite Hj|]; reflexivity.
Qed.

Lemma report_or_fallback_status (csv : CSVData) (json : jsstring) :
  exists rep, report_or_fallback csv json = NextResponse_json (ReportBody rep) 200.
Proof.
  unfold report_or_fallback.
  destruct (parse_report_cases json) as [(report & _ & _ & E) | (e & E & _)];
    rewrite E; eexists; reflexivity.
Qed.

Lemma report_or_fallback_falsy (csv : CSVData) (json : jsstring) (parsed : value) :
  JSON_parse json = Ok parsed ->
  missing_section parsed = true ->
  report_or_fallback csv json = NextResponse_json (ReportBody (fallbackReport csv)) 200.
Proof.
  intros Hp Hm. unfold report_or_fallback, parse_report.
  rewrite Hp. cbn [bind]. rewrite Hm. reflexivity.
Qed.

Lemma report_or_fallback_valid (csv : CSVData) (json : jsstring) (parsed : value) :
  JSON_parse json = Ok parsed ->
  missing_section parsed = false ->
  report_or_fallback csv json = NextResponse_json (ReportBody (serialised parsed)) 200.
Proof.
  intros Hp Hm. unfold report_or_fallback, parse_report.
  rewrite Hp. cbn [bind]. rewrite Hm. reflexivity.
Qed.

Lemma falsy_section_is_missing (parsed : value) (key : string) :
  In key sections -> falsy_prop parsed key = true -> missing_section parsed = true.
Proof.
  unfold sections, missing_section. intros Hin Hf.
  repeat (destruct Hin as [<- | Hin]; [rewrite Hf, ?orb_true_r; reflexivity|]).
  destruct Hin.
Qed.

End ReportAnswers.

(** X7.  POST /generate-report answers 400 exactly when the request has
    no csvData; every other answer is a 200 whose body carries a report
    or a 500 whose body carries an error, so that a quota answer of the
    service (429) is never relayed as such. *)
Theorem report_answer_shape
    (JSON_stringify : value -> jsstring)
    (fetch : GenerateRequest -> result FetchResponse)
    (csvData : option CSVData) :
  let resp := ReportRoute.POST JSON_stringify fetch csvData in
  (status resp = 400%N <-> csvData = None)
  /\ ((exists rep, resp = NextResponse_json (ReportBody rep) 200)
      \/ (exists msg, body resp = ErrorBody msg /\ msg <> []
                      /\ (status resp = 400 \/ status resp = 500)%N)).
Proof.
  intros resp. subst resp. destruct csvData as [csv|].
  2:{ split; [split; reflexivity|]. right. eexists.
      split; [reflexivity|]. split; [discriminate | left; reflexivity]. }
  assert (Hfail : forall r, r = ReportRoute.generation_failed ->
            (status r = 400%N <-> Some csv = None)
            /\ ((exists rep, r = NextResponse_json (ReportBody rep) 200)
                \/ (exists msg, body r = ErrorBody msg /\ msg <> []
                                /\ (status r = 400 \/ status r = 500)%N))).
  { intros r ->. split; [split; discriminate|]. right. eexists.
    split; [reflexivity|]. split; [discriminate | right; reflexivity]. }
  destruct (fetch (ReportRoute.request JSON_stringify csv)) as [response|e] eqn:Hf.
  2:{ apply Hfail, POST_service_failure. left. exists e. exact Hf. }
  destruct (ok response) eqn:Hok.
  2:{ apply Hfail, POST_service_failure. right. exists response. auto. }
  destruct (fetch_json response) as [data|e] eqn:Hj.
  2:{ apply Hfail, POST_service_failure. right. exists response.
      split; [exact Hf|]. right. exists e. exact Hj. }
  rewrite (POST_answered JSON_stringify fetch csv response data Hf Hok Hj).
  destruct (String_match false ReportRoute.re_json (ReportRoute.rawText data)) as [json|].
  - destruct (report_or_fallback_status csv json) as [rep ->].
    split; [split; discriminate|]. left. exists rep. reflexivity.
  - split; [split; discriminate|]. right. eexists.
    split; [reflexivity|]. split; [discriminate | right; reflexivity].
Qed.

(** X8.  For a request with csvData, a rejected [fetch], an answer of
    the service with a status outside 200 to 299 (429 included), and a
    successful answer whose body is not JSON all give the same 500
    with the message [Failed to generate business report]. *)
Theorem report_service_failure
    (JSON_stringify : value -> jsstring)
    (fetch : GenerateRequest -> result FetchResponse)
    (csv : CSVData) :
  (exists e, fetch (ReportRoute.request JSON_stringify csv) = Throw e)
  \/ (exists response,
         fetch (ReportRoute.request JSON_stringify csv) = Ok response
         /\ (ok response = false \/ exists e, fetch_json response = Throw e)) ->
  ReportRoute.POST JSON_stringify fetch (Some csv)
  = NextResponse_json (ErrorBody (str "Failed to generate business report")) 500.
Proof.
  intros H. exact (POST_service_failure JSON_stringify fetch csv H).
Qed.

Lemma report_service_failure_witness :
  ReportRoute.POST stringify_row (failing_with 429) (Some example_dataset)
  = NextResponse_json (ErrorBody (str "Failed to generate business report")) 500.
Proof.
  apply (report_service_failure stringify_row (failing_with 429) example_dataset).
  right. eexists. split; [reflexivity|]. left. reflexivity.
Defined.

(** X9.  The JSON text is taken from the first opening brace to the
    last closing brace of the sanitized text: prose without braces
    around a report object is ignored, and when the object passes the
    validation the answer is the value it parses to, as
    [NextResponse.json] serialises it: exactly the parsed value when
    each of its numbers is a finite double other than the negative
    zero. *)
Theorem report_ignores_surrounding_prose
    (JSON_stringify : value -> jsstring)
    (fetch : GenerateRequest -> result FetchResponse)
    (csv : CSVData) (response : FetchResponse) (data : GenerateContentResponse)
    (pre mid post : jsstring) (parsed : value) :
  fetch (ReportRoute.request JSON_stringify csv) = Ok response ->
  ok response = true ->
  fetch_json response = Ok data ->
  ReportRoute.rawText data = pre ++ 123%N :: mid ++ 125%N :: post ->
  ReportRoute.no_unit 123 pre ->
  ReportRoute.no_unit 125 post ->
  JSON_parse (123%N :: mid ++ [125%N]) = Ok parsed ->
  ReportRoute.missing_section parsed = false ->
  String_match false ReportRoute.re_json (ReportRoute.rawText data)
  = Some (123%N :: mid ++ [125%N])
  /\ ReportRoute.POST JSON_stringify fetch (Some csv)
     = NextResponse_json (ReportBody (serialised parsed)) 200
  /\ (survives parsed = true ->
      ReportRoute.POST JSON_stringify fetch (Some csv)
      = NextResponse_json (ReportBody parsed) 200).
Proof.
  intros Hf Hok Hj Hraw Hpre Hpost Hp Hv.
  assert (Hm : String_match false ReportRoute.re_json (ReportRoute.rawText data)
               = Some (123%N :: mid ++ [125%N]))
    by (rewrite Hraw; apply String_match_json; assumption).
  split; [exact Hm|].
  assert (E : ReportRoute.POST JSON_stringify fetch (Some csv)
              = NextResponse_json (ReportBody (serialised parsed)) 200).
  { rewrite (POST_answered JSON_stringify fetch csv response data Hf Hok Hj), Hm.
    apply report_or_fallback_valid; assumption. }
  split; [exact E|].
  intros Hsv. rewrite E, (serialised_survives parsed Hsv). reflexivity.
Qed.

(** X10.  The validation tests truthiness: a parsed report in which one
    of the six sections is absent or holds a falsy value ([null],
    [false], zero, the empty string) is discarded for the fallback
    report. *)
Theorem report_falsy_section_gives_fallback
    (JSON_stringify : value -> jsstring)
    (fetch : GenerateRequest -> result FetchResponse)
    (csv : CSVData) (response : FetchResponse) (data : GenerateContentResponse)
    (json : jsstring) (parsed : value) (key : string) :
  fetch (ReportRoute.request JSON_stringify csv) = Ok response ->
  ok response = true ->
  fetch_json response = Ok data ->
  String_match false ReportRoute.re_json (ReportRoute.rawText data) = Some json ->
  JSON_parse json = Ok parsed ->
  In key ReportRoute.sections ->
  (get parsed key = None
   \/ get parsed key = Some JNull
   \/ get parsed key = Some (JBool false)
   \/ get parsed key = Some (JString [])
   \/ exists neg e, get parsed key = Some (JNumber neg 0 e)) ->
  ReportRoute.POST JSON_stringify fetch (Some csv)
  = NextResponse_json (ReportBody (ReportRoute.fallbackReport csv)) 200.
Proof.
  intros Hf Hok Hj Hm Hp Hin Hfalsy.
  rewrite (POST_answered JSON_stringify fetch csv response data Hf Hok Hj), Hm.
  apply (report_or_fallback_falsy csv json parsed Hp).
  apply (falsy_section_is_missing parsed key Hin).
  unfold falsy_prop.
  destruct Hfalsy as [-> | [-> | [-> | [-> | (neg & e & ->)]]]]; reflexivity.
Qed.

Lemma report_ignores_surrounding_prose_witness :
  String_match false ReportRoute.re_json
    (ReportRoute.rawText (data_with report_in_prose))
  = Some plain_report_text.
Proof.
  destruct (JSON_parse plain_report_text) as [parsed|e] eqn:Hp;
    [|vm_compute in Hp; discriminate].
  refine (proj1 (report_ignores_surrounding_prose stringify_row
                   (answering report_in_prose) example_dataset
                   (response_with (data_with report_in_prose))
                   (data_with report_in_prose)
                   (str "Here is the report: ") (removelast (tl plain_report_text))
                   (str " Let me know what else you need.") parsed
                   _ _ _ _ _ _ _ _)).
  - reflexivity.
  - reflexivity.
  - reflexivity.
  - vm_compute. reflexivity.
  - repeat constructor; discriminate.
  - repeat constructor; discriminate.
  - rewrite <- Hp. vm_compute. reflexivity.
  - vm_compute in Hp. inversion Hp. vm_compute. reflexivity.
Defined.

Lemma report_falsy_section_gives_fallback_witness :
  ReportRoute.POST stringify_row (answering null_recommendations_text)
    (Some example_dataset)
  = NextResponse_json (ReportBody (ReportRoute.fallbackReport example_dataset)) 200.
Proof.
  destruct (JSON_parse null_recommendations_text) as [parsed|e] eqn:Hp;
    [|vm_compute in Hp; discriminate].
  refine (report_falsy_section_gives_fallback stringify_row
            (answering null_recommendations_text) example_dataset
            (response_with (data_with null_recommendations_text))
            (data_with null_recommendations_text)
            null_recommendations_text parsed "recommendations"
            _ _ _ _ Hp _ _).
  - reflexivity.
  - reflexivity.
  - reflexivity.
  - vm_compute. reflexivity.
  - vm_compute. tauto.
  - right. left. vm_compute in Hp. inversion Hp. vm_compute. reflexivity.
Defined.

(* ================================================================== *)
(** * Texts the sanitizers leave alone *)
(* ================================================================== *)

Section CleanText.

Lemma replace_loop_no_match (icase : bool) (r : regex) (rp : replacement) :
  forall s fuel prev,
    search icase r prev s = None ->
    replace_loop fuel icase r rp prev s = s.
Proof.
  induction s as [|c s IH]; intros fuel prev H; rewrite search_unfold in H;
    destruct (match_here icase r prev _) eqn:E; try discriminate;
    destruct fuel as [|fuel]; try reflexivity; cbn [replace_loop]; rewrite E.
  - reflexivity.
  - f_equal. apply IH. exact H.
Qed.

Lemma replace_all_no_match (icase : bool) (r : regex) (rp : replacement) (s : jsstring) :
  test icase r s = false -> replace_all icase r rp s = s.
Proof.
  unfold test, replace_all. intros H.
  apply replace_loop_no_match.
  destruct (search icase r None s); [discriminate | reflexivity].
Qed.

Lemma denylist_passes_clean (s : jsstring) :
  denylist_free s -> denylist_passes s = s.
Proof.
  intros (H1 & H2 & H3 & H4). unfold denylist_passes.
  rewrite (replace_all_no_match true re_script ReplEmpty s H1).
  rewrite (replace_all_no_match true re_iframe ReplEmpty s H2).
  rewrite (replace_all_no_match true re_javascript ReplEmpty s H3).
  apply (replace_all_no_match true re_handler ReplEmpty s H4).
Qed.

End CleanText.

(** X11.  A text that holds none of the four denylisted patterns is
    only trimmed by [sanitizeOutput], and a text without them and
    without surrounding white space comes back unchanged; together with
    the converse of C4, the texts [sanitizeOutput] returns unchanged
    are exactly the trimmed texts free of the four patterns. *)
Theorem sanitizeOutput_on_clean_text (s : jsstring) :
  (denylist_free s -> sanitizeOutput s = trim s)
  /\ (sanitizeOutput s = s <-> denylist_free s /\ trim s = s).
Proof.
  assert (Hclean : denylist_free s -> sanitizeOutput s = trim s).
  { intros H. rewrite sanitizeOutput_eq, (denylist_passes_clean s H). reflexivity. }
  split; [exact Hclean|]. split.
  - intros Hfix. pose proof (sanitizeOutput_fixed_point s Hfix) as Hd.
    split; [exact Hd|]. rewrite <- (Hclean Hd). exact Hfix.
  - intros [Hd Ht]. rewrite (Hclean Hd). exact Ht.
Qed.

Lemma sanitizeOutput_on_clean_text_witness :
  sanitizeOutput (str "  Churn is 5% this quarter. ") = trim (str "  Churn is 5% this quarter. ").
Proof.
  apply (proj1 (sanitizeOutput_on_clean_text (str "  Churn is 5% this quarter. "))).
  repeat split; vm_compute; reflexivity.
Defined.

(* ================================================================== *)
(** * Removal of a script or iframe block *)
(* ================================================================== *)

Section BlockRemoval.

Open Scope N_scope.

Lemma chr_eqb_refl (icase : bool) (c : N) : chr_eqb icase c c = true.
Proof. unfold chr_eqb. destruct icase; apply N.eqb_refl. Qed.

Lemma chr_eqb_lt (c : N) : c <> 60 -> chr_eqb true 60 c = false.
Proof.
  intros Hc. unfold chr_eqb, canonicalize. simpl ((97 <=? 60) && (60 <=? 122)).
  cbv iota. destruct ((97 <=? c) && (c <=? 122)) eqn:E.
  - apply andb_true_iff in E. destruct E as [E1 E2].
    apply N.leb_le in E1. apply N.eqb_neq. lia.
  - apply N.eqb_neq. congruence.
Qed.

Lemma exec_Lit_prefix (icase : bool) (lit : jsstring) :
  forall s prev cap k,
    exec icase (Lit lit) (Cursor prev (lit ++ s) cap) k
    = k (after_literal lit s (Cursor prev (lit ++ s) cap)).
Proof.
  induction lit as [|c lit IH]; intros s prev cap k.
  - reflexivity.
  - cbn [Lit app]. 
    change (exec icase (Seq (Chr c) (Lit lit)) (Cursor prev (c :: lit ++ s) cap) k)
      with (exec icase (Chr c) (Cursor prev (c :: lit ++ s) cap)
              (fun cur' => exec icase (Lit lit) cur' k)).
    rewrite exec_Chr, chr_eqb_refl, IH. f_equal.
    unfold after_literal. cbn [before cap1 rev]. 
    destruct (rev lit) as [|d t] eqn:E; [|reflexivity].
    apply (f_equal (@rev N)) in E. rewrite rev_involutive in E. subst lit. reflexivity.
Qed.

Lemma greedy_class_run (icase : bool) (p : N -> bool) (k : cursor -> option cursor)
    (run rest' : jsstring) (res : cursor) :
  Forall (fun c => p c = true) run ->
  match rest' with c :: _ => p c = false | [] => True end ->
  forall fuel prev cap,
    (length run <= fuel)%nat ->
    k (Cursor (match rev run with c :: _ => Some c | [] => prev end) rest' cap) = Some res ->
    greedy_loop (exec icase (Cls p)) k fuel (Cursor prev (run ++ rest') cap) = Some res.
Proof.
  intros Hrun Hrest. induction Hrun as [|c run Hc Hrun IH]; intros fuel prev cap Hf Hk.
  - cbn [app rev] in *. destruct fuel as [|fuel]; [exact Hk|].
    rewrite greedy_loop_S. destruct rest' as [|d rest'].
    + exact Hk.
    + rewrite exec_Cls, Hrest. exact Hk.
  - destruct fuel as [|fuel]; [simpl in Hf; lia|].
    cbn [app]. rewrite greedy_loop_S, exec_Cls, Hc, shorter_tail.
    rewrite (IH fuel (Some c) cap); [reflexivity | simpl in Hf; lia |].
    cbn [rev] in Hk. destruct (rev run) as [|d t] eqn:E; exact Hk.
Qed.

Lemma exec_Seq (icase : bool) (r1 r2 : regex) (cur : cursor) (k : cursor -> option cursor) :
  exec icase (Seq r1 r2) cur k = exec icase r1 cur (fun cur' => exec icase r2 cur' k).
Proof. reflexivity. Qed.

Lemma exec_Star (icase : bool) (r : regex) (cur : cursor) (k : cursor -> option cursor) :
  exec icase (Star r) cur k = greedy_loop (exec icase r) k (length (rest cur)) cur.
Proof. reflexivity. Qed.

Lemma exec_WordB (icase : bool) (cur : cursor) (k : cursor -> option cursor) :
  exec icase WordB cur k
  = if xorb (word_before cur) (word_after cur) then k cur else None.
Proof. reflexivity. Qed.

Lemma exec_NotAhead (icase : bool) (r : regex) (cur : cursor) (k : cursor -> option cursor) :
  exec icase (NotAhead r) cur k
  = match exec icase r cur Some with Some _ => None | None => k cur end.
Proof. reflexivity. Qed.

Lemma greedy_loop_body_fails
    (body : cursor -> (cursor -> option cursor) -> option cursor)
    (k : cursor -> option cursor) (fuel : nat) (cur : cursor) :
  (forall k', body cur k' = None) ->
  greedy_loop body k fuel cur = k cur.
Proof.
  intros H. destruct fuel as [|fuel]; [reflexivity|].
  rewrite greedy_loop_S, H. reflexivity.
Qed.

(** A block whose inside holds no [<] is matched whole. *)
Lemma match_here_block (icase : bool) (o cl mid b : jsstring) (w : N) (prev : option N) :
  is_word w = true ->
  Forall (fun c => not_lt c = true) mid ->
  match mid with c :: _ => is_word c = false | [] => True end ->
  match_here icase (block_re (o ++ [w]) (60 :: cl)) prev
    ((o ++ [w]) ++ mid ++ 60 :: cl ++ b)
  = Some (Cursor (match rev cl with c :: _ => Some c | [] => Some 60 end) b None).
Proof.
  intros Hw Hmid Hhead. unfold match_here, block_re.
  rewrite exec_Seq, exec_Lit_prefix.
  unfold after_literal. rewrite rev_app_distr. cbn [rev app cap1].
  rewrite exec_Seq, exec_WordB.
  assert (Hb : xorb (word_before (Cursor (Some w) (mid ++ 60 :: cl ++ b) None))
                 (word_after (Cursor (Some w) (mid ++ 60 :: cl ++ b) None)) = true).
  { unfold word_before, word_after. cbn [before rest]. rewrite Hw.
    destruct mid as [|c mid]; cbn [app]; [reflexivity | rewrite Hhead; reflexivity]. }
  rewrite Hb. rewrite exec_Seq, exec_Star. cbn [rest].
  apply greedy_class_run.
  - exact Hmid.
  - reflexivity.
  - rewrite length_app. lia.
  - change (60 :: cl ++ b) with ((60 :: cl) ++ b).
    rewrite exec_Seq, exec_Star.
    rewrite greedy_loop_body_fails.
    + rewrite exec_Lit_prefix. unfold after_literal. cbn [cap1 rev before].
      destruct (rev cl ++ [60]) as [|c t] eqn:E.
      * destruct (rev cl); discriminate.
      * destruct (rev cl) as [|d u]; cbn [app] in E; inversion E; subst; reflexivity.
    + intros k'. rewrite exec_Seq, exec_NotAhead, exec_Lit_prefix. reflexivity.
Qed.

Lemma match_here_no_lt (icase : bool) (o cl : jsstring) (c : N) (s : jsstring)
    (prev : option N) :
  chr_eqb icase 60 c = false ->
  match_here icase (block_re (60 :: o) cl) prev (c :: s) = None.
Proof.
  intros Hc. unfold match_here, block_re. cbn [Lit].
  rewrite !exec_Seq, exec_Chr, Hc. reflexivity.
Qed.

Lemma search_no_lt (o cl s : jsstring) :
  Forall (fun c => not_lt c = true) s ->
  forall prev, search true (block_re (60 :: o) cl) prev s = None.
Proof.
  intros Hs. induction Hs as [|c s Hc Hs IH]; intros prev.
  - reflexivity.
  - rewrite search_unfold, match_here_no_lt.
    + apply IH.
    + apply chr_eqb_lt. unfold not_lt in Hc. apply negb_true_iff, N.eqb_neq in Hc. exact Hc.
Qed.

Lemma replace_loop_S (fuel : nat) (icase : bool) (r : regex) (rp : replacement)
    (prev : option N) (s : jsstring) :
  replace_loop (S fuel) icase r rp prev s
  = match match_here icase r prev s with
    | Some cur' =>
        if (length (rest cur') <? length s)%nat
        then expand rp cur' ++ replace_loop fuel icase r rp (before cur') (rest cur')
        else
          match s with
          | [] => expand rp cur'
          | c :: s' => expand rp cur' ++ c :: replace_loop fuel icase r rp (Some c) s'
          end
    | None =>
        match s with
        | [] => []
        | c :: s' => c :: replace_loop fuel icase r rp (Some c) s'
        end
    end.
Proof. reflexivity. Qed.

(** The scan over a stretch in which no match can start. *)
Lemma replace_loop_prefix (icase : bool) (r : regex) (rp : replacement)
    (a s t : jsstring) (n : nat) :
  (forall c u prev, In c a -> match_here icase r prev (c :: u) = None) ->
  (forall prev, replace_loop n icase r rp prev s = t) ->
  forall prev, replace_loop (length a + n) icase r rp prev (a ++ s) = a ++ t.
Proof.
  intros Ha Hs. induction a as [|c a IH]; intros prev.
  - apply Hs.
  - cbn [length app Nat.add]. rewrite replace_loop_S, Ha by (left; reflexivity).
    f_equal. apply IH. intros d u p Hd. apply Ha. right. exact Hd.
Qed.

(** The scan of [replace] over a text with one such block. *)
Lemma replace_loop_block (o cl a mid b : jsstring) (w : N) :
  is_word w = true ->
  Forall (fun c => not_lt c = true) a ->
  Forall (fun c => not_lt c = true) mid ->
  Forall (fun c => not_lt c = true) b ->
  match mid with c :: _ => is_word c = false | [] => True end ->
  forall fuel prev,
    replace_loop (length a + S fuel) true (block_re ((60 :: o) ++ [w]) (60 :: cl))
      ReplEmpty prev (a ++ ((60 :: o) ++ [w]) ++ mid ++ 60 :: cl ++ b)
    = a ++ b.
Proof.
  intros Hw Ha Hmid Hb Hhead fuel.
  apply replace_loop_prefix.
  - intros c u prev Hc. apply (match_here_no_lt true (o ++ [w]) (60 :: cl)).
    apply chr_eqb_lt. rewrite Forall_forall in Ha. specialize (Ha c Hc).
    unfold not_lt in Ha. apply negb_true_iff, N.eqb_neq in Ha. exact Ha.
  - intros prev. rewrite replace_loop_S.
    rewrite (match_here_block true (60 :: o) cl mid b w prev Hw Hmid Hhead).
    cbn [rest before expand].
    replace (length b <? length (((60%N :: o) ++ [w]) ++ mid ++ 60%N :: cl ++ b))%nat
      with true
      by (symmetry; apply Nat.ltb_lt; rewrite !length_app; simpl; rewrite length_app; lia).
    cbn [app]. apply replace_loop_no_match.
    apply (search_no_lt (o ++ [w]) (60 :: cl)). exact Hb.
Qed.

Lemma lt_free_Forall (s : jsstring) :
  lt_free s = true -> Forall (fun c => not_lt c = true) s.
Proof. intros H. apply Forall_forall. apply forallb_forall. exact H. Qed.

Lemma lt_free_app (s t : jsstring) :
  lt_free s = true -> lt_free t = true -> lt_free (s ++ t) = true.
Proof. intros Hs Ht. unfold lt_free in *. rewrite forallb_app, Hs. exact Ht. Qed.

Lemma word_at_head_false (s : jsstring) :
  word_at_head s = false -> match s with c :: _ => is_word c = false | [] => True end.
Proof. destruct s; [trivial | exact (fun H => H)]. Qed.

Lemma replace_all_block (tag_rest cl a mid b : jsstring) (w : N) :
  is_word w = true ->
  lt_free a = true -> lt_free mid = true -> lt_free b = true ->
  word_at_head mid = false ->
  replace_all true (block_re ((60 :: tag_rest) ++ [w]) (60 :: cl)) ReplEmpty
    (a ++ ((60 :: tag_rest) ++ [w]) ++ mid ++ 60 :: cl ++ b)
  = a ++ b.
Proof.
  intros Hw Ha Hmid Hb Hhead. unfold replace_all.
  set (text := a ++ ((60 :: tag_rest) ++ [w]) ++ mid ++ 60 :: cl ++ b).
  replace (S (length text)) with (length a + S (length text - length a))%nat
    by (subst text; rewrite length_app; lia).
  apply replace_loop_block;
    [exact Hw | apply lt_free_Forall; exact Ha | apply lt_free_Forall; exact Hmid
    | apply lt_free_Forall; exact Hb | apply word_at_head_false; exact Hhead].
Qed.

Lemma block_pass_lt_free (o cl s : jsstring) :
  lt_free s = true -> replace_all true (block_re (60 :: o) cl) ReplEmpty s = s.
Proof.
  intros Hs. apply replace_all_no_match. unfold test.
  rewrite (search_no_lt o cl s (lt_free_Forall s Hs) None). reflexivity.
Qed.

Lemma re_script_shape :
  re_script = block_re ((60 :: str "scrip") ++ [116]) (60 :: str "/script>").
Proof. reflexivity. Qed.

Lemma re_iframe_shape :
  re_iframe = block_re ((60 :: str "ifram") ++ [101]) (60 :: str "/iframe>").
Proof. reflexivity. Qed.

(** A search passes over a stretch in which no match can start. *)
Lemma search_skip (icase : bool) (r : regex) (a s : jsstring) :
  (forall c u prev, In c a -> match_here icase r prev (c :: u) = None) ->
  (forall prev, search icase r prev s = None) ->
  forall prev, search icase r prev (a ++ s) = None.
Proof.
  intros Ha Hs. induction a as [|c a IH]; intros prev.
  - apply Hs.
  - cbn [app]. rewrite search_unfold, Ha by (left; reflexivity).
    apply IH. intros d u p Hd. apply Ha. right. exact Hd.
Qed.

Lemma script_not_at (c : N) (u : jsstring) (prev : option N) :
  chr_eqb true 115 c = false ->
  match_here true re_script prev (60 :: c :: u) = None.
Proof.
  intros Hc. rewrite re_script_shape. unfold match_here, block_re.
  change ((60 :: str "scrip") ++ [116]) with (60 :: 115 :: str "cript").
  cbn [Lit]. rewrite !exec_Seq, exec_Chr, chr_eqb_refl.
  rewrite !exec_Seq, exec_Chr. cbn [advance rest]. rewrite Hc. reflexivity.
Qed.

Lemma script_not_in_lt_free (s : jsstring) (c : N) (u : jsstring) (prev : option N) :
  lt_free s = true -> In c s -> match_here true re_script prev (c :: u) = None.
Proof.
  intros Hs Hc. rewrite re_script_shape.
  apply (match_here_no_lt true (str "scrip" ++ [116]) (60 :: str "/script>")).
  apply chr_eqb_lt. unfold lt_free in Hs. rewrite forallb_forall in Hs.
  specialize (Hs c Hc). unfold not_lt in Hs. apply negb_true_iff, N.eqb_neq in Hs. exact Hs.
Qed.

(** An iframe block whose parts hold no [<] has no script block. *)
Lemma iframe_block_no_script (a mid b : jsstring) :
  lt_free a = true -> lt_free mid = true -> lt_free b = true ->
  has_script_block (a ++ str "<iframe" ++ mid ++ str "</iframe>" ++ b) = false.
Proof.
  intros Ha Hmid Hb. unfold has_script_block, test.
  assert (H : forall prev, search true re_script prev
                (a ++ str "<iframe" ++ mid ++ str "</iframe>" ++ b) = None);
    [|rewrite H; reflexivity].
  apply search_skip; [intros c u prev; apply script_not_in_lt_free; exact Ha|].
  intros prev.
  change (str "<iframe" ++ mid ++ str "</iframe>" ++ b)
    with (60 :: 105 :: (str "frame" ++ mid) ++ 60 :: 47 :: str "iframe>" ++ b).
  rewrite search_unfold, script_not_at by reflexivity.
  rewrite search_unfold.
  rewrite (script_not_in_lt_free [105] 105 _ (Some 60) eq_refl (or_introl eq_refl)).
  apply search_skip.
  - intros c u p. apply script_not_in_lt_free. apply lt_free_app; [reflexivity | exact Hmid].
  - intros p. rewrite search_unfold, script_not_at by reflexivity.
    change (47 :: str "iframe>" ++ b) with (str "/iframe>" ++ b).
    rewrite <- (app_nil_r (str "/iframe>" ++ b)).
    apply search_skip; [|reflexivity].
    intros c u q. apply script_not_in_lt_free. apply lt_free_app; [reflexivity | exact Hb].
Qed.

End BlockRemoval.

(** X17.  [sanitizeOutput] removes a whole script block, and a whole
    iframe block, whose attributes and content hold no [<]: the text
    before and after the block is joined and trimmed.  The text around
    the block holds no [<] and, joined, neither [javascript:] nor an
    event-handler attribute. *)
Theorem sanitizeOutput_removes_block (a mid b : jsstring) :
  lt_free a = true -> lt_free mid = true -> lt_free b = true ->
  word_at_head mid = false ->
  has_javascript_uri (a ++ b) = false ->
  has_event_handler (a ++ b) = false ->
  sanitizeOutput (a ++ str "<script" ++ mid ++ str "</script>" ++ b) = trim (a ++ b)
  /\ sanitizeOutput (a ++ str "<iframe" ++ mid ++ str "</iframe>" ++ b) = trim (a ++ b).
Proof.
  intros Ha Hmid Hb Hhead Hj Hh.
  assert (Hab : lt_free (a ++ b) = true) by (apply lt_free_app; assumption).
  split.
  - rewrite sanitizeOutput_eq. unfold denylist_passes. f_equal.
    rewrite re_script_shape.
    change (a ++ str "<script" ++ mid ++ str "</script>" ++ b)
      with (a ++ ((60 :: str "scrip") ++ [116]) ++ mid ++ 60 :: str "/script>" ++ b).
    rewrite (replace_all_block (str "scrip") (str "/script>") a mid b 116
               eq_refl Ha Hmid Hb Hhead).
    rewrite (block_pass_lt_free (str "iframe") (str "</iframe>") (a ++ b) Hab
             : replace_all true re_iframe ReplEmpty (a ++ b) = a ++ b).
    rewrite (replace_all_no_match true re_javascript ReplEmpty (a ++ b) Hj).
    apply (replace_all_no_match true re_handler ReplEmpty (a ++ b) Hh).
  - rewrite sanitizeOutput_eq. unfold denylist_passes. f_equal.
    rewrite (replace_all_no_match true re_script ReplEmpty _
               (iframe_block_no_script a mid b Ha Hmid Hb)).
    rewrite re_iframe_shape.
    change (a ++ str "<iframe" ++ mid ++ str "</iframe>" ++ b)
      with (a ++ ((60 :: str "ifram") ++ [101]) ++ mid ++ 60 :: str "/iframe>" ++ b).
    rewrite (replace_all_block (str "ifram") (str "/iframe>") a mid b 101
               eq_refl Ha Hmid Hb Hhead).
    rewrite (replace_all_no_match true re_javascript ReplEmpty (a ++ b) Hj).
    apply (replace_all_no_match true re_handler ReplEmpty (a ++ b) Hh).
Qed.

Lemma sanitizeOutput_removes_block_witness :
  sanitizeOutput (str "Churn fell. <script>alert(1)</script> Revenue grew.")
  = str "Churn fell.  Revenue grew.".
Proof.
  refine (proj1 (sanitizeOutput_removes_block (str "Churn fell. ") (str ">alert(1)")
                   (str " Revenue grew.") _ _ _ _ _ _)); vm_compute; reflexivity.
Defined.

(* ================================================================== *)
(** * The markdown passes of the chat component *)
(* ================================================================== *)

Section Markdown.

Open Scope N_scope.

Lemma lacks_In (c d : N) (s : jsstring) :
  lacks c s = true -> In d s -> (c =? d) = false.
Proof.
  intros Hs Hd. unfold lacks in Hs. rewrite forallb_forall in Hs.
  specialize (Hs d Hd). apply negb_true_iff in Hs. rewrite N.eqb_sym. exact Hs.
Qed.

Lemma lacks_app (c : N) (s t : jsstring) :
  lacks c (s ++ t) = lacks c s && lacks c t.
Proof. apply forallb_app. Qed.

Lemma lacks_cons (c d : N) (s : jsstring) :
  lacks c (d :: s) = negb (d =? c) && lacks c s.
Proof. reflexivity. Qed.

Lemma exec_Group (icase : bool) (r : regex) (cur : cursor) (k : cursor -> option cursor) :
  exec icase (Group r) cur k
  = exec icase r cur
      (fun cur' => k (Cursor (before cur') (rest cur') (Some (consumed cur cur')))).
Proof. reflexivity. Qed.

Lemma exec_LazyStar (icase : bool) (r : regex) (cur : cursor) (k : cursor -> option cursor) :
  exec icase (LazyStar r) cur k = lazy_loop (exec icase r) k (length (rest cur)) cur.
Proof. reflexivity. Qed.

Lemma exec_Upto (icase : bool) (n : nat) (r : regex) (cur : cursor)
    (k : cursor -> option cursor) :
  exec icase (Upto n r) cur k = greedy_loop (exec icase r) k n cur.
Proof. reflexivity. Qed.

Lemma lazy_loop_S (body : cursor -> (cursor -> option cursor) -> option cursor)
    (k : cursor -> option cursor) (fuel : nat) (cur : cursor) :
  lazy_loop body k (S fuel) cur
  = match k cur with
    | Some res => Some res
    | None => body cur (fun cur' => if shorter cur' cur
                                    then lazy_loop body k fuel cur' else None)
    end.
Proof. reflexivity. Qed.

(** The lazy loop over a class reads on for as long as what follows
    the quantifier cannot match. *)
Lemma lazy_class_run (icase : bool) (p : N -> bool) (k : cursor -> option cursor)
    (run rest' : jsstring) (res : cursor) :
  Forall (fun c => p c = true) run ->
  (forall c s prev cap, In c run -> k (Cursor prev (c :: s) cap) = None) ->
  forall fuel prev cap,
    (length run <= fuel)%nat ->
    k (Cursor (match rev run with c :: _ => Some c | [] => prev end) rest' cap) = Some res ->
    lazy_loop (exec icase (Cls p)) k fuel (Cursor prev (run ++ rest') cap) = Some res.
Proof.
  intros Hrun. induction Hrun as [|c run Hc Hrun IH]; intros Hfail fuel prev cap Hf Hk.
  - cbn [app rev] in *. destruct fuel as [|fuel]; [exact Hk|].
    rewrite lazy_loop_S, Hk. reflexivity.
  - destruct fuel as [|fuel]; [simpl in Hf; lia|].
    cbn [app]. rewrite lazy_loop_S, Hfail by (left; reflexivity).
    rewrite exec_Cls, Hc, shorter_tail.
    apply IH.
    + intros d s p' cap' Hd. apply Hfail. right. exact Hd.
    + simpl in Hf. lia.
    + cbn [rev] in Hk. destruct (rev run) as [|d t] eqn:E; exact Hk.
Qed.

(** The greedy loop over one literal code unit, with a bound. *)
Lemma greedy_unit_run (c : N) (k : cursor -> option cursor)
    (rest' : jsstring) (res : cursor) :
  match rest' with d :: _ => (c =? d) = false | [] => True end ->
  forall n fuel prev cap,
    (n <= fuel)%nat ->
    k (Cursor (match n with O => prev | S _ => Some c end) rest' cap) = Some res ->
    greedy_loop (exec false (Chr c)) k fuel (Cursor prev (repeat c n ++ rest') cap)
    = Some res.
Proof.
  intros Hrest. induction n as [|n IH]; intros fuel prev cap Hf Hk.
  - cbn [repeat app]. destruct fuel as [|fuel]; [exact Hk|].
    rewrite greedy_loop_S. destruct rest' as [|d rest'].
    + exact Hk.
    + rewrite exec_Chr. unfold chr_eqb. rewrite Hrest. exact Hk.
  - destruct fuel as [|fuel]; [lia|].
    cbn [repeat app]. rewrite greedy_loop_S, exec_Chr. unfold chr_eqb.
    rewrite N.eqb_refl, shorter_tail.
    rewrite (IH fuel (Some c) cap); [reflexivity | lia |].
    destruct n; exact Hk.
Qed.

Lemma emphasis_not_at (m : jsstring) (c : N) (u : jsstring) (prev : option N) :
  (42 =? c) = false ->
  match_here false (emphasis (42 :: m)) prev (c :: u) = None.
Proof.
  intros Hc. unfold match_here, emphasis. cbn [Lit].
  rewrite !exec_Seq, exec_Chr. unfold chr_eqb. rewrite Hc. reflexivity.
Qed.

Lemma emphasis_not_at_end (m : jsstring) (prev : option N) :
  match_here false (emphasis (42 :: m)) prev [] = None.
Proof. reflexivity. Qed.

Lemma search_lacks (r : regex) (c : N) (s : jsstring) :
  (forall d u prev, (c =? d) = false -> match_here false r prev (d :: u) = None) ->
  (forall prev, match_here false r prev [] = None) ->
  lacks c s = true ->
  forall prev, search false r prev s = None.
Proof.
  intros Hr Hnil Hs prev. rewrite <- (app_nil_r s).
  apply search_skip.
  - intros d u p Hd. apply Hr. apply (lacks_In c d s Hs Hd).
  - intros p. rewrite search_unfold, Hnil. reflexivity.
Qed.

Lemma pass_lacks (r : regex) (rp : replacement) (c : N) (s : jsstring) :
  (forall d u prev, (c =? d) = false -> match_here false r prev (d :: u) = None) ->
  (forall prev, match_here false r prev [] = None) ->
  lacks c s = true ->
  replace_all false r rp s = s.
Proof.
  intros Hr Hnil Hs. apply replace_all_no_match. unfold test.
  rewrite (search_lacks r c s Hr Hnil Hs None). reflexivity.
Qed.

(** Text between two markers, on one line and without [*], is matched
    with the markers and captured. *)
Lemma match_here_emphasis (m t b : jsstring) (prev : option N) :
  lacks 42 t = true -> one_line t = true ->
  match_here false (emphasis (42 :: m)) prev ((42 :: m) ++ t ++ (42 :: m) ++ b)
  = Some (Cursor (match rev m with c :: _ => Some c | [] => Some 42 end) b (Some t)).
Proof.
  intros Ht Hline. unfold match_here, emphasis.
  rewrite exec_Seq, exec_Lit_prefix. unfold after_literal. cbn [cap1 before].
  rewrite exec_Seq, exec_Group, exec_LazyStar. cbn [rest].
  apply lazy_class_run.
  - apply Forall_forall. apply forallb_forall. exact Hline.
  - intros c s p cap Hc. cbn [before rest Lit].
    rewrite exec_Seq, exec_Chr. unfold chr_eqb.
    rewrite (lacks_In 42 c t Ht Hc). reflexivity.
  - rewrite length_app. lia.
  - cbn [before rest]. unfold consumed. cbn [rest].
    rewrite firstn_all_but, exec_Lit_prefix. unfold after_literal. cbn [cap1 before].
    do 2 f_equal. cbn [rev]. destruct (rev m); reflexivity.
Qed.

Lemma emphasis_pass (m a t b : jsstring) :
  lacks 42 a = true -> lacks 42 t = true -> lacks 42 b = true -> one_line t = true ->
  replace_all false (emphasis (42 :: m)) ReplGroup1 (a ++ (42 :: m) ++ t ++ (42 :: m) ++ b)
  = a ++ t ++ b.
Proof.
  intros Ha Ht Hb Hline. unfold replace_all.
  set (text := a ++ (42 :: m) ++ t ++ (42 :: m) ++ b).
  replace (S (length text)) with (length a + S (length text - length a))%nat
    by (subst text; rewrite length_app; lia).
  subst text. apply replace_loop_prefix.
  - intros c u prev Hc. apply emphasis_not_at. apply (lacks_In 42 c a Ha Hc).
  - intros prev. rewrite replace_loop_S, (match_here_emphasis m t b prev Ht Hline).
    cbn [rest before expand cap1].
    replace (length b <? length ((42%N :: m) ++ t ++ (42%N :: m) ++ b))%nat with true
      by (symmetry; apply Nat.ltb_lt; rewrite !length_app; simpl; lia).
    f_equal. apply replace_loop_no_match.
    apply (search_lacks _ 42 b); [intros; apply emphasis_not_at; assumption | | exact Hb].
    intros p. apply emphasis_not_at_end.
Qed.

Lemma replace_loop_ext (icase : bool) (r1 r2 : regex) (rp : replacement) :
  (forall prev s, match_here icase r1 prev s = match_here icase r2 prev s) ->
  forall fuel prev s,
    replace_loop fuel icase r1 rp prev s = replace_loop fuel icase r2 rp prev s.
Proof.
  intros H. induction fuel as [|fuel IH]; intros prev s; [reflexivity|].
  rewrite !replace_loop_S, H.
  destruct (match_here icase r2 prev s) as [cur'|].
  - destruct (length (rest cur') <? length s)%nat.
    + rewrite IH. reflexivity.
    + destruct s; [reflexivity | rewrite IH; reflexivity].
  - destruct s; [reflexivity | rewrite IH; reflexivity].
Qed.

Lemma re_bold_shape : re_bold = emphasis (str "**").
Proof. reflexivity. Qed.

Lemma re_italic_shape (prev : option N) (s : jsstring) :
  match_here false re_italic prev s = match_here false (emphasis [42]) prev s.
Proof. reflexivity. Qed.

Lemma bold_pass (a t b : jsstring) :
  lacks 42 a = true -> lacks 42 t = true -> lacks 42 b = true -> one_line t = true ->
  replace_all false re_bold ReplGroup1 (a ++ str "**" ++ t ++ str "**" ++ b)
  = a ++ t ++ b.
Proof. intros. rewrite re_bold_shape. apply (emphasis_pass [42]); assumption. Qed.

Lemma italic_pass (a t b : jsstring) :
  lacks 42 a = true -> lacks 42 t = true -> lacks 42 b = true -> one_line t = true ->
  replace_all false re_italic ReplGroup1 (a ++ str "*" ++ t ++ str "*" ++ b)
  = a ++ t ++ b.
Proof.
  intros. unfold replace_all. rewrite (replace_loop_ext false re_italic (emphasis [42]))
    by apply re_italic_shape.
  apply (emphasis_pass []); assumption.
Qed.

Lemma bold_pass_clean (s : jsstring) :
  lacks 42 s = true -> replace_all false re_bold ReplGroup1 s = s.
Proof.
  apply pass_lacks.
  - intros. rewrite re_bold_shape. apply emphasis_not_at. assumption.
  - reflexivity.
Qed.

Lemma italic_pass_clean (s : jsstring) :
  lacks 42 s = true -> replace_all false re_italic ReplGroup1 s = s.
Proof.
  apply pass_lacks.
  - intros d u prev Hd. rewrite re_italic_shape. apply emphasis_not_at. exact Hd.
  - reflexivity.
Qed.

Lemma heading_not_at (c : N) (u : jsstring) (prev : option N) :
  (35 =? c) = false -> match_here false re_heading prev (c :: u) = None.
Proof.
  intros Hc. unfold match_here, re_heading.
  rewrite exec_Seq, exec_Chr. unfold chr_eqb. rewrite Hc. reflexivity.
Qed.

Lemma heading_pass_clean (s : jsstring) :
  lacks 35 s = true -> replace_all false re_heading ReplEmpty s = s.
Proof.
  apply pass_lacks.
  - intros. apply heading_not_at. assumption.
  - reflexivity.
Qed.

(** The bold pattern does not match where a single [*] stands. *)
Lemma bold_not_at_single (c : N) (u : jsstring) (prev : option N) :
  (42 =? c) = false -> match_here false re_bold prev (42 :: c :: u) = None.
Proof.
  intros Hc. unfold match_here, re_bold. cbn [str Lit].
  change (Lit (str "**")) with (Seq (Chr 42) (Seq (Chr 42) Eps)).
  rewrite !exec_Seq, exec_Chr. unfold chr_eqb at 1. rewrite N.eqb_refl.
  rewrite !exec_Seq, exec_Chr. unfold chr_eqb. rewrite Hc. reflexivity.
Qed.

Lemma bold_search_after_single (b : jsstring) :
  lacks 42 b = true ->
  forall prev, search false re_bold prev (42 :: b) = None.
Proof.
  intros Hb prev. rewrite search_unfold. destruct b as [|d b].
  - reflexivity.
  - rewrite bold_not_at_single
      by (apply (lacks_In 42 d (d :: b) Hb); left; reflexivity).
    apply (search_lacks re_bold 42 (d :: b)); [| reflexivity | exact Hb].
    intros. rewrite re_bold_shape. apply emphasis_not_at. assumption.
Qed.

Lemma bold_pass_single_markers (a t b : jsstring) :
  lacks 42 a = true -> lacks 42 t = true -> lacks 42 b = true -> t <> [] ->
  replace_all false re_bold ReplGroup1 (a ++ str "*" ++ t ++ str "*" ++ b)
  = a ++ str "*" ++ t ++ str "*" ++ b.
Proof.
  intros Ha Ht Hb Hne. apply replace_all_no_match. unfold test.
  assert (H : forall prev, search false re_bold prev (a ++ str "*" ++ t ++ str "*" ++ b)
                           = None); [|rewrite H; reflexivity].
  apply search_skip.
  - intros c u prev Hc. rewrite re_bold_shape. apply emphasis_not_at.
    apply (lacks_In 42 c a Ha Hc).
  - intros prev. change (str "*" ++ t ++ str "*" ++ b) with (42 :: t ++ 42 :: b).
    destruct t as [|c t]; [contradiction|]. cbn [app].
    rewrite search_unfold, bold_not_at_single
      by (apply (lacks_In 42 c (c :: t) Ht); left; reflexivity).
    change (c :: t ++ 42 :: b) with ((c :: t) ++ 42 :: b).
    apply search_skip.
    + intros d u p Hd. rewrite re_bold_shape. apply emphasis_not_at.
      apply (lacks_In 42 d (c :: t) Ht Hd).
    + apply bold_search_after_single. exact Hb.
Qed.

Lemma space_not (c sp : N) : is_space c = false -> is_space sp = true -> (c =? sp) = false.
Proof.
  intros Hc Hsp. destruct (N.eqb_spec c sp) as [->|]; [congruence | reflexivity].
Qed.

(** One to six [#] and a white-space code unit are matched whole. *)
Lemma match_here_heading (n : nat) (sp : N) (b : jsstring) (prev : option N) :
  (n <= 5)%nat -> is_space sp = true ->
  match_here false re_heading prev (repeat 35 (S n) ++ sp :: b)
  = Some (Cursor (Some sp) b None).
Proof.
  intros Hn Hsp. unfold match_here, re_heading. cbn [repeat app].
  rewrite exec_Seq, exec_Chr. unfold chr_eqb at 1. rewrite N.eqb_refl.
  rewrite exec_Seq, exec_Upto.
  apply greedy_unit_run.
  - apply (space_not 35 sp eq_refl Hsp).
  - exact Hn.
  - rewrite exec_Cls, Hsp. reflexivity.
Qed.

Lemma heading_pass (a b : jsstring) (n : nat) (sp : N) :
  lacks 35 a = true -> lacks 35 b = true ->
  (1 <= n <= 6)%nat -> is_space sp = true ->
  replace_all false re_heading ReplEmpty (a ++ repeat 35 n ++ sp :: b) = a ++ b.
Proof.
  intros Ha Hb Hn Hsp. destruct n as [|n]; [lia|]. unfold replace_all.
  set (text := a ++ repeat 35 (S n) ++ sp :: b).
  replace (S (length text)) with (length a + S (length text - length a))%nat
    by (subst text; rewrite length_app; lia).
  subst text. apply replace_loop_prefix.
  - intros c u prev Hc. apply heading_not_at. apply (lacks_In 35 c a Ha Hc).
  - intros prev. rewrite replace_loop_S, (match_here_heading n sp b prev) by (lia || exact Hsp).
    cbn [rest before expand].
    replace (length b <? length (repeat 35%N (S n) ++ sp :: b))%nat with true
      by (symmetry; apply Nat.ltb_lt; rewrite length_app; simpl; lia).
    cbn [app]. apply replace_loop_no_match.
    apply (search_lacks re_heading 35 b); [| reflexivity | exact Hb].
    intros. apply heading_not_at. assumption.
Qed.

Lemma lacks_repeat (c d : N) (n : nat) : (d =? c) = false -> lacks c (repeat d n) = true.
Proof.
  intros H. induction n as [|n IH]; [reflexivity|].
  cbn [repeat]. rewrite lacks_cons, H, IH. reflexivity.
Qed.

End Markdown.

(** X19.  [sanitizeMessage] strips the markdown markers and keeps the
    text: a text between two [**], or between two [*], on one line, is
    left without its markers, and one to six [#] followed by a
    white-space code unit are removed wherever they stand.  The parts
    around the markers hold neither [*] nor [#], and the message holds
    none of the denylisted patterns. *)
Theorem sanitizeMessage_strips_markdown (a t b : jsstring) :
  lacks 42 a = true -> lacks 42 t = true -> lacks 42 b = true ->
  lacks 35 a = true -> lacks 35 t = true -> lacks 35 b = true ->
  one_line t = true ->
  (denylist_free (a ++ str "**" ++ t ++ str "**" ++ b) ->
   sanitizeMessage (a ++ str "**" ++ t ++ str "**" ++ b) = trim (a ++ t ++ b))
  /\ (t <> [] -> denylist_free (a ++ str "*" ++ t ++ str "*" ++ b) ->
      sanitizeMessage (a ++ str "*" ++ t ++ str "*" ++ b) = trim (a ++ t ++ b))
  /\ (forall (n : nat) (sp : N),
         (1 <= n <= 6)%nat -> is_space sp = true ->
         denylist_free (a ++ repeat 35%N n ++ sp :: b) ->
         sanitizeMessage (a ++ repeat 35%N n ++ sp :: b) = trim (a ++ b)).
Proof.
  intros Ha Ht Hb Ha' Ht' Hb' Hline.
  assert (Hstar : lacks 42 (a ++ t ++ b) = true)
    by (rewrite !lacks_app, Ha, Ht, Hb; reflexivity).
  assert (Hhash : lacks 35 (a ++ t ++ b) = true)
    by (rewrite !lacks_app, Ha', Ht', Hb'; reflexivity).
  split; [|split].
  - intros Hd. rewrite sanitizeMessage_eq, (denylist_passes_clean _ Hd).
    unfold markdown_passes. rewrite (bold_pass a t b Ha Ht Hb Hline).
    rewrite (italic_pass_clean _ Hstar), (heading_pass_clean _ Hhash). reflexivity.
  - intros Hne Hd. rewrite sanitizeMessage_eq, (denylist_passes_clean _ Hd).
    unfold markdown_passes. rewrite (bold_pass_single_markers a t b Ha Ht Hb Hne).
    rewrite (italic_pass a t b Ha Ht Hb Hline), (heading_pass_clean _ Hhash). reflexivity.
  - intros n sp Hn Hsp Hd. rewrite sanitizeMessage_eq, (denylist_passes_clean _ Hd).
    unfold markdown_passes.
    assert (Hs : lacks 42 (a ++ repeat 35%N n ++ sp :: b) = true).
    { rewrite !lacks_app, lacks_cons, Ha, Hb, (lacks_repeat 42 35 n eq_refl).
      rewrite N.eqb_sym, (space_not 42 sp eq_refl Hsp). reflexivity. }
    rewrite (bold_pass_clean _ Hs), (italic_pass_clean _ Hs).
    rewrite (heading_pass a b n sp Ha' Hb' Hn Hsp). reflexivity.
Qed.

Lemma sanitizeMessage_strips_markdown_witness :
  sanitizeMessage (str "Revenue is **up 12%** this quarter. ")
  = str "Revenue is up 12% this quarter.".
Proof.
  refine (proj1 (sanitizeMessage_strips_markdown (str "Revenue is ") (str "up 12%")
                   (str " this quarter. ") _ _ _ _ _ _ _) _);
    try (vm_compute; reflexivity).
  repeat split; vm_compute; reflexivity.
Defined.

(* ================================================================== *)
(** * The page and the chat component *)
(* ================================================================== *)

Section UiFacts.

Open Scope N_scope.

Lemma filter_snoc_length {A : Type} (f : A -> bool) (l : list A) (x : A) :
  length (filter f (l ++ [x]))
  = (length (filter f l) + if f x then 1 else 0)%nat.
Proof.
  rewrite filter_app, length_app. simpl. destruct (f x); reflexivity.
Qed.

Lemma trim_not_blank (s : jsstring) :
  truthy_string (trim s) = true -> truthy_string (trim (trim s)) = true.
Proof.
  intros H. destruct (trim (trim s)) eqn:E; [|reflexivity].
  apply trim_nil_iff in E. pose proof (trim_no_leading s) as Hl.
  destruct (trim s) as [|c t]; [discriminate|].
  inversion E as [|? ? Hc _]; subst. simpl in Hl. congruence.
Qed.

Variable JSON_stringify : value -> jsstring.
Variable fetch : GenerateRequest -> result FetchResponse.

(** The ways POST /generate-report answers, as its callers see them. *)
Lemma report_POST_outcomes (csvData : option CSVData) :
  (exists rep,
      ReportRoute.POST JSON_stringify fetch csvData
      = NextResponse_json (ReportBody rep) 200
      /\ Forall (ReportRoute.has_section rep) ReportRoute.sections)
  \/ (exists msg st,
         ReportRoute.POST JSON_stringify fetch csvData
         = NextResponse_json (ErrorBody msg) st
         /\ msg <> [] /\ (st = 400 \/ st = 500)).
Proof.
  destruct (ReportRoute.POST JSON_stringify fetch csvData) as [st b] eqn:E.
  destruct b as [msg | text | rep].
  - right. exists msg, st.
    destruct csvData as [csv|].
    2:{ inversion E; subst. split; [reflexivity|]. split; [discriminate | left; reflexivity]. }
    revert E. unfold ReportRoute.POST, ReportRoute.handle.
    destruct (fetch _) as [response|e]; cbn [bind try_catch].
    2:{ intros E; inversion E; subst.
        split; [reflexivity|]. split; [discriminate | right; reflexivity]. }
    destruct (ok response); cbn [negb try_catch].
    2:{ intros E; inversion E; subst.
        split; [reflexivity|]. split; [discriminate | right; reflexivity]. }
    destruct (fetch_json response) as [data|e]; cbn [bind try_catch].
    2:{ intros E; inversion E; subst.
        split; [reflexivity|]. split; [discriminate | right; reflexivity]. }
    destruct (String_match false ReportRoute.re_json (ReportRoute.rawText data)) as [json|];
      cbn [try_catch].
    + destruct (report_or_fallback_status csv json) as [rep ->]. discriminate.
    + intros E; inversion E; subst.
      split; [reflexivity|]. split; [discriminate | right; reflexivity].
  - exfalso. revert E. destruct csvData as [csv|]; [|discriminate].
    unfold ReportRoute.POST, ReportRoute.handle.
    destruct (fetch _) as [response|e]; cbn [bind try_catch]; [|discriminate].
    destruct (ok response); cbn [negb try_catch]; [|discriminate].
    destruct (fetch_json response) as [data|e]; cbn [bind try_catch]; [|discriminate].
    destruct (String_match false ReportRoute.re_json (ReportRoute.rawText data)) as [json|];
      cbn [try_catch]; [|discriminate].
    destruct (report_or_fallback_status csv json) as [rep ->]. discriminate.
  - left. exists rep.
    assert (Hb : body (ReportRoute.POST JSON_stringify fetch csvData) = ReportBody rep)
      by (rewrite E; reflexivity).
    destruct (POST_report_body JSON_stringify fetch csvData rep Hb)
      as (csv & -> & E' & Hrep).
    rewrite E in E'. split; [exact E'|].
    destruct Hrep as [-> | (response & data & json & parsed & _ & _ & _ & _ & Hv & ->)].
    + apply fallback_sections.
    + apply sections_serialised, validated_sections, Hv.
Qed.

End UiFacts.

(** X12.  An upload sets the dataset of the page and appends exactly one
    bot message, after the history that was there; the message names
    the file between double quotes, the number of rows, the number of
    columns and every column; neither counter of the dashboard
    changes, and on the page with the dashboard the chat tab becomes
    active.  Once the page has rendered, its hooks have stored the new
    history under [chat-csv-history] and, when the dataset is a new
    object, the dataset under [chat-csv-data]; every other key of the
    store is as it was. *)
Theorem file_upload_appends_summary
    (stringify_history : list Message -> jsstring)
    (stringify_data : CSVData -> jsstring)
    (now : N) (is_new : bool) (data : CSVData) (st : ChatPage.PageState) :
  let st' := ChatPage.upload stringify_history stringify_data now is_new data st in
  ChatPage.csvData st' = Some data
  /\ ChatPage.localStorage st' !! "chat-csv-history"%string
     = Some (stringify_history (ChatPage.chatHistory st'))
  /\ ChatPage.localStorage st' !! "chat-csv-data"%string
     = (if is_new then Some (stringify_data data)
        else ChatPage.localStorage st !! "chat-csv-data"%string)
  /\ (forall key : string,
         key <> "chat-csv-history"%string -> key <> "chat-csv-data"%string ->
         ChatPage.localStorage st' !! key = ChatPage.localStorage st !! key)
  /\ (forall d : Dashboard.DashboardState,
         Dashboard.page d = st ->
         Dashboard.page
           (Dashboard.upload stringify_history stringify_data now is_new data d) = st'
         /\ Dashboard.activeTab
              (Dashboard.upload stringify_history stringify_data now is_new data d)
            = Dashboard.tab_chat)
  /\ ChatPage.reportsGenerated (ChatPage.chatHistory st')
     = ChatPage.reportsGenerated (ChatPage.chatHistory st)
  /\ ChatPage.messagesCount (ChatPage.chatHistory st')
     = ChatPage.messagesCount (ChatPage.chatHistory st)
  /\ exists msg,
       ChatPage.chatHistory st' = ChatPage.chatHistory st ++ [msg]
       /\ type msg = type_bot /\ timestamp msg = now /\ report msg = None
       /\ includes (message msg) ([34%N] ++ fileName data ++ [34%N]) = true
       /\ includes (message msg) (str "It has " ++ num (rowCount data) ++ str " rows") = true
       /\ includes (message msg)
            (num_nat (length (schema data)) ++ str " columns: "
             ++ join (str ", ") (schema data)) = true
       /\ Forall (fun col => includes (message msg) col = true) (schema data).
Proof.
  intros st'. subst st'.
  unfold ChatPage.upload, ChatPage.handleFileUpload, ChatPage.save_history,
    ChatPage.save_data.
  cbn [ChatPage.csvData ChatPage.localStorage ChatPage.chatHistory].
  split; [reflexivity|].
  split; [destruct is_new;
          [rewrite lookup_insert_ne by discriminate|]; apply lookup_insert_eq|].
  split; [destruct is_new;
          [apply lookup_insert_eq | apply lookup_insert_ne; discriminate]|].
  split; [intros key H1 H2; destruct is_new;
          rewrite ?(lookup_insert_ne _ "chat-csv-data"%string) by congruence;
          apply lookup_insert_ne; congruence|].
  split; [intros d <-; split; reflexivity|].
  split; [unfold ChatPage.reportsGenerated; rewrite filter_snoc_length; simpl; lia|].
  split; [unfold ChatPage.messagesCount; rewrite filter_snoc_length; simpl; lia|].
  eexists. split; [reflexivity|]. cbn [type message timestamp report].
  split; [reflexivity|]. split; [reflexivity|]. split; [reflexivity|].
  assert (Hcols : includes (ChatPage.upload_message data)
                    (num_nat (length (schema data)) ++ str " columns: "
                     ++ join (str ", ") (schema data)) = true).
  { unfold ChatPage.upload_message.
    eapply (occurs_in_at _
              (str "Great! I've analyzed your CSV file " ++ [34%N] ++ fileName data ++ [34%N]
               ++ str ". It has " ++ num (rowCount data) ++ str " rows and ")).
    rewrite <- !app_assoc. reflexivity. }
  split; [|split; [|split; [exact Hcols|]]].
  - unfold ChatPage.upload_message.
    eapply (occurs_in_at _ (str "Great! I've analyzed your CSV file ")).
    rewrite <- !app_assoc. reflexivity.
  - unfold ChatPage.upload_message.
    eapply (occurs_in_at _
              (str "Great! I've analyzed your CSV file " ++ [34%N] ++ fileName data ++ [34%N]
               ++ str ". ")
              (str " and " ++ num_nat (length (schema data)) ++ str " columns: "
               ++ join (str ", ") (schema data)
               ++ str ". What would you like to know about your data?")).
    rewrite <- !app_assoc. reflexivity.
  - apply Forall_forall. intros col Hin. apply includes_occurs.
    eapply occurs_in_trans; [|apply includes_occurs, Hcols].
    apply occurs_in_app_r, occurs_in_app_r, occurs_in_join, Hin.
Qed.

Lemma file_upload_appends_summary_witness :
  ChatPage.localStorage
    (ChatPage.upload stringify_messages stringify_dataset 1 true example_dataset
       ChatPage.empty_page) !! "theme"%string
  = None.
Proof.
  rewrite (proj1 (proj2 (proj2 (proj2
             (file_upload_appends_summary stringify_messages stringify_dataset
                1 true example_dataset ChatPage.empty_page)))) "theme"%string);
    [reflexivity | discriminate | discriminate].
Defined.

(** X13.  The report button of the dashboard page, wired to POST
    /generate-report: without a dataset nothing changes; with one, the
    in-flight flag is off at the end and exactly one message is
    appended, either a report entry whose payload has all six sections
    (the chat tab becomes active and the report counter goes up by
    one), or the bot message that the report could not be generated
    (tab and report counter unchanged). *)
Theorem dashboard_report_outcome
    (JSON_stringify : value -> jsstring)
    (fetch : GenerateRequest -> result FetchResponse)
    (now : N) (st : Dashboard.DashboardState) :
  let api := fun c => Ok (ReportRoute.POST JSON_stringify fetch c) in
  let st' := Dashboard.handleGenerateReport api now st in
  let before := ChatPage.chatHistory (Dashboard.page st) in
  let after := ChatPage.chatHistory (Dashboard.page st') in
  (ChatPage.csvData (Dashboard.page st) = None -> st' = st)
  /\ (ChatPage.csvData (Dashboard.page st) <> None ->
      Dashboard.isGeneratingReport st' = false
      /\ ChatPage.csvData (Dashboard.page st') = ChatPage.csvData (Dashboard.page st)
      /\ ((exists rep,
              after = before
                      ++ [ {| type := type_report; message := Dashboard.report_generated;
                              timestamp := now; report := Some rep |} ]
              /\ Forall (ReportRoute.has_section rep) ReportRoute.sections
              /\ Dashboard.activeTab st' = Dashboard.tab_chat
              /\ ChatPage.reportsGenerated after = S (ChatPage.reportsGenerated before))
          \/ (after = before
                      ++ [ {| type := type_bot; message := Dashboard.report_failed;
                              timestamp := now; report := None |} ]
              /\ Dashboard.activeTab st' = Dashboard.activeTab st
              /\ ChatPage.reportsGenerated after = ChatPage.reportsGenerated before))).
Proof.
  intros api st' before after. subst st' before after.
  unfold Dashboard.handleGenerateReport.
  destruct (ChatPage.csvData (Dashboard.page st)) as [csv|] eqn:Hc.
  2:{ split; [reflexivity | congruence]. }
  split; [discriminate|]. intros _.
  unfold Dashboard.request_report, api. cbn [bind].
  destruct (report_POST_outcomes JSON_stringify fetch (Some csv))
    as [(rep & -> & Hs) | (msg & code & -> & _ & Hcode)].
  - cbn [Dashboard.response_ok status NextResponse_json negb body Dashboard.report_field
           N.leb N.compare Pos.compare Pos.compare_cont andb
           Dashboard.isGeneratingReport Dashboard.page Dashboard.activeTab
           Dashboard.start_report Dashboard.append_message
           ChatPage.csvData ChatPage.chatHistory].
    split; [reflexivity|]. split; [exact Hc|]. left. exists rep.
    split; [reflexivity|]. split; [exact Hs|]. split; [reflexivity|].
    unfold ChatPage.reportsGenerated. rewrite filter_snoc_length. simpl. lia.
  - assert (Hnok : Dashboard.response_ok (NextResponse_json (ErrorBody msg) code) = false)
      by (destruct Hcode as [-> | ->]; reflexivity).
    rewrite Hnok.
    cbn [negb Dashboard.isGeneratingReport Dashboard.page Dashboard.activeTab
           Dashboard.start_report Dashboard.append_message
           ChatPage.csvData ChatPage.chatHistory].
    split; [reflexivity|]. split; [exact Hc|]. right.
    split; [reflexivity|]. split; [reflexivity|].
    unfold ChatPage.reportsGenerated. rewrite filter_snoc_length. simpl. lia.
Qed.

Lemma dashboard_report_outcome_witness :
  Dashboard.isGeneratingReport
    (Dashboard.handleGenerateReport
       (fun c => Ok (ReportRoute.POST stringify_row (answering plain_report_text) c))
       2 dashboard_with_data) = false.
Proof.
  apply (proj2 (dashboard_report_outcome stringify_row (answering plain_report_text)
                  2 dashboard_with_data)).
  discriminate.
Defined.

(** X14.  [handleSendMessage] does nothing when the input is blank or a
    request is in flight.  Otherwise it appends exactly two messages
    after the history: the trimmed input as a user message, then a bot
    message that is either the sanitized text of a successful answer
    (no error is shown) or the fixed apology (an error is shown); the
    input is cleared and the loading flag is off at the end.  The
    request carries the trimmed input and the history from before the
    send. *)
Theorem send_message_outcome
    (chat_api : ChatRoute.ChatRequest -> result Response)
    (type_error : exn) (csvData : option CSVData)
    (sent answered : N) (st : ChatInterface.UiState) :
  let st' := ChatInterface.handleSendMessage chat_api type_error csvData sent answered st in
  let question :=
    {| type := type_user; message := trim (ChatInterface.inputMessage st);
       timestamp := sent; report := None |} in
  (ChatInterface.send_refused st = true -> st' = st)
  /\ (ChatInterface.send_refused st = false ->
      ChatInterface.inputMessage st' = []
      /\ ChatInterface.isLoading st' = false
      /\ ChatRoute.message (ChatInterface.send_request csvData st)
         = Some (trim (ChatInterface.inputMessage st))
      /\ ChatRoute.chatHistory (ChatInterface.send_request csvData st)
         = ChatInterface.chatHistory st
      /\ ((exists response text,
              chat_api (ChatInterface.send_request csvData st) = Ok response
              /\ Dashboard.response_ok response = true
              /\ body response = ChatBody text
              /\ ChatInterface.chatHistory st'
                 = ChatInterface.chatHistory st
                   ++ [ question;
                        {| type := type_bot; message := sanitizeMessage text;
                           timestamp := answered; report := None |} ]
              /\ ChatInterface.error st' = None)
          \/ (ChatInterface.chatHistory st'
              = ChatInterface.chatHistory st
                ++ [ question;
                     {| type := type_bot; message := ChatInterface.apology;
                        timestamp := answered; report := None |} ]
              /\ ChatInterface.error st' <> None))).
Proof.
  intros st' question. subst st' question. unfold ChatInterface.handleSendMessage.
  destruct (ChatInterface.send_refused st) eqn:Hr.
  { split; [reflexivity | discriminate]. }
  split; [discriminate|]. intros _.
  unfold ChatInterface.chat_reply.
  destruct (chat_api (ChatInterface.send_request csvData st)) as [response|e] eqn:Ha;
    cbn [bind].
  - destruct (Dashboard.response_ok response) eqn:Hok; cbn [negb].
    + destruct (body response) as [msg | text | rep] eqn:Hb;
        cbn [Dashboard.response_field ChatInterface.start_send
               ChatInterface.chatHistory ChatInterface.inputMessage
               ChatInterface.isLoading ChatInterface.error].
      * repeat (split; [reflexivity|]). right.
        rewrite <- app_assoc. split; [reflexivity | discriminate].
      * repeat (split; [reflexivity|]). left. exists response, text.
        rewrite <- app_assoc. repeat split; assumption || reflexivity.
      * repeat (split; [reflexivity|]). right.
        rewrite <- app_assoc. split; [reflexivity | discriminate].
    + cbn [ChatInterface.start_send ChatInterface.chatHistory
             ChatInterface.inputMessage ChatInterface.isLoading ChatInterface.error].
      repeat (split; [reflexivity|]). right.
      rewrite <- app_assoc. split; [reflexivity | discriminate].
  - cbn [ChatInterface.start_send ChatInterface.chatHistory
           ChatInterface.inputMessage ChatInterface.isLoading ChatInterface.error].
    repeat (split; [reflexivity|]). right.
    rewrite <- app_assoc. split; [reflexivity | discriminate].
Qed.

Lemma send_message_outcome_witness :
  ChatInterface.handleSendMessage unreachable_chat NotAnError None 5 6 ui_with_blank_input
  = ui_with_blank_input.
Proof.
  apply (proj1 (send_message_outcome unreachable_chat NotAnError None 5 6
                  ui_with_blank_input)).
  vm_compute. reflexivity.
Defined.

Section ClientAndRoute.

Import ChatInterface.
Open Scope N_scope.

Lemma response_ok_200 (b : Body) : Dashboard.response_ok (NextResponse_json b 200) = true.
Proof. reflexivity. Qed.

Lemma response_ok_429 (b : Body) : Dashboard.response_ok (NextResponse_json b 429) = false.
Proof. reflexivity. Qed.

Lemma send_request_not_blank (csvData : option CSVData) (st : UiState) :
  send_refused st = false ->
  ChatRoute.message_missing (ChatRoute.message (send_request csvData st)) = false.
Proof.
  unfold send_refused. intros H. apply orb_false_iff in H. destruct H as [H _].
  apply negb_false_iff in H. cbn [send_request ChatRoute.message ChatRoute.message_missing].
  rewrite (trim_not_blank _ H). reflexivity.
Qed.

End ClientAndRoute.

(** X15.  The chat component wired to POST /chat: a send that is not
    refused never meets the 400 of the route, since the message it
    carries is trimmed and not blank.  When the service answers with
    success, the bot message shown is the text of the service (or the
    sentinel) through [sanitizeOutput] and then [sanitizeMessage]; when
    the service answers 429, the apology is appended and the error
    shown is the quota message of the route. *)
Theorem chat_component_with_route
    (JSON_stringify : value -> jsstring)
    (fetch : GenerateRequest -> result FetchResponse)
    (type_error : exn) (csvData : option CSVData)
    (sent answered : N) (st : ChatInterface.UiState)
    (response : FetchResponse) :
  let req := ChatInterface.send_request csvData st in
  let api := fun r => Ok (ChatRoute.POST JSON_stringify fetch r) in
  let st' := ChatInterface.handleSendMessage api type_error csvData sent answered st in
  let question :=
    {| type := type_user; message := trim (ChatInterface.inputMessage st);
       timestamp := sent; report := None |} in
  ChatInterface.send_refused st = false ->
  fetch (ChatRoute.request JSON_stringify req) = Ok response ->
  status (ChatRoute.POST JSON_stringify fetch req) <> 400%N
  /\ (forall data,
         ok response = true -> fetch_json response = Ok data ->
         ChatInterface.chatHistory st'
         = ChatInterface.chatHistory st
           ++ [ question;
                {| type := type_bot;
                   message :=
                     sanitizeMessage
                       (sanitizeOutput
                          (or_else (first_candidate_text data) ChatRoute.no_response));
                   timestamp := answered; report := None |} ]
         /\ ChatInterface.error st' = None)
  /\ (fetch_status response = 429%N ->
      ChatInterface.chatHistory st'
      = ChatInterface.chatHistory st
        ++ [ question;
             {| type := type_bot; message := ChatInterface.apology;
                timestamp := answered; report := None |} ]
      /\ ChatInterface.error st'
         = Some (str "AI service quota exceeded. Please try again later.")).
Proof.
  intros req api st' question Hr Hf. subst st' question api.
  pose proof (send_request_not_blank csvData st Hr) as Hm. fold req in Hm.
  split; [apply POST_not_blank; exact Hm|]. split.
  - intros data Hok Hj.
    unfold ChatInterface.handleSendMessage, ChatInterface.chat_reply.
    rewrite Hr. cbn [bind]. fold req.
    rewrite (POST_success JSON_stringify fetch req response data Hm Hf Hok Hj).
    rewrite response_ok_200.
    cbn [negb body NextResponse_json Dashboard.response_field ChatInterface.start_send
           ChatInterface.chatHistory ChatInterface.error].
    rewrite <- app_assoc. split; reflexivity.
  - intros H429.
    assert (Hok : ok response = false) by (unfold ok; rewrite H429; reflexivity).
    unfold ChatInterface.handleSendMessage, ChatInterface.chat_reply.
    rewrite Hr. cbn [bind]. fold req.
    rewrite (POST_upstream_not_ok JSON_stringify fetch req response Hm Hf Hok), H429.
    cbn [N.eqb Pos.eqb]. rewrite response_ok_429.
    cbn [negb body NextResponse_json Dashboard.error_field ChatInterface.start_send
           ChatInterface.chatHistory ChatInterface.error ChatInterface.error_message].
    rewrite <- app_assoc. split; reflexivity.
Qed.

Lemma chat_component_with_route_witness :
  status (ChatRoute.POST stringify_row (answering (str "  **5%** churn "))
            (ChatInterface.send_request None ui_with_question)) <> 400%N.
Proof.
  refine (proj1 (chat_component_with_route stringify_row
                   (answering (str "  **5%** churn ")) NotAnError None 5 6
                   ui_with_question
                   (response_with (data_with (str "  **5%** churn "))) _ _)).
  - vm_compute. reflexivity.
  - reflexivity.
Defined.

(** X16.  The report button of the chat component does nothing without
    a dataset or while a report is being generated.  Otherwise the
    in-flight flag is off at the end and, after the history, it appends
    either the report entry followed by the bot message that explains
    it (no error shown), or the single bot message that the report
    could not be generated (an error is shown). *)
Theorem component_report_outcome
    (report_api : option CSVData -> result Response)
    (csv : CSVData) (t1 t2 : N) (st : ChatInterface.UiState) :
  let st' := ChatInterface.handleGenerateReport report_api (Some csv) t1 t2 st in
  (ChatInterface.handleGenerateReport report_api None t1 t2 st = st)
  /\ (ChatInterface.isGeneratingReport st = true -> st' = st)
  /\ (ChatInterface.isGeneratingReport st = false ->
      ChatInterface.isGeneratingReport st' = false
      /\ ((exists response,
              report_api (Some csv) = Ok response
              /\ Dashboard.response_ok response = true
              /\ ChatInterface.chatHistory st'
                 = ChatInterface.chatHistory st
                   ++ [ {| type := type_report; message := ChatInterface.report_title;
                           timestamp := t1;
                           report := Dashboard.report_field (body response) |};
                        {| type := type_bot; message := ChatInterface.report_explanation;
                           timestamp := t2; report := None |} ]
              /\ ChatInterface.error st' = None)
          \/ (ChatInterface.chatHistory st'
              = ChatInterface.chatHistory st
                ++ [ {| type := type_bot; message := ChatInterface.report_apology;
                        timestamp := t1; report := None |} ]
              /\ ChatInterface.error st' <> None))).
Proof.
  intros st'. subst st'. unfold ChatInterface.handleGenerateReport.
  split; [reflexivity|].
  destruct (ChatInterface.isGeneratingReport st) eqn:Hg.
  { split; [reflexivity | discriminate]. }
  split; [discriminate|]. intros _.
  unfold ChatInterface.report_reply.
  destruct (report_api (Some csv)) as [response|e] eqn:Ha; cbn [bind].
  - destruct (Dashboard.response_ok response) eqn:Hok; cbn [negb].
    + cbn [ChatInterface.isGeneratingReport ChatInterface.chatHistory ChatInterface.error].
      split; [reflexivity|]. left. exists response.
      split; [reflexivity|]. split; [exact Hok|]. split; reflexivity.
    + cbn [ChatInterface.isGeneratingReport ChatInterface.chatHistory ChatInterface.error].
      split; [reflexivity|]. right. split; [reflexivity | discriminate].
  - cbn [ChatInterface.isGeneratingReport ChatInterface.chatHistory ChatInterface.error].
    split; [reflexivity|]. right. split; [reflexivity | discriminate].
Qed.

Lemma component_report_outcome_witness :
  ChatInterface.isGeneratingReport
    (ChatInterface.handleGenerateReport unreachable_report (Some example_dataset)
       7 8 ui_with_question) = false.
Proof.
  apply (proj2 (proj2 (component_report_outcome unreachable_report example_dataset
                         7 8 ui_with_question))).
  reflexivity.
Defined.

(* ================================================================== *)
(** * The two versions of the chat route *)
(* ================================================================== *)

(** X18.  The current chat route differs from its earlier version by
    the sanitizer alone: when the service gives both the same outcome
    for their prompts, they answer with the same status, an error body
    is the same, and the response text of the current route is the text
    of the earlier one through [sanitizeOutput]; the earlier route
    hands on a non-empty text of the service as it came. *)
Theorem chat_route_adds_sanitizer
    (JSON_stringify : value -> jsstring)
    (fetch fetch' : GenerateRequest -> result FetchResponse)
    (req : ChatRoute.ChatRequest) :
  fetch' (EarlierChatRoute.request JSON_stringify req)
  = fetch (ChatRoute.request JSON_stringify req) ->
  let earlier := EarlierChatRoute.POST JSON_stringify fetch' req in
  let current := ChatRoute.POST JSON_stringify fetch req in
  status current = status earlier
  /\ body current = EarlierChatRoute.sanitized (body earlier)
  /\ (forall response data text,
         ChatRoute.message_missing (ChatRoute.message req) = false ->
         fetch (ChatRoute.request JSON_stringify req) = Ok response ->
         ok response = true ->
         fetch_json response = Ok data ->
         first_candidate_text data = Some text -> text <> [] ->
         body earlier = ChatBody text).
Proof.
  intros Hf earlier current. subst earlier current.
  unfold EarlierChatRoute.POST, EarlierChatRoute.handle, ChatRoute.POST, ChatRoute.handle.
  rewrite Hf.
  destruct (ChatRoute.message_missing (ChatRoute.message req)).
  { repeat split. intros; discriminate. }
  destruct (fetch (ChatRoute.request JSON_stringify req)) as [response|e];
    cbn [bind try_catch].
  - destruct (ok response) eqn:Hok; cbn [negb].
    + destruct (fetch_json response) as [data|e] eqn:Hj; cbn [bind try_catch].
      * repeat split. intros r d text _ Hr _ Hd Ht Hne.
        inversion Hr; subst r. rewrite Hj in Hd. inversion Hd; subst d.
        rewrite Ht. cbn [body NextResponse_json]. f_equal.
        destruct text; [contradiction | reflexivity].
      * destruct e as [m|]; cbn [ChatRoute.on_error];
          [destruct (includes m _)|]; repeat split;
          intros r d text _ Hr _ Hd; inversion Hr; subst r;
          rewrite Hj in Hd; discriminate.
    + destruct (fetch_status response =? 429)%N;
        [|destruct ((fetch_status response =? 401) || (fetch_status response =? 403))%N];
        cbn [try_catch]; repeat split;
        intros r d text _ Hr Hok'; inversion Hr; subst r;
        rewrite Hok in Hok'; discriminate.
  - destruct e as [m|]; cbn [ChatRoute.on_error];
      [destruct (includes m _)|]; repeat split; intros; discriminate.
Qed.

Lemma chat_route_adds_sanitizer_witness :
  body (ChatRoute.POST stringify_row
          (answering (str " <script>track()</script>Revenue grew. ")) greeting_request)
  = ChatBody (str "Revenue grew.")
  /\ body (EarlierChatRoute.POST stringify_row
             (answering (str " <script>track()</script>Revenue grew. ")) greeting_request)
     = ChatBody (str " <script>track()</script>Revenue grew. ").
Proof.
  pose proof (chat_route_adds_sanitizer stringify_row
                (answering (str " <script>track()</script>Revenue grew. "))
                (answering (str " <script>track()</script>Revenue grew. "))
                greeting_request eq_refl) as (_ & Hb & Hraw).
  split.
  - rewrite Hb. vm_compute. reflexivity.
  - apply (Hraw (response_with (data_with (str " <script>track()</script>Revenue grew. ")))
             (data_with (str " <script>track()</script>Revenue grew. "))
             (str " <script>track()</script>Revenue grew. "));
      try reflexivity. discriminate.
Defined.
